(** * USBProxy: the Manager core (src/lib/Manager.cpp)

    A shallow embedding of the Manager class: its lifecycle state machine,
    the filter and injector registries, the sixteen-slot relay tables, and
    the setup and teardown paths. The Manager object is a record; each
    member function is a computation in a state-and-error monad over a
    [World] that holds the object, the calls it made on its collaborators
    and the heap allocations it performed.

    The constructor, [load_plugins], the four registry mutators and the
    two getters, [start_control_relaying], [start_data_relaying],
    [stop_relaying], [setConfig] and [cleanup] are embedded; the destructor
    is not.

    Conventions.
    - The banner [fprintf]s at the entry and the exit of each member
      function are not recorded; the diagnostics that report a refused
      operation or a skipped endpoint are ([EvStderr]).
    - A NULL pointer is [None]. Dereferencing NULL, reading outside an
      allocated array, branching on an indeterminate value and assigning to
      a joinable [std::thread] end the computation with [Undefined].
    - [malloc], [realloc] and [new] are assumed to succeed.
    - [std::thread::join] returns once the thread function has returned:
      the join of a thread that has not been asked to stop since it was
      started ends the computation with [Blocked].
    - Output on stdout (the progress spinner, [device->print(0)]) is not
      recorded. *)

From Stdlib Require Import ZArith String List Lia Bool DecimalString.
From stdpp Require Import base decidable list.
Import ListNotations.

Set Default Proof Using "Type".

(** ** Lifecycle states *)

Inductive Manager_status : Type :=
| USBM_IDLE
| USBM_SETUP
| USBM_RELAYING
| USBM_STOPPING
| USBM_SETUP_ABORT
| USBM_RESET.

#[global] Instance Manager_status_eq_dec : EqDecision Manager_status.
Proof. solve_decision. Defined.

Definition status_eqb (a b : Manager_status) : bool :=
  match a, b with
  | USBM_IDLE, USBM_IDLE
  | USBM_SETUP, USBM_SETUP
  | USBM_RELAYING, USBM_RELAYING
  | USBM_STOPPING, USBM_STOPPING
  | USBM_SETUP_ABORT, USBM_SETUP_ABORT
  | USBM_RESET, USBM_RESET => true
  | _, _ => false
  end.

Definition manager_status_to_string (s : Manager_status) : string :=
  match s with
  | USBM_IDLE => "IDLE"
  | USBM_SETUP => "SETUP"
  | USBM_RELAYING => "RELAYING"
  | USBM_STOPPING => "STOPPING"
  | USBM_SETUP_ABORT => "SETUP_ABORT"
  | USBM_RESET => "RESET"
  end.

(** ** Integer types and constants of the platform headers *)

(** [__u8] arithmetic: the value is reduced modulo 2^8 after each update. *)
Definition u8 (z : Z) : Z := (z mod 256)%Z.

(** <errno.h> on Linux. *)
Definition ETIMEDOUT : Z := 110%Z.

(** <linux/usb/ch9.h>. *)
Definition USB_DT_ENDPOINT : Z := 5%Z.
Definition USB_ENDPOINT_XFERTYPE_MASK : Z := 3%Z.
Definition USB_ENDPOINT_XFER_ISOC : Z := 1%Z.

Record usb_endpoint_descriptor : Type := {
  bLength : Z;
  bDescriptorType : Z;
  bEndpointAddress : Z;
  bmAttributes : Z;
  wMaxPacketSize : Z;
  bInterval : Z
}.

(** ** The device model

    Device.h, Configuration.h, Interface.h, Endpoint.h and
    DeviceQualifier.h are not part of the sources at hand; the Manager only
    reads the model through the accessors below. *)

(** Modelled from the spec: an alternate setting of an interface, with its
    interface number and the endpoint descriptors it carries ("each with a
    set of Endpoints"). *)
Record Interface : Type := {
  bInterfaceNumber : Z;
  bAlternateSetting : Z;
  ifc_endpoints : list usb_endpoint_descriptor
}.

(** Modelled from the spec: an Endpoint is built from an endpoint
    descriptor and keeps a "back-reference to the owning Interface
    (nullable for EP0)". *)
Record Endpoint : Type := {
  ep_descriptor : usb_endpoint_descriptor;
  ep_interface : option Interface
}.

Definition get_endpoint_count (aifc : Interface) : nat :=
  length (ifc_endpoints aifc).

Definition get_endpoint_by_idx (aifc : Interface) (ep_idx : nat) : option Endpoint :=
  match ifc_endpoints aifc !! ep_idx with
  | Some d => Some {| ep_descriptor := d; ep_interface := Some aifc |}
  | None => None
  end.

(** Modelled from the spec: "A Configuration has N Interfaces, each with
    >= 1 Alternate settings". [bNumInterfaces] is the field of the
    configuration descriptor; [cfg_interfaces] is the parsed tree, one list
    of alternates per interface index. *)
Record Configuration : Type := {
  bNumInterfaces : Z;
  cfg_interfaces : list (list Interface)
}.

Definition get_interface_alternate_count (cfg : Configuration) (ifc_idx : nat)
  : option nat :=
  length <$> cfg_interfaces cfg !! ifc_idx.

Definition get_interface_alternate (cfg : Configuration) (ifc_idx aifc_idx : nat)
  : option Interface :=
  match cfg_interfaces cfg !! ifc_idx with
  | Some alts => alts !! aifc_idx
  | None => None
  end.

(** Modelled from the spec: the optional DeviceQualifier, which hands out
    the other-speed configurations by index. *)
Record DeviceQualifier : Type := {
  dq_get_configuration : Z -> option Configuration
}.

(** Modelled from the spec: "A Device has >= 1 Configurations and exactly
    one active Configuration at a time. Device also holds an optional
    DeviceQualifier". *)
Record Device : Type := {
  bMaxPacketSize0 : Z;
  get_configuration : Z -> option Configuration;
  active_configuration : Z;
  get_device_qualifier : option DeviceQualifier;
  is_highspeed : bool
}.

Definition get_active_configuration (d : Device) : option Configuration :=
  get_configuration d (active_configuration d).

Definition set_active_configuration (index : Z) (d : Device) : Device :=
  {| bMaxPacketSize0 := bMaxPacketSize0 d;
     get_configuration := get_configuration d;
     active_configuration := index;
     get_device_qualifier := get_device_qualifier d;
     is_highspeed := is_highspeed d |}.

(** ** Filters and injectors

    PacketFilter.h and Injector.h are not at hand. The Manager uses the
    four match predicates of each plugin, and [listen] / [please_stop] of
    an injector. The identifier stands for the address of the object. *)

Record PacketFilter : Type := {
  pf_id : nat;
  pf_device : Device -> bool;
  pf_configuration : Configuration -> bool;
  pf_interface : option Interface -> bool;
  pf_endpoint : Endpoint -> bool
}.

Record Injector : Type := {
  inj_id : nat;
  inj_device : Device -> bool;
  inj_configuration : Configuration -> bool;
  inj_interface : option Interface -> bool;
  inj_endpoint : Endpoint -> bool
}.

(** ** Relay objects *)

Inductive proxy : Type := DeviceProxy | HostProxy.

#[global] Instance proxy_eq_dec : EqDecision proxy.
Proof. solve_decision. Defined.

(** What a relay is attached to: the PacketQueue of a data slot, or, for
    EP0, the [_readersend] / [_writersend] pair of the Manager. *)
Inductive channel : Type :=
| SlotQueue (q : nat)
| ControlPipes.

Record RelayReader : Type := {
  rd_id : nat;
  rd_endpoint : Endpoint;
  rd_proxy : proxy;
  rd_channel : channel
}.

(** [wr_manager] records whether the constructor received [this];
    [wr_filters] is the chain built by [RelayWriter::add_filter]. *)
Record RelayWriter : Type := {
  wr_id : nat;
  wr_endpoint : Endpoint;
  wr_proxy : proxy;
  wr_manager : bool;
  wr_channel : channel;
  wr_filters : list PacketFilter
}.

Definition writer_add_filter (f : PacketFilter) (w : RelayWriter) : RelayWriter :=
  {| wr_id := wr_id w; wr_endpoint := wr_endpoint w; wr_proxy := wr_proxy w;
     wr_manager := wr_manager w; wr_channel := wr_channel w;
     wr_filters := wr_filters w ++ [f] |}.

(** ** The Manager object *)

(** The content of a pointer variable: not yet written, or a pointer. *)
Inductive cell (A : Type) : Type :=
| Indet
| Ptr (p : option A).
Arguments Indet {A}.
Arguments Ptr {A} p.

Inductive dir : Type := IN | OUT.

#[global] Instance dir_eq_dec : EqDecision dir.
Proof. solve_decision. Defined.

(** The six parallel sixteen-entry arrays of one direction
    ([in_endpoints], [in_readers], [in_writers], [in_readerThreads],
    [in_writerThreads], [in_queues], and the same for [out_]). A thread
    handle is represented by its [joinable()] flag. *)
Record Relays : Type := {
  endpoints : list (option Endpoint);
  readers : list (option RelayReader);
  writers : list (option RelayWriter);
  readerThreads : list bool;
  writerThreads : list bool;
  queues : list (cell nat)
}.

(** Manager.h is not at hand. [filterCount] and [injectorCount] are taken
    to have the type their getters return, [__u8]; the thread arrays hold
    [std::thread] objects, as their use requires. [plugin_manager],
    [_readersend], [_writersend] and [_debug_level] play no part in what
    follows and are left out. *)
Record Manager : Type := {
  status : Manager_status;
  deviceProxy : option proxy;
  hostProxy : option proxy;
  device : option Device;
  filters : option (list (cell PacketFilter));
  filterCount : Z;
  injectors : option (list (cell Injector));
  injectorCount : Z;
  injectorThreads : list nat;
  in_relays : Relays;
  out_relays : Relays
}.

Definition relays (d : dir) (m : Manager) : Relays :=
  match d with IN => in_relays m | OUT => out_relays m end.

(** ** Collaborator calls and allocations *)

Inductive obj : Type :=
| OFilter (id : nat)
| OInjector (id : nat)
| OReader (id : nat)
| OWriter (id : nat)
| OQueue (id : nat)
| OEndpoint0.

#[global] Instance obj_eq_dec : EqDecision obj.
Proof. solve_decision. Defined.

Inductive event : Type :=
| EvStderr (msg : string)
| EvConnect (p : proxy)
| EvDisconnect (p : proxy)
| EvClaimInterface (n : Z)
| EvReleaseInterface (n : Z)
| EvSetEndpointInterface (addr ifnum : Z)
| EvSetConfig (p : proxy) (cfg other : option Configuration) (hs : bool)
| EvSetActiveConfiguration (index : Z)
| EvNew (o : obj)
| EvDelete (o : obj)
| EvPleaseStop (o : obj)
| EvThreadStart (o : obj)
| EvThreadJoin (o : obj)
| EvAddFilter (writer filter : nat).

(** The Manager together with what it did to the outside: the calls in
    program order, the number of volatile reads of [status] made by the
    setup path, the number of [connect] calls per proxy, and the next
    fresh heap address. *)
Record World : Type := {
  mgr : Manager;
  log : list event;
  reads : nat;
  dev_connects : nat;
  host_connects : nat;
  next_id : nat
}.

(** ** The monad *)

(** A computation returns ([Done]), has no defined behaviour
    ([Undefined]), makes more rounds of a loop than the bound it was given
    ([OutOfFuel]), or waits for ever in a call that does not return
    ([Blocked]). *)
Inductive outcome (A : Type) : Type :=
| Done (a : A) (w : World)
| Undefined (why : string)
| OutOfFuel
| Blocked (why : string).
Arguments Done {A} a w.
Arguments Undefined {A} why.
Arguments OutOfFuel {A}.
Arguments Blocked {A} why.

Definition M (A : Type) : Type := World -> outcome A.

Definition ret {A} (a : A) : M A := fun w => Done a w.

Definition bind {A B} (c : M A) (k : A -> M B) : M B :=
  fun w =>
    match c w with
    | Done a w' => k a w'
    | Undefined why => Undefined why
    | OutOfFuel => OutOfFuel
    | Blocked why => Blocked why
    end.

Definition undefined {A} (why : string) : M A := fun _ => Undefined why.

Declare Scope mgr_scope.
Delimit Scope mgr_scope with mgr.
Notation "x <- c ;; k" := (bind c (fun x => k))
  (at level 100, c at next level, right associativity) : mgr_scope.
Notation "c ;; k" := (bind c (fun _ => k))
  (at level 100, right associativity) : mgr_scope.
Open Scope mgr_scope.

Definition get_mgr : M Manager := fun w => Done (mgr w) w.

Definition modify (f : Manager -> Manager) : M unit :=
  fun w => Done tt {| mgr := f (mgr w); log := log w; reads := reads w;
                      dev_connects := dev_connects w;
                      host_connects := host_connects w; next_id := next_id w |}.

Definition emit (e : event) : M unit :=
  fun w => Done tt {| mgr := mgr w; log := log w ++ [e]; reads := reads w;
                      dev_connects := dev_connects w;
                      host_connects := host_connects w; next_id := next_id w |}.

Definition fresh : M nat :=
  fun w => Done (next_id w)
             {| mgr := mgr w; log := log w; reads := reads w;
                dev_connects := dev_connects w;
                host_connects := host_connects w; next_id := S (next_id w) |}.

Definition stderr (msg : string) : M unit := emit (EvStderr msg).

Definition when (b : bool) (c : M unit) : M unit := if b then c else ret tt.

(** [p->...] on a pointer that may be NULL. *)
Definition deref {A} (why : string) (p : option A) : M A :=
  match p with
  | Some a => ret a
  | None => undefined why
  end.

(** [for] over the given indices, in order. *)
Fixpoint for_each {A} (l : list A) (body : A -> M unit) : M unit :=
  match l with
  | [] => ret tt
  | x :: l' => body x ;; for_each l' body
  end.

(** The indices of [for (i = lo; i < hi; i++)]. *)
Definition range (lo hi : Z) : list Z :=
  map (fun k => (lo + Z.of_nat k)%Z) (seq 0 (Z.to_nat (hi - lo))).

(** ** Field updates *)

Definition set_status (s : Manager_status) (m : Manager) : Manager :=
  {| status := s; deviceProxy := deviceProxy m; hostProxy := hostProxy m;
     device := device m; filters := filters m; filterCount := filterCount m;
     injectors := injectors m; injectorCount := injectorCount m;
     injectorThreads := injectorThreads m;
     in_relays := in_relays m; out_relays := out_relays m |}.

Definition set_proxies (dp hp : option proxy) (m : Manager) : Manager :=
  {| status := status m; deviceProxy := dp; hostProxy := hp;
     device := device m; filters := filters m; filterCount := filterCount m;
     injectors := injectors m; injectorCount := injectorCount m;
     injectorThreads := injectorThreads m;
     in_relays := in_relays m; out_relays := out_relays m |}.

Definition set_device (d : option Device) (m : Manager) : Manager :=
  {| status := status m; deviceProxy := deviceProxy m; hostProxy := hostProxy m;
     device := d; filters := filters m; filterCount := filterCount m;
     injectors := injectors m; injectorCount := injectorCount m;
     injectorThreads := injectorThreads m;
     in_relays := in_relays m; out_relays := out_relays m |}.

Definition set_filters (a : option (list (cell PacketFilter))) (n : Z)
  (m : Manager) : Manager :=
  {| status := status m; deviceProxy := deviceProxy m; hostProxy := hostProxy m;
     device := device m; filters := a; filterCount := n;
     injectors := injectors m; injectorCount := injectorCount m;
     injectorThreads := injectorThreads m;
     in_relays := in_relays m; out_relays := out_relays m |}.

Definition set_injectors (a : option (list (cell Injector))) (n : Z)
  (m : Manager) : Manager :=
  {| status := status m; deviceProxy := deviceProxy m; hostProxy := hostProxy m;
     device := device m; filters := filters m; filterCount := filterCount m;
     injectors := a; injectorCount := n;
     injectorThreads := injectorThreads m;
     in_relays := in_relays m; out_relays := out_relays m |}.

Definition set_injectorThreads (t : list nat) (m : Manager) : Manager :=
  {| status := status m; deviceProxy := deviceProxy m; hostProxy := hostProxy m;
     device := device m; filters := filters m; filterCount := filterCount m;
     injectors := injectors m; injectorCount := injectorCount m;
     injectorThreads := t;
     in_relays := in_relays m; out_relays := out_relays m |}.

Definition set_relays (d : dir) (r : Relays) (m : Manager) : Manager :=
  {| status := status m; deviceProxy := deviceProxy m; hostProxy := hostProxy m;
     device := device m; filters := filters m; filterCount := filterCount m;
     injectors := injectors m; injectorCount := injectorCount m;
     injectorThreads := injectorThreads m;
     in_relays := match d with IN => r | OUT => in_relays m end;
     out_relays := match d with IN => out_relays m | OUT => r end |}.

Definition set_endpoint (i : nat) (e : option Endpoint) (r : Relays) : Relays :=
  {| endpoints := <[i := e]> (endpoints r); readers := readers r;
     writers := writers r; readerThreads := readerThreads r;
     writerThreads := writerThreads r; queues := queues r |}.

Definition set_reader (i : nat) (x : option RelayReader) (r : Relays) : Relays :=
  {| endpoints := endpoints r; readers := <[i := x]> (readers r);
     writers := writers r; readerThreads := readerThreads r;
     writerThreads := writerThreads r; queues := queues r |}.

Definition set_writer (i : nat) (x : option RelayWriter) (r : Relays) : Relays :=
  {| endpoints := endpoints r; readers := readers r;
     writers := <[i := x]> (writers r); readerThreads := readerThreads r;
     writerThreads := writerThreads r; queues := queues r |}.

Definition set_readerThread (i : nat) (b : bool) (r : Relays) : Relays :=
  {| endpoints := endpoints r; readers := readers r;
     writers := writers r; readerThreads := <[i := b]> (readerThreads r);
     writerThreads := writerThreads r; queues := queues r |}.

Definition set_writerThread (i : nat) (b : bool) (r : Relays) : Relays :=
  {| endpoints := endpoints r; readers := readers r;
     writers := writers r; readerThreads := readerThreads r;
     writerThreads := <[i := b]> (writerThreads r); queues := queues r |}.

Definition set_queue (i : nat) (q : cell nat) (r : Relays) : Relays :=
  {| endpoints := endpoints r; readers := readers r;
     writers := writers r; readerThreads := readerThreads r;
     writerThreads := writerThreads r; queues := <[i := q]> (queues r) |}.

Definition modify_relays (d : dir) (f : Relays -> Relays) : M unit :=
  modify (fun m => set_relays d (f (relays d m)) m).

(** Reading entry [i] of a sixteen-entry member array. *)
Definition slot {A} (l : list A) (i : nat) : M A :=
  deref "index outside a 16-entry table" (l !! i).

(** ** The constructor *)

(** The constructor clears the endpoint, reader and writer arrays; the
    thread handles are default-constructed; [in_queues] and [out_queues]
    are not written. *)
Definition empty_relays : Relays :=
  {| endpoints := replicate 16 None; readers := replicate 16 None;
     writers := replicate 16 None; readerThreads := replicate 16 false;
     writerThreads := replicate 16 false; queues := replicate 16 Indet |}.

Definition Manager_new : Manager :=
  {| status := USBM_IDLE; deviceProxy := None; hostProxy := None;
     device := None; filters := None; filterCount := 0%Z;
     injectors := None; injectorCount := 0%Z; injectorThreads := [];
     in_relays := empty_relays; out_relays := empty_relays |}.

Definition World_new : World :=
  {| mgr := Manager_new; log := []; reads := 0; dev_connects := 0;
     host_connects := 0; next_id := 0 |}.

(** ** The registries: [filters] / [filterCount], [injectors] / [injectorCount] *)

(** [realloc] of a pointer array to [n] entries: the old contents up to the
    new size, the rest indeterminate; on NULL it is [malloc]. *)
Definition realloc {A} (p : option (list (cell A))) (n : Z)
  : M (option (list (cell A))) :=
  if (n =? 0)%Z then undefined "realloc to size zero"
  else
    let old := default [] p in
    ret (Some (take (Z.to_nat n) old
               ++ replicate (Z.to_nat n - length old) Indet)).

(** [p[i]] as an rvalue. *)
Definition load {A} (p : option (list (cell A))) (i : Z) : M (cell A) :=
  arr <- deref "subscript on a NULL array" p ;;
  if (i <? 0)%Z then undefined "negative subscript"
  else deref "read past the end of the array" (arr !! Z.to_nat i).

(** [p[i] = c]. *)
Definition store {A} (p : option (list (cell A))) (i : Z) (c : cell A)
  : M (option (list (cell A))) :=
  arr <- deref "subscript on a NULL array" p ;;
  if (i <? 0)%Z then undefined "negative subscript"
  else if (Z.to_nat i <? length arr)%nat then ret (Some (<[Z.to_nat i := c]> arr))
  else undefined "write past the end of the array".

(** A pointer value used in a condition or dereferenced. *)
Definition value {A} (c : cell A) : M (option A) :=
  match c with
  | Ptr p => ret p
  | Indet => undefined "use of an indeterminate pointer"
  end.

(** [for (i = index + 1; i < count; i++) p[i - 1] = p[i];] *)
Fixpoint shift_down {A} (p : option (list (cell A))) (ixs : list Z)
  : M (option (list (cell A))) :=
  match ixs with
  | [] => ret p
  | i :: ixs' =>
      c <- load p i ;;
      p' <- store p (i - 1) c ;;
      shift_down p' ixs'
  end.

Definition not_idle_or_reset (s : Manager_status) : bool :=
  negb (status_eqb s USBM_IDLE) && negb (status_eqb s USBM_RESET).

Definition is_null {A} (p : option A) : bool :=
  match p with None => true | Some _ => false end.

Definition add_injector (_injector : option Injector) : M unit :=
  m <- get_mgr ;;
  when (negb (status_eqb (status m) USBM_IDLE))
       (stderr "Can't add injectors unless manager is idle.") ;;
  match injectors m with
  | Some _ =>
      let n := u8 (injectorCount m + 1) in
      p <- realloc (injectors m) n ;;
      modify (set_injectors p n)
  | None =>
      modify (set_injectors (Some [Indet]) 1%Z)
  end ;;
  m <- get_mgr ;;
  p <- store (injectors m) (injectorCount m - 1) (Ptr _injector) ;;
  modify (set_injectors p (injectorCount m)).

Definition remove_injector (index : Z) (freeMemory : bool) : M unit :=
  m <- get_mgr ;;
  when (not_idle_or_reset (status m))
       (stderr "Can't remove injectors unless manager is idle or reset.") ;;
  when (is_null (injectors m) || (injectorCount m <=? index)%Z)
       (stderr "Injector index out of bounds.") ;;
  (if freeMemory then
     c <- load (injectors m) index ;;
     p <- value c ;;
     match p with
     | Some i => emit (EvDelete (OInjector (inj_id i)))
     | None => ret tt
     end
   else ret tt) ;;
  if (injectorCount m =? 1)%Z then
    modify (set_injectors None 0%Z)
  else
    p <- shift_down (injectors m) (range (index + 1) (injectorCount m)) ;;
    let n := u8 (injectorCount m - 1) in
    p' <- realloc p n ;;
    modify (set_injectors p' n).

Definition get_injector (index : Z) : M (option Injector) :=
  m <- get_mgr ;;
  if is_null (injectors m) || (injectorCount m <=? index)%Z then ret None
  else c <- load (injectors m) index ;; value c.

Definition get_injector_count : M Z :=
  m <- get_mgr ;; ret (injectorCount m).

Definition add_filter (_filter : option PacketFilter) : M unit :=
  m <- get_mgr ;;
  when (not_idle_or_reset (status m))
       (stderr "Can't add filters unless manager is idle or reset.") ;;
  match filters m with
  | Some _ =>
      let n := u8 (filterCount m + 1) in
      p <- realloc (filters m) n ;;
      modify (set_filters p n)
  | None =>
      modify (set_filters (Some [Indet]) 1%Z)
  end ;;
  m <- get_mgr ;;
  p <- store (filters m) (filterCount m - 1) (Ptr _filter) ;;
  modify (set_filters p (filterCount m)).

Definition remove_filter (index : Z) (freeMemory : bool) : M unit :=
  m <- get_mgr ;;
  when (not_idle_or_reset (status m))
       (stderr "Can't remove filters unless manager is idle or reset.") ;;
  when (is_null (filters m) || (filterCount m <=? index)%Z)
       (stderr "Filter index out of bounds.") ;;
  (if freeMemory then
     c <- load (filters m) index ;;
     p <- value c ;;
     match p with
     | Some f => emit (EvDelete (OFilter (pf_id f)))
     | None => ret tt
     end
   else ret tt) ;;
  if (filterCount m =? 1)%Z then
    modify (set_filters None 0%Z)
  else
    p <- shift_down (filters m) (range (index + 1) (filterCount m)) ;;
    let n := u8 (filterCount m - 1) in
    p' <- realloc p n ;;
    modify (set_filters p' n).

Definition get_filter (index : Z) : M (option PacketFilter) :=
  m <- get_mgr ;;
  if is_null (filters m) || (filterCount m <=? index)%Z then ret None
  else c <- load (filters m) index ;; value c.

Definition get_filter_count : M Z :=
  m <- get_mgr ;; ret (filterCount m).

(** ** The environment of one session

    What the Manager cannot decide by itself: the result of the k-th call
    of [connect] on either proxy, the Device that [new Device(deviceProxy)]
    builds, and the other thread. [status] is shared; while it is SETUP the
    only thing a concurrent [stop_relaying()] does is to store SETUP_ABORT.
    [stop_requested k] tells whether such a call has come in by the time the
    setup path reads [status] for the k-th time. *)
Record Env : Type := {
  device_connect : nat -> Z;
  host_connect : nat -> Z;
  stop_requested : nat -> bool;
  enumerated : Device
}.

Definition read_status (e : Env) : M Manager_status :=
  fun w =>
    let m := if stop_requested e (reads w)
                && status_eqb (status (mgr w)) USBM_SETUP
             then set_status USBM_SETUP_ABORT (mgr w)
             else mgr w in
    Done (status m)
         {| mgr := m; log := log w; reads := S (reads w);
            dev_connects := dev_connects w;
            host_connects := host_connects w; next_id := next_id w |}.

Definition proxy_ptr (p : proxy) (m : Manager) : option proxy :=
  match p with DeviceProxy => deviceProxy m | HostProxy => hostProxy m end.

(** A member call on one of the two proxy pointers. *)
Definition call (p : proxy) (ev : event) : M unit :=
  m <- get_mgr ;;
  _ <- deref "member call on a NULL proxy" (proxy_ptr p m) ;;
  emit ev.

Definition connect_result (e : Env) (p : proxy) : M Z :=
  fun w =>
    match p with
    | DeviceProxy =>
        Done (device_connect e (dev_connects w))
             {| mgr := mgr w; log := log w; reads := reads w;
                dev_connects := S (dev_connects w);
                host_connects := host_connects w; next_id := next_id w |}
    | HostProxy =>
        Done (host_connect e (host_connects w))
             {| mgr := mgr w; log := log w; reads := reads w;
                dev_connects := dev_connects w;
                host_connects := S (host_connects w); next_id := next_id w |}
    end.

Definition connect (e : Env) (p : proxy) : M Z :=
  call p (EvConnect p) ;; connect_result e p.

Definition out_of_fuel {A} : M A := fun _ => OutOfFuel.

(** [while (rc == ETIMEDOUT && status == USBM_SETUP) rc = proxy->connect();]
    The progress spinner on stdout is not recorded. *)
Fixpoint connect_loop (e : Env) (p : proxy) (fuel : nat) (rc : Z) : M Z :=
  if (rc =? ETIMEDOUT)%Z then
    s <- read_status e ;;
    if status_eqb s USBM_SETUP then
      match fuel with
      | O => out_of_fuel
      | S fuel' => rc' <- connect e p ;; connect_loop e p fuel' rc'
      end
    else ret rc
  else ret rc.

(** ** Thread handles *)

Definition start_reader_thread (d : dir) (i : nat) (r : RelayReader) : M unit :=
  m <- get_mgr ;;
  j <- slot (readerThreads (relays d m)) i ;;
  if (j : bool) then undefined "assignment to a joinable std::thread"
  else modify_relays d (set_readerThread i true) ;;
       emit (EvThreadStart (OReader (rd_id r))).

Definition start_writer_thread (d : dir) (i : nat) (x : RelayWriter) : M unit :=
  m <- get_mgr ;;
  j <- slot (writerThreads (relays d m)) i ;;
  if (j : bool) then undefined "assignment to a joinable std::thread"
  else modify_relays d (set_writerThread i true) ;;
       emit (EvThreadStart (OWriter (wr_id x))).

(** ** Joining a thread *)

Definition obj_eqb (a b : obj) : bool :=
  match a, b with
  | OFilter i, OFilter j | OInjector i, OInjector j
  | OReader i, OReader j | OWriter i, OWriter j
  | OQueue i, OQueue j => (i =? j)%nat
  | OEndpoint0, OEndpoint0 => true
  | _, _ => false
  end.

(** Whether, in the log [l], [please_stop()] has been called on the object
    [o] since the thread that runs on it was last started. *)
Definition asked_to_stop (o : obj) (l : list event) : bool :=
  fold_left
    (fun b e =>
       match e with
       | EvThreadStart o' => if obj_eqb o' o then false else b
       | EvPleaseStop o' => if obj_eqb o' o then true else b
       | _ => b
       end)
    l false.
Arguments asked_to_stop : simpl never.

(** Modelled from the spec: "[listen()] (long-running, returns only on
    stop)" for an injector, and for a relay "[please_stop()] sets a flag
    that causes the loop to exit". RelayReader.h, RelayWriter.h and
    Injector.h are not at hand. The thread that runs on [o] ends once
    [please_stop()] has been called on [o]; [join()] on it returns then,
    and does not return before. *)
Definition join (o : obj) : M unit :=
  fun w =>
    if asked_to_stop o (log w) then emit (EvThreadJoin o) w
    else Blocked "join of a thread that has not been asked to stop".

(** ** [Manager::stop_relaying] *)

(** Entry [i] of the loop "signal all relayer threads to stop ASAP", for
    one direction. *)
Definition signal_relays (d : dir) (i : nat) : M unit :=
  m <- get_mgr ;;
  jr <- slot (readerThreads (relays d m)) i ;;
  when jr (p <- slot (readers (relays d m)) i ;;
           r <- deref "please_stop on a NULL reader" p ;;
           emit (EvPleaseStop (OReader (rd_id r)))) ;;
  jw <- slot (writerThreads (relays d m)) i ;;
  when jw (p <- slot (writers (relays d m)) i ;;
           x <- deref "please_stop on a NULL writer" p ;;
           emit (EvPleaseStop (OWriter (wr_id x)))).

(** Entry [i] of the loop "wait for all relayer threads to stop, then
    delete relayer objects", for one direction. *)
Definition release_relays (d : dir) (i : nat) : M unit :=
  m <- get_mgr ;;
  ep <- slot (endpoints (relays d m)) i ;;
  when (negb (is_null ep)) (modify_relays d (set_endpoint i None)) ;;
  p <- slot (readers (relays d m)) i ;;
  match p with
  | Some r =>
      j <- slot (readerThreads (relays d m)) i ;;
      when j (join (OReader (rd_id r)) ;;
              modify_relays d (set_readerThread i false)) ;;
      emit (EvDelete (OReader (rd_id r))) ;;
      modify_relays d (set_reader i None)
  | None => ret tt
  end ;;
  p <- slot (writers (relays d m)) i ;;
  match p with
  | Some x =>
      j <- slot (writerThreads (relays d m)) i ;;
      when j (join (OWriter (wr_id x)) ;;
              modify_relays d (set_writerThread i false)) ;;
      emit (EvDelete (OWriter (wr_id x))) ;;
      modify_relays d (set_writer i None)
  | None => ret tt
  end.

Definition please_stop_injector (i : Z) : M unit :=
  m <- get_mgr ;;
  c <- load (injectors m) i ;;
  p <- value c ;;
  match p with
  | Some inj => emit (EvPleaseStop (OInjector (inj_id inj)))
  | None => ret tt
  end.

Definition release_interfaces : M unit :=
  m <- get_mgr ;;
  match device m with
  | Some d =>
      cfg <- deref "no active configuration" (get_active_configuration d) ;;
      for_each (range 0 (bNumInterfaces cfg))
               (fun ifc_idx => call DeviceProxy (EvReleaseInterface ifc_idx))
  | None => ret tt
  end.

Definition teardown : M unit :=
  modify (set_status USBM_STOPPING) ;;
  m <- get_mgr ;;
  for_each (range 0 (injectorCount m)) please_stop_injector ;;
  for_each (seq 0 16) (fun i => signal_relays IN i ;; signal_relays OUT i) ;;
  for_each (injectorThreads m) (fun t => join (OInjector t)) ;;
  modify (set_injectorThreads []) ;;
  for_each (seq 0 16) (fun i => release_relays IN i ;; release_relays OUT i) ;;
  m <- get_mgr ;;
  ep0 <- slot (endpoints (out_relays m)) 0 ;;
  when (negb (is_null ep0))
       (emit (EvDelete OEndpoint0) ;; modify_relays OUT (set_endpoint 0 None)) ;;
  release_interfaces ;;
  call HostProxy (EvDisconnect HostProxy) ;;
  call DeviceProxy (EvDisconnect DeviceProxy) ;;
  modify (set_device None) ;;
  modify (set_status USBM_IDLE).

Definition stop_relaying : M unit :=
  m <- get_mgr ;;
  if status_eqb (status m) USBM_SETUP then
    modify (set_status USBM_SETUP_ABORT)
  else if negb (status_eqb (status m) USBM_RELAYING)
          && negb (status_eqb (status m) USBM_SETUP_ABORT) then
    ret tt
  else teardown.

(** ** [Manager::start_control_relaying] *)

(** [if (status != USBM_SETUP) { <abort>; return; }] followed by [k]. *)
Definition unless_setup (e : Env) (abort k : M unit) : M unit :=
  s <- read_status e ;;
  if status_eqb s USBM_SETUP then k else abort.

Definition desc_ep0 (d : Device) : usb_endpoint_descriptor :=
  {| bLength := 7; bDescriptorType := USB_DT_ENDPOINT;
     bEndpointAddress := 0; bmAttributes := 0;
     wMaxPacketSize := bMaxPacketSize0 d; bInterval := 0 |}.

(** [writers[i]->add_filter(f)] *)
Definition add_filter_to_writer (d : dir) (i : nat) (f : PacketFilter) : M unit :=
  m <- get_mgr ;;
  p <- slot (writers (relays d m)) i ;;
  x <- deref "add_filter on a NULL writer" p ;;
  modify_relays d (set_writer i (Some (writer_add_filter f x))) ;;
  emit (EvAddFilter (wr_id x) (pf_id f)).

Definition filter_at (i : Z) : M PacketFilter :=
  m <- get_mgr ;;
  c <- load (filters m) i ;;
  p <- value c ;;
  deref "member access through a NULL filter" p.

Definition injector_at (i : Z) : M Injector :=
  m <- get_mgr ;;
  c <- load (injectors m) i ;;
  p <- value c ;;
  deref "member access through a NULL injector" p.

Definition the_device : M Device :=
  m <- get_mgr ;; deref "device is NULL" (device m).

(** "apply filters to relayers", EP0; [k] is the rest of the function. *)
Fixpoint ep0_apply_filters (e : Env) (ixs : list Z) (k : M unit) : M unit :=
  match ixs with
  | [] => k
  | i :: ixs' =>
      unless_setup e stop_relaying
        (f <- filter_at i ;;
         d <- the_device ;;
         (if pf_device f d then
            m <- get_mgr ;;
            ep <- slot (endpoints (out_relays m)) 0 ;;
            match ep with
            | Some ep0 =>
                if pf_endpoint f ep0 then add_filter_to_writer OUT 0 f
                else ret tt
            | None => ret tt
            end
          else ret tt) ;;
         ep0_apply_filters e ixs' k)
  end.

(** "apply injectors to relayers", EP0: the two predicates are evaluated,
    the guarded block holds comments only. *)
Fixpoint ep0_apply_injectors (e : Env) (ixs : list Z) (k : M unit) : M unit :=
  match ixs with
  | [] => k
  | i :: ixs' =>
      unless_setup e stop_relaying
        (inj <- injector_at i ;;
         d <- the_device ;;
         (if inj_device inj d then
            m <- get_mgr ;;
            ep <- slot (endpoints (out_relays m)) 0 ;;
            match ep with
            | Some ep0 => if inj_endpoint inj ep0 then ret tt else ret tt
            | None => ret tt
            end
          else ret tt) ;;
         ep0_apply_injectors e ixs' k)
  end.

(** "create injector threads": one thread per entry, running
    [Injector::listen] on it. *)
Fixpoint create_injector_threads (e : Env) (ixs : list Z) (k : M unit) : M unit :=
  match ixs with
  | [] => k
  | i :: ixs' =>
      unless_setup e stop_relaying
        (m <- get_mgr ;;
         c <- load (injectors m) i ;;
         p <- value c ;;
         inj <- deref "listen on a NULL injector" p ;;
         modify (set_injectorThreads (injectorThreads m ++ [inj_id inj])) ;;
         emit (EvThreadStart (OInjector (inj_id inj))) ;;
         create_injector_threads e ixs' k)
  end.

(** The tail of the function: "creating r/w relay threads for EP0". *)
Definition ep0_start_threads (e : Env) : M unit :=
  m <- get_mgr ;;
  r0 <- slot (readers (out_relays m)) 0 ;;
  match r0 with
  | Some r => start_reader_thread OUT 0 r
  | None => ret tt
  end ;;
  unless_setup e (modify (set_status USBM_SETUP_ABORT) ;; stop_relaying)
    (x0 <- slot (writers (out_relays m)) 0 ;;
     match x0 with
     | Some x => start_writer_thread OUT 0 x
     | None => ret tt
     end ;;
     unless_setup e stop_relaying (modify (set_status USBM_RELAYING))).

(** "connecting to host proxy", with the same loop as for the device
    proxy. *)
Definition ep0_connect_host (e : Env) (fuel : nat) : M unit :=
  rc <- connect e HostProxy ;;
  rc <- connect_loop e HostProxy fuel rc ;;
  if negb (rc =? 0)%Z then
    modify (set_status USBM_SETUP_ABORT) ;; stop_relaying
  else ep0_start_threads e.

(** "setup EP0 Reader & Writer" and the three loops over the filters and
    the injectors. *)
Definition ep0_create_relays (e : Env) (fuel : nat) : M unit :=
  m <- get_mgr ;;
  p <- slot (endpoints (out_relays m)) 0 ;;
  ep0 <- deref "relay constructed on a NULL endpoint" p ;;
  rid <- fresh ;;
  emit (EvNew (OReader rid)) ;;
  modify_relays OUT
    (set_reader 0 (Some {| rd_id := rid; rd_endpoint := ep0;
                           rd_proxy := HostProxy;
                           rd_channel := ControlPipes |})) ;;
  wid <- fresh ;;
  emit (EvNew (OWriter wid)) ;;
  modify_relays OUT
    (set_writer 0 (Some {| wr_id := wid; wr_endpoint := ep0;
                           wr_proxy := DeviceProxy; wr_manager := true;
                           wr_channel := ControlPipes; wr_filters := [] |})) ;;
  m <- get_mgr ;;
  ep0_apply_filters e (range 0 (filterCount m))
    (ep0_apply_injectors e (range 0 (injectorCount m))
       (if (injectorCount m =? 0)%Z then ep0_connect_host e fuel
        else create_injector_threads e (range 0 (injectorCount m))
               (ep0_connect_host e fuel))).

Definition claim_interfaces (cfg : Configuration) : M unit :=
  for_each (range 0 (bNumInterfaces cfg))
           (fun i => call DeviceProxy (EvClaimInterface i)).

Definition start_control_relaying (e : Env) (fuel : nat) : M unit :=
  modify (set_status USBM_SETUP) ;;
  rc <- connect e DeviceProxy ;;
  rc <- connect_loop e DeviceProxy fuel rc ;;
  if negb (rc =? 0)%Z then
    stderr "Unable to connect to device proxy." ;;
    modify (set_status USBM_IDLE)
  else
    modify (set_device (Some (enumerated e))) ;;
    d <- the_device ;;
    cfg <- deref "no active configuration" (get_active_configuration d) ;;
    claim_interfaces cfg ;;
    unless_setup e stop_relaying
      (emit (EvNew OEndpoint0) ;;
       modify_relays OUT
         (set_endpoint 0 (Some {| ep_descriptor := desc_ep0 d;
                                  ep_interface := None |})) ;;
       unless_setup e stop_relaying (ep0_create_relays e fuel)).

(** ** [Manager::start_data_relaying] *)

Definition dec (z : Z) : string := NilZero.string_of_int (Z.to_int z).

Definition is_isochronous (epd : usb_endpoint_descriptor) : bool :=
  (Z.land (bmAttributes epd) USB_ENDPOINT_XFERTYPE_MASK =? USB_ENDPOINT_XFER_ISOC)%Z.

(** The direction bit of an endpoint address and its table index. *)
Definition ep_dir (epd : usb_endpoint_descriptor) : dir :=
  if (Z.land (bEndpointAddress epd) 128 =? 0)%Z then OUT else IN.

Definition ep_slot (epd : usb_endpoint_descriptor) : nat :=
  Z.to_nat (Z.land (bEndpointAddress epd) 15).

(** The body of the innermost enumeration loop, for the endpoint [ep] of
    the alternate setting [aifc]. *)
Definition enumerate_endpoint (aifc : Interface) (ep : Endpoint) : M unit :=
  let epd := ep_descriptor ep in
  if is_isochronous epd then
    stderr ("Endpoint " ++ dec (bEndpointAddress epd)
            ++ " has transfer type isochronous, which is currently not supported.")
  else
    modify_relays (ep_dir epd) (set_endpoint (ep_slot epd) (Some ep)) ;;
    q <- fresh ;;
    emit (EvNew (OQueue q)) ;;
    modify_relays (ep_dir epd) (set_queue (ep_slot epd) (Ptr (Some q))) ;;
    call DeviceProxy
         (EvSetEndpointInterface (bEndpointAddress epd) (bInterfaceNumber aifc)).

Definition enumerate_alternate (cfg : Configuration) (ifc_idx aifc_idx : nat)
  : M unit :=
  aifc <- deref "no such alternate setting"
                (get_interface_alternate cfg ifc_idx aifc_idx) ;;
  for_each (seq 0 (get_endpoint_count aifc))
    (fun ep_idx =>
       ep <- deref "no such endpoint" (get_endpoint_by_idx aifc ep_idx) ;;
       enumerate_endpoint aifc ep).

Definition enumerate_interface (cfg : Configuration) (ifc_idx : nat) : M unit :=
  aifc_cnt <- deref "no such interface"
                    (get_interface_alternate_count cfg ifc_idx) ;;
  for_each (seq 0 aifc_cnt) (enumerate_alternate cfg ifc_idx).

Definition enumerate_endpoints (cfg : Configuration) : M unit :=
  for_each (seq 0 (Z.to_nat (bNumInterfaces cfg))) (enumerate_interface cfg).

(** Where a relay of direction [d] reads from and writes to. *)
Definition source (d : dir) : proxy :=
  match d with IN => DeviceProxy | OUT => HostProxy end.

Definition sink (d : dir) : proxy :=
  match d with IN => HostProxy | OUT => DeviceProxy end.

(** Entry [i] of "initializing 15 r/w relays", for one direction. *)
Definition create_relays (d : dir) (i : nat) : M unit :=
  m <- get_mgr ;;
  p <- slot (endpoints (relays d m)) i ;;
  match p with
  | Some ep =>
      c <- slot (queues (relays d m)) i ;;
      pq <- value c ;;
      q <- deref "dereference of a NULL PacketQueue" pq ;;
      rid <- fresh ;;
      emit (EvNew (OReader rid)) ;;
      modify_relays d
        (set_reader i (Some {| rd_id := rid; rd_endpoint := ep;
                               rd_proxy := source d;
                               rd_channel := SlotQueue q |})) ;;
      wid <- fresh ;;
      emit (EvNew (OWriter wid)) ;;
      modify_relays d
        (set_writer i (Some {| wr_id := wid; wr_endpoint := ep;
                               wr_proxy := sink d; wr_manager := false;
                               wr_channel := SlotQueue q; wr_filters := [] |}))
  | None => ret tt
  end.

(** Entry [j] of the inner loop of "apply filters to 15 relayers", for one
    direction. *)
Definition apply_filter (f : PacketFilter) (d : dir) (j : nat) : M unit :=
  m <- get_mgr ;;
  p <- slot (endpoints (relays d m)) j ;;
  match p with
  | Some ep =>
      if pf_endpoint f ep && pf_interface f (ep_interface ep)
      then add_filter_to_writer d j f
      else ret tt
  | None => ret tt
  end.

Definition apply_filters (d : Device) (cfg : Configuration) (i : Z) : M unit :=
  f <- filter_at i ;;
  if pf_device f d && pf_configuration f cfg then
    for_each (seq 1 15) (fun j => apply_filter f IN j ;; apply_filter f OUT j)
  else ret tt.

(** Entry [j] of the inner loop of "apply injectors to 15 relayers": the
    predicates are evaluated, the guarded blocks hold comments only. *)
Definition apply_injector (inj : Injector) (d : dir) (j : nat) : M unit :=
  m <- get_mgr ;;
  p <- slot (endpoints (relays d m)) j ;;
  match p with
  | Some ep =>
      if inj_endpoint inj ep && inj_interface inj (ep_interface ep)
      then ret tt
      else ret tt
  | None => ret tt
  end.

Definition apply_injectors (d : Device) (cfg : Configuration) (i : Z) : M unit :=
  inj <- injector_at i ;;
  if inj_device inj d && inj_configuration inj cfg then
    for_each (seq 1 15) (fun j => apply_injector inj IN j ;; apply_injector inj OUT j)
  else ret tt.

(** Entry [i] of "creating 15 r/w relay threads", for one direction. *)
Definition start_threads (d : dir) (i : nat) : M unit :=
  m <- get_mgr ;;
  p <- slot (readers (relays d m)) i ;;
  match p with
  | Some r => start_reader_thread d i r
  | None => ret tt
  end ;;
  p <- slot (writers (relays d m)) i ;;
  match p with
  | Some x => start_writer_thread d i x
  | None => ret tt
  end.

Definition start_data_relaying : M unit :=
  d <- the_device ;;
  cfg <- deref "no active configuration" (get_active_configuration d) ;;
  enumerate_endpoints cfg ;;
  for_each (seq 1 15) (fun i => create_relays IN i ;; create_relays OUT i) ;;
  m <- get_mgr ;;
  for_each (range 0 (filterCount m)) (apply_filters d cfg) ;;
  for_each (range 0 (injectorCount m)) (apply_injectors d cfg) ;;
  claim_interfaces cfg ;;
  for_each (seq 1 15) (fun i => start_threads IN i ;; start_threads OUT i).

(** ** [Manager::setConfig] *)

Definition setConfig (index : Z) : M unit :=
  d0 <- the_device ;;
  modify (set_device (Some (set_active_configuration index d0))) ;;
  emit (EvSetActiveConfiguration index) ;;
  d <- the_device ;;
  match get_device_qualifier d with
  | Some qualifier =>
      if is_highspeed d then
        call DeviceProxy
             (EvSetConfig DeviceProxy (dq_get_configuration qualifier index)
                          (get_configuration d index) true) ;;
        call HostProxy
             (EvSetConfig HostProxy (dq_get_configuration qualifier index)
                          (get_configuration d index) true)
      else
        call DeviceProxy
             (EvSetConfig DeviceProxy (get_configuration d index)
                          (dq_get_configuration qualifier index) false) ;;
        call HostProxy
             (EvSetConfig HostProxy (get_configuration d index)
                          (dq_get_configuration qualifier index) false)
  | None =>
      call DeviceProxy
           (EvSetConfig DeviceProxy (get_configuration d index) None
                        (is_highspeed d)) ;;
      call HostProxy
           (EvSetConfig HostProxy (get_configuration d index) None
                        (is_highspeed d))
  end ;;
  start_data_relaying.

(** ** [Manager::load_plugins]

    PluginManager.h and ConfigParser.h are not at hand; [bundle] is what
    [plugin_manager->load_plugins(cfg)] leaves in the plugin manager. *)
Record bundle : Type := {
  device_proxy : option proxy;
  host_proxy : option proxy;
  plugin_filters : list PacketFilter;
  plugin_injectors : list Injector
}.

Definition load_plugins (b : bundle) : M unit :=
  modify (set_proxies (device_proxy b) (host_proxy b)) ;;
  for_each (plugin_filters b) (fun f => add_filter (Some f)) ;;
  for_each (plugin_injectors b) (fun i => add_injector (Some i)).

(** ** Auxiliary definitions for the statements *)

(** The shape shared by [get_filter] and [get_injector]: the array pointer,
    the count and the index. *)
Definition get_at {A} (p : option (list (cell A))) (count index : Z)
  : M (option A) :=
  if is_null p || (count <=? index)%Z then ret None
  else c <- load p index ;; value c.

(** The world in which [setConfig] enters [start_data_relaying]: the device
    model [d'] in place, and the three calls made so far appended to the
    log. *)
Definition dispatched (index : Z) (d' : Device)
  (args : option Configuration * option Configuration * bool) (w : World)
  : World :=
  let '(cfg, other, hs) := args in
  {| mgr := set_device (Some d') (mgr w);
     log := log w ++ [EvSetActiveConfiguration index;
                      EvSetConfig DeviceProxy cfg other hs;
                      EvSetConfig HostProxy cfg other hs];
     reads := reads w; dev_connects := dev_connects w;
     host_connects := host_connects w; next_id := next_id w |}.

(** [n] rounds of the connect loop of a proxy: [n] calls, [n] reads of
    [status]. *)
Definition after_timeouts (p : proxy) (n : nat) (w : World) : World :=
  {| mgr := mgr w; log := log w ++ repeat (EvConnect p) n;
     reads := reads w + n;
     dev_connects := match p with DeviceProxy => dev_connects w + n
                                | HostProxy => dev_connects w end;
     host_connects := match p with DeviceProxy => host_connects w
                                 | HostProxy => host_connects w + n end;
     next_id := next_id w |}.

(** The world a computation ends in ([w] itself if it does not end). *)
Definition after (c : M unit) (w : World) : World :=
  match c w with
  | Done _ w' => w'
  | _ => w
  end.

(** The world with more calls in its log. *)
Definition add_log (evs : list event) (w : World) : World :=
  {| mgr := mgr w; log := log w ++ evs; reads := reads w;
     dev_connects := dev_connects w; host_connects := host_connects w;
     next_id := next_id w |}.

Definition with_mgr (m : Manager) (w : World) : World :=
  {| mgr := m; log := log w; reads := reads w;
     dev_connects := dev_connects w; host_connects := host_connects w;
     next_id := next_id w |}.

(** ** A session used for the closed examples

    One configuration with one interface carrying a bulk IN endpoint at
    0x81, a bulk OUT endpoint at 0x02 and an isochronous endpoint at 0x83;
    two filters and one injector that match everything; a device proxy
    that times out four times before it connects. *)

Definition bulk (addr : Z) : usb_endpoint_descriptor :=
  {| bLength := 7; bDescriptorType := USB_DT_ENDPOINT; bEndpointAddress := addr;
     bmAttributes := 2; wMaxPacketSize := 512; bInterval := 0 |}.

Definition isochronous (addr : Z) : usb_endpoint_descriptor :=
  {| bLength := 7; bDescriptorType := USB_DT_ENDPOINT; bEndpointAddress := addr;
     bmAttributes := 1; wMaxPacketSize := 1023; bInterval := 1 |}.

Definition demo_interface : Interface :=
  {| bInterfaceNumber := 0; bAlternateSetting := 0;
     ifc_endpoints := [bulk 129; bulk 2; isochronous 131] |}.

Definition demo_configuration : Configuration :=
  {| bNumInterfaces := 1; cfg_interfaces := [[demo_interface]] |}.

Definition demo_device : Device :=
  {| bMaxPacketSize0 := 64;
     get_configuration :=
       fun i => if (i =? 1)%Z then Some demo_configuration else None;
     active_configuration := 1;
     get_device_qualifier := None;
     is_highspeed := false |}.

Definition match_all_filter (id : nat) : PacketFilter :=
  {| pf_id := id; pf_device := fun _ => true; pf_configuration := fun _ => true;
     pf_interface := fun _ => true; pf_endpoint := fun _ => true |}.

Definition match_all_injector (id : nat) : Injector :=
  {| inj_id := id; inj_device := fun _ => true;
     inj_configuration := fun _ => true;
     inj_interface := fun _ => true; inj_endpoint := fun _ => true |}.

Definition demo_bundle : bundle :=
  {| device_proxy := Some DeviceProxy; host_proxy := Some HostProxy;
     plugin_filters := [match_all_filter 100; match_all_filter 101];
     plugin_injectors := [match_all_injector 200] |}.

Definition demo_env : Env :=
  {| device_connect := fun k => if (k <? 4)%nat then ETIMEDOUT else 0%Z;
     host_connect := fun _ => 0%Z;
     stop_requested := fun _ => false;
     enumerated := demo_device |}.

(** The session after [load_plugins], after [start_control_relaying], and
    after [setConfig(1)]. *)
Definition w_loaded : World := after (load_plugins demo_bundle) World_new.
Definition w_control : World := after (start_control_relaying demo_env 4) w_loaded.
Definition w_data : World := after (setConfig 1) w_control.

(** A device proxy that times out twice and then fails with ENODEV. *)
Definition refusing_env : Env :=
  {| device_connect := fun k => if (k <? 2)%nat then ETIMEDOUT else 19%Z;
     host_connect := fun _ => 0%Z;
     stop_requested := fun _ => false;
     enumerated := demo_device |}.

(** A device proxy that keeps timing out, while another thread calls
    [stop_relaying()] before the third read of [status]. *)
Definition stopped_env : Env :=
  {| device_connect := fun _ => ETIMEDOUT;
     host_connect := fun _ => 0%Z;
     stop_requested := fun k => (2 <=? k)%nat;
     enumerated := demo_device |}.

(** The EP0 endpoint of the demo session. *)
Definition demo_ep0 : Endpoint :=
  {| ep_descriptor := desc_ep0 demo_device; ep_interface := None |}.

(** The demo session at its stages of [stop_relaying]: stopped after
    [setConfig(1)]; and, for a session that is still in SETUP (the setup
    path has stored SETUP and waits in [connect()]), after one and after
    two calls. *)
Definition w_stopped : World := after stop_relaying w_data.
Definition w_setup : World := with_mgr (set_status USBM_SETUP (mgr w_loaded)) w_loaded.
Definition w_abort : World := after stop_relaying w_setup.
Definition w_abort_stopped : World := after stop_relaying w_abort.

(** The demo session after [start_data_relaying], entered directly from
    [w_control]; and the Endpoint objects of its two bulk endpoints. *)
Definition w_relays : World := after start_data_relaying w_control.

Definition demo_ep_in : Endpoint :=
  {| ep_descriptor := bulk 129; ep_interface := Some demo_interface |}.








(** The demo session in RELAYING after [remove_injector(0, false)]. *)
Definition w_unregistered : World := after (remove_injector 0 false) w_control.


(** ** Predicates on the Manager *)

(** The member arrays of one direction have their sixteen entries. *)
Definition shape (r : Relays) : Prop :=
  length (endpoints r) = 16 /\ length (readers r) = 16
  /\ length (writers r) = 16 /\ length (readerThreads r) = 16
  /\ length (writerThreads r) = 16 /\ length (queues r) = 16.

(** A joinable thread handle has its relay object. *)
Definition threads_owned (r : Relays) : Prop :=
  forall i,
    (readerThreads r !! i = Some true -> readers r !! i <> Some None)
    /\ (writerThreads r !! i = Some true -> writers r !! i <> Some None).

(** The first [count] entries of a registry array have been written. *)
Definition registry_ok {A} (p : option (list (cell A))) (count : Z) : Prop :=
  forall i, (0 <= i < count)%Z ->
    exists arr x, p = Some arr /\ arr !! Z.to_nat i = Some (Ptr x).

(** The first [count] entries of a registry array hold objects. *)
Definition registry_full {A} (p : option (list (cell A))) (count : Z) : Prop :=
  forall i, (0 <= i < count)%Z ->
    exists arr x, p = Some arr /\ arr !! Z.to_nat i = Some (Ptr (Some x)).

(** Every injector thread runs on an injector that is in the registry. *)
Definition threads_registered (m : Manager) : Prop :=
  forall t, In t (injectorThreads m) ->
    exists i arr inj,
      (0 <= i < injectorCount m)%Z /\ injectors m = Some arr
      /\ arr !! Z.to_nat i = Some (Ptr (Some inj)) /\ inj_id inj = t.

(** What the teardown path dereferences is there, and the injector on
    which a thread runs is still in the registry, where the teardown looks
    for the injectors it asks to stop. *)
Definition stoppable (m : Manager) : Prop :=
  shape (in_relays m) /\ shape (out_relays m)
  /\ threads_owned (in_relays m) /\ threads_owned (out_relays m)
  /\ registry_ok (injectors m) (injectorCount m)
  /\ (forall d, device m = Some d -> get_active_configuration d <> None)
  /\ deviceProxy m <> None /\ hostProxy m <> None
  /\ threads_registered m.

(** The calls of the teardown path: stop requests, joins, the [delete] of
    relay readers and writers, the release of the interfaces and the two
    disconnects. *)
Definition teardown_event (e : event) : bool :=
  match e with
  | EvPleaseStop _ | EvThreadJoin _ | EvReleaseInterface _ | EvDisconnect _
  | EvDelete (OReader _) | EvDelete (OWriter _) => true
  | _ => false
  end.

(** The relay threads that can be joined have been asked to stop. *)
Definition threads_asked (w : World) : Prop :=
  forall d i,
    (forall r, readerThreads (relays d (mgr w)) !! i = Some true ->
               readers (relays d (mgr w)) !! i = Some (Some r) ->
               asked_to_stop (OReader (rd_id r)) (log w) = true)
    /\ (forall x, writerThreads (relays d (mgr w)) !! i = Some true ->
                  writers (relays d (mgr w)) !! i = Some (Some x) ->
                  asked_to_stop (OWriter (wr_id x)) (log w) = true).

(** What the two loops that signal the threads add to the log, read off
    the Manager [m]: the stop request to the injector of entry [i], and
    the stop requests to the reader and the writer of entry [i] of the
    tables [r] whose threads can be joined. *)
Definition injector_stop (m : Manager) (i : Z) : list event :=
  match injectors m with
  | Some arr =>
      match arr !! Z.to_nat i with
      | Some (Ptr (Some inj)) => [EvPleaseStop (OInjector (inj_id inj))]
      | _ => []
      end
  | None => []
  end.

Definition relay_stops (r : Relays) (i : nat) : list event :=
  match readerThreads r !! i, readers r !! i with
  | Some true, Some (Some rd) => [EvPleaseStop (OReader (rd_id rd))]
  | _, _ => []
  end
  ++ match writerThreads r !! i, writers r !! i with
     | Some true, Some (Some wr) => [EvPleaseStop (OWriter (wr_id wr))]
     | _, _ => []
     end.

(** Entry [i] holds no endpoint, no reader, no writer and no running
    thread. *)
Definition slot_released (r : Relays) (i : nat) : Prop :=
  endpoints r !! i = Some None /\ readers r !! i = Some None
  /\ writers r !! i = Some None /\ readerThreads r !! i = Some false
  /\ writerThreads r !! i = Some false.

Definition is_queue_delete (e : event) : bool :=
  match e with
  | EvDelete (OQueue _) => true
  | _ => false
  end.

(** The [delete]s of PacketQueue objects in a log. *)
Definition queue_deletes (l : list event) : list event :=
  List.filter is_queue_delete l.

(** Entry [i] of one direction after [release_relays]. *)
Definition clear_slot (i : nat) (r : Relays) : Relays :=
  {| endpoints := <[i := None]> (endpoints r);
     readers := <[i := None]> (readers r);
     writers := <[i := None]> (writers r);
     readerThreads := <[i := false]> (readerThreads r);
     writerThreads := <[i := false]> (writerThreads r);
     queues := queues r |}.

(** What the teardown leaves of the Manager apart from the relay tables. *)
Definition same_plugins (m m' : Manager) : Prop :=
  deviceProxy m' = deviceProxy m /\ hostProxy m' = hostProxy m
  /\ filters m' = filters m /\ filterCount m' = filterCount m
  /\ injectors m' = injectors m /\ injectorCount m' = injectorCount m.

(** A computation that, on a Manager satisfying [P], returns, leaves the
    Manager alone and only adds calls other than the [delete] of a
    PacketQueue to the log. *)
Definition log_only (P : Manager -> Prop) (c : M unit) : Prop :=
  forall w, P (mgr w) ->
    exists evs, c w = Done tt (add_log evs w) /\ queue_deletes evs = [].

(** The tables of one direction while the release loop of
    [stop_relaying] runs: the entries below [k] are released, the queue
    array is the one of [r0]. *)
Definition released_upto (k : nat) (r0 r : Relays) : Prop :=
  shape r /\ threads_owned r /\ queues r = queues r0
  /\ forall i, i < k -> slot_released r i.

Definition release_inv (w0 : World) (k : nat) (w : World) : Prop :=
  status (mgr w) = status (mgr w0)
  /\ device (mgr w) = device (mgr w0)
  /\ injectorThreads (mgr w) = injectorThreads (mgr w0)
  /\ same_plugins (mgr w0) (mgr w)
  /\ queue_deletes (log w) = queue_deletes (log w0)
  /\ released_upto k (in_relays (mgr w0)) (in_relays (mgr w))
  /\ released_upto k (out_relays (mgr w0)) (out_relays (mgr w))
  /\ threads_asked w.

(** The state [stop_relaying] leaves when it has run the teardown from
    [w]: IDLE, no device model, no injector thread, every entry of the
    endpoint, reader, writer and thread arrays released; the plugins and
    the queue arrays as they were, and no PacketQueue deleted. *)
Definition torn_down (w w' : World) : Prop :=
  status (mgr w') = USBM_IDLE
  /\ device (mgr w') = None
  /\ injectorThreads (mgr w') = []
  /\ same_plugins (mgr w) (mgr w')
  /\ queue_deletes (log w') = queue_deletes (log w)
  /\ forall d,
       shape (relays d (mgr w'))
       /\ queues (relays d (mgr w')) = queues (relays d (mgr w))
       /\ forall i, i < 16 -> slot_released (relays d (mgr w')) i.

(** The state a computation ends in, if it ends. *)
Definition final_status {A} (o : outcome A) : option Manager_status :=
  match o with
  | Done _ w => Some (status (mgr w))
  | _ => None
  end.

(** ** Predicates for [start_data_relaying] *)

(** [ep] is an endpoint of the alternate setting [aifc] of one of the
    interfaces the enumeration loop of [start_data_relaying] visits. *)
Definition cfg_has (cfg : Configuration) (aifc : Interface) (ep : Endpoint) : Prop :=
  exists ifc_idx aifc_idx ep_idx,
    ifc_idx < Z.to_nat (bNumInterfaces cfg)
    /\ get_interface_alternate cfg ifc_idx aifc_idx = Some aifc
    /\ get_endpoint_by_idx aifc ep_idx = Some ep.

(** The descriptor does not announce more interfaces than were parsed. *)
Definition cfg_valid (cfg : Configuration) : Prop :=
  Z.to_nat (bNumInterfaces cfg) <= length (cfg_interfaces cfg).

(** The fields of the Manager other than the relay tables agree. *)
Definition same_rest (m0 m : Manager) : Prop :=
  status m = status m0 /\ deviceProxy m = deviceProxy m0
  /\ hostProxy m = hostProxy m0 /\ device m = device m0
  /\ filters m = filters m0 /\ filterCount m = filterCount m0
  /\ injectors m = injectors m0 /\ injectorCount m = injectorCount m0
  /\ injectorThreads m = injectorThreads m0.

(** The log has only grown. *)
Definition log_grows (w0 w : World) : Prop :=
  exists evs, log w = log w0 ++ evs.

(** Entry [j] has no relay and no running thread, and if it has an
    endpoint it has a queue. *)
Definition slot_idle (r : Relays) (j : nat) : Prop :=
  readers r !! j = Some None /\ writers r !! j = Some None
  /\ readerThreads r !! j = Some false /\ writerThreads r !! j = Some false
  /\ exists p, endpoints r !! j = Some p
               /\ (p <> None -> exists q, queues r !! j = Some (Ptr (Some q))).

(** Entry [j] of direction [d]: with an endpoint there are a reader and a
    writer on that endpoint which share the queue of the entry, read from
    the source proxy of [d] and write to its sink; without an endpoint
    there is neither. *)
Definition slot_paired (d : dir) (r : Relays) (j : nat) : Prop :=
  exists p, endpoints r !! j = Some p
    /\ match p with
       | Some ep =>
           exists rd wr q,
             readers r !! j = Some (Some rd)
             /\ writers r !! j = Some (Some wr)
             /\ queues r !! j = Some (Ptr (Some q))
             /\ rd_endpoint rd = ep /\ wr_endpoint wr = ep
             /\ rd_channel rd = SlotQueue q /\ wr_channel wr = SlotQueue q
             /\ rd_proxy rd = source d /\ wr_proxy wr = sink d
       | None => readers r !! j = Some None /\ writers r !! j = Some None
       end.

(** The two thread handles of entry [j]: joinable exactly when [run] and
    the entry has an endpoint. *)
Definition slot_threads (run : bool) (r : Relays) (j : nat) : Prop :=
  exists p, endpoints r !! j = Some p
    /\ readerThreads r !! j = Some (run && negb (is_null p))
    /\ writerThreads r !! j = Some (run && negb (is_null p)).

(** What [start_data_relaying] needs in order to return: a device model
    with a valid active configuration, the device proxy, full registries,
    and data entries 1..15 that are released. *)
Definition data_ready (cfg : Configuration) (m : Manager) : Prop :=
  (exists d, device m = Some d /\ get_active_configuration d = Some cfg)
  /\ cfg_valid cfg
  /\ deviceProxy m <> None
  /\ registry_full (filters m) (filterCount m)
  /\ registry_full (injectors m) (injectorCount m)
  /\ (forall d, shape (relays d m))
  /\ (forall d j, 1 <= j < 16 -> slot_released (relays d m) j).

(** The worlds the steps of [start_data_relaying] lead to. *)

Definition installed (aifc : Interface) (ep : Endpoint) (w : World) : World :=
  let epd := ep_descriptor ep in
  {| mgr := set_relays (ep_dir epd)
              (set_queue (ep_slot epd) (Ptr (Some (next_id w)))
                 (set_endpoint (ep_slot epd) (Some ep)
                    (relays (ep_dir epd) (mgr w))))
              (mgr w);
     log := log w ++ [EvNew (OQueue (next_id w));
                      EvSetEndpointInterface (bEndpointAddress epd)
                                             (bInterfaceNumber aifc)];
     reads := reads w; dev_connects := dev_connects w;
     host_connects := host_connects w; next_id := S (next_id w) |}.

Definition new_reader (d : dir) (ep : Endpoint) (q id : nat) : RelayReader :=
  {| rd_id := id; rd_endpoint := ep; rd_proxy := source d;
     rd_channel := SlotQueue q |}.

Definition new_writer (d : dir) (ep : Endpoint) (q id : nat) : RelayWriter :=
  {| wr_id := id; wr_endpoint := ep; wr_proxy := sink d; wr_manager := false;
     wr_channel := SlotQueue q; wr_filters := [] |}.

Definition created (d : dir) (i : nat) (ep : Endpoint) (q : nat) (w : World)
  : World :=
  {| mgr := set_relays d
              (set_writer i (Some (new_writer d ep q (S (next_id w))))
                 (set_reader i (Some (new_reader d ep q (next_id w)))
                    (relays d (mgr w))))
              (mgr w);
     log := log w ++ [EvNew (OReader (next_id w)); EvNew (OWriter (S (next_id w)))];
     reads := reads w; dev_connects := dev_connects w;
     host_connects := host_connects w; next_id := S (S (next_id w)) |}.

Definition filtered (d : dir) (j : nat) (f : PacketFilter) (x : RelayWriter)
  (w : World) : World :=
  {| mgr := set_relays d
              (set_writer j (Some (writer_add_filter f x)) (relays d (mgr w)))
              (mgr w);
     log := log w ++ [EvAddFilter (wr_id x) (pf_id f)];
     reads := reads w; dev_connects := dev_connects w;
     host_connects := host_connects w; next_id := next_id w |}.

Definition started (d : dir) (i : nat) (r : RelayReader) (x : RelayWriter)
  (w : World) : World :=
  {| mgr := set_relays d
              (set_writerThread i true
                 (set_readerThread i true (relays d (mgr w))))
              (mgr w);
     log := log w ++ [EvThreadStart (OReader (rd_id r));
                      EvThreadStart (OWriter (wr_id x))];
     reads := reads w; dev_connects := dev_connects w;
     host_connects := host_connects w; next_id := next_id w |}.

(** A computation that, from a world satisfying [P], returns in a world
    satisfying [Q]. *)
Definition total (P : World -> Prop) (c : M unit) (Q : World -> Prop) : Prop :=
  forall w, P w -> exists w', c w = Done tt w' /\ Q w'.

(** ** Invariants of the loops of [start_data_relaying] *)

(** Relative to the world [w1] in which a loop was entered: the fields
    other than the relay tables, the endpoint arrays and the queue arrays
    are the same, the arrays keep their size, the log has grown. *)
Definition tables_kept (w1 w : World) : Prop :=
  same_rest (mgr w1) (mgr w) /\ log_grows w1 w
  /\ (forall d, shape (relays d (mgr w)))
  /\ (forall d, endpoints (relays d (mgr w)) = endpoints (relays d (mgr w1))
                /\ queues (relays d (mgr w)) = queues (relays d (mgr w1))).

(** The enumeration loop: the data entries are idle. *)
Definition enum_inv (w0 w : World) : Prop :=
  same_rest (mgr w0) (mgr w) /\ log_grows w0 w
  /\ (forall d, shape (relays d (mgr w)))
  /\ (forall d j, 1 <= j < 16 -> slot_idle (relays d (mgr w)) j).

(** The six entries [j] of two versions of the tables of one direction
    agree. *)
Definition same_at (r r' : Relays) (j : nat) : Prop :=
  endpoints r' !! j = endpoints r !! j
  /\ readers r' !! j = readers r !! j
  /\ writers r' !! j = writers r !! j
  /\ readerThreads r' !! j = readerThreads r !! j
  /\ writerThreads r' !! j = writerThreads r !! j
  /\ queues r' !! j = queues r !! j.

(** A data entry after "initializing 15 r/w relays", and after "creating
    15 r/w relay threads". *)
Definition slot_created (d : dir) (r : Relays) (j : nat) : Prop :=
  slot_paired d r j /\ slot_threads false r j.

Definition slot_running (d : dir) (r : Relays) (j : nat) : Prop :=
  slot_paired d r j /\ slot_threads true r j.

(** [step d i] takes entry [i] of direction [d] from [Pre] to [Post],
    keeps [K] and leaves the other entries alone. *)
Definition slot_step (K : World -> Prop) (Pre Post : dir -> Relays -> nat -> Prop)
  (step : dir -> nat -> M unit) : Prop :=
  forall d i w,
    1 <= i < 16 -> K w -> Pre d (relays d (mgr w)) i ->
    exists w',
      step d i w = Done tt w' /\ K w' /\ Post d (relays d (mgr w')) i
      /\ forall d' j, d' <> d \/ j <> i ->
           same_at (relays d' (mgr w)) (relays d' (mgr w')) j.

(** A predicate on entries that only looks at the entry. *)
Definition local (P : dir -> Relays -> nat -> Prop) : Prop :=
  forall d r r' j, same_at r r' j -> P d r j -> P d r' j.








(** The filter and injector loops of [start_data_relaying]: the tables
    are those of [w1], every data entry is created, and the two entries 0
    are those of [w1]. *)
Definition created_inv (w1 w : World) : Prop :=
  tables_kept w1 w
  /\ (forall d j, 1 <= j < 16 -> slot_created d (relays d (mgr w)) j)
  /\ forall d, same_at (relays d (mgr w1)) (relays d (mgr w)) 0.

(** ** [Manager::cleanup] *)





(** ** The registries as lists *)

(** The array of a registry that holds the pointers [l]: NULL when there is
    none. *)
Definition cells {A} (l : list (option A)) : option (list (cell A)) :=
  match l with [] => None | _ => Some (map Ptr l) end.

(** The registry [p] / [count] holds the pointers [l], in order, and the
    8-bit count is the number of entries. *)
Definition holds {A} (p : option (list (cell A))) (count : Z)
  (l : list (option A)) : Prop :=
  count = Z.of_nat (length l) /\ length l <= 255 /\ p = cells l.

Definition filters_are (l : list (option PacketFilter)) (m : Manager) : Prop :=
  holds (filters m) (filterCount m) l.

Definition injectors_are (l : list (option Injector)) (m : Manager) : Prop :=
  holds (injectors m) (injectorCount m) l.

(** What the state test of a registry operation prints. *)
Definition refusal (refused : bool) (msg : string) : list event :=
  if refused then [EvStderr msg] else [].

(** The [delete] of the object a registry entry points to. *)
Definition delete_filter (p : option PacketFilter) : list event :=
  match p with
  | Some f => [EvDelete (OFilter (pf_id f))]
  | None => []
  end.

Definition delete_injector (p : option Injector) : list event :=
  match p with
  | Some i => [EvDelete (OInjector (inj_id i))]
  | None => []
  end.




(** [n] refused operations in a row. *)
Definition refusals (refused : bool) (msg : string) (n : nat) : list event :=
  if refused then repeat (EvStderr msg) n else [].

(** ** What a computation adds to the log, and what it leaves alone *)

(** Whenever [c] returns, the calls it has added to the log all satisfy
    [ok]. *)
Definition emits (ok : event -> bool) {A} (c : M A) : Prop :=
  forall w a w', c w = Done a w' ->
    exists evs, log w' = log w ++ evs /\ forallb ok evs = true.

(** Whenever [c] returns, the part [g] of the Manager is what it was. *)
Definition fixes {B} (g : Manager -> B) {A} (c : M A) : Prop :=
  forall w a w', c w = Done a w' -> g (mgr w') = g (mgr w).

(** Partial correctness: whenever [c] returns from a world in [P], the
    result and the world satisfy [Q]. *)
Definition partial {A} (P : World -> Prop) (c : M A) (Q : A -> World -> Prop)
  : Prop :=
  forall w a w', P w -> c w = Done a w' -> Q a w'.

(** * Properties *)

(** ** Tactics for the monad *)

Ltac unfold_m :=
  cbv beta delta [bind ret get_mgr modify emit fresh stderr when deref
                  undefined out_of_fuel value slot load store call
                  modify_relays] iota.

Lemma bind_done {A B} (c : M A) (k : A -> M B) w a w' :
  c w = Done a w' -> bind c k w = k a w'.
Proof. intros H. unfold bind. now rewrite H. Qed.

(** ** The registry getters *)

Section Getters.
Context {A : Type}.

Lemma get_at_null (p : option (list (cell A))) count index w :
  p = None \/ (count <= index)%Z -> get_at p count index w = Done None w.
Proof.
  intros [-> | H]; unfold get_at; simpl; [reflexivity|].
  apply Z.leb_le in H. rewrite H, orb_true_r. reflexivity.
Qed.

Lemma get_at_stored (arr : list (cell A)) count index x w :
  (0 <= index < count)%Z ->
  arr !! Z.to_nat index = Some (Ptr x) ->
  get_at (Some arr) count index w = Done x w.
Proof.
  intros [H0 H1] Hx. unfold get_at. simpl.
  apply Z.leb_gt in H1. rewrite H1.
  unfold_m. apply Z.ltb_ge in H0. rewrite H0, Hx. reflexivity.
Qed.

Lemma get_at_pure (p : option (list (cell A))) count index w a w' :
  get_at p count index w = Done a w' -> w' = w.
Proof.
  unfold get_at. destruct (is_null p || (count <=? index)%Z).
  - unfold ret. now inversion 1.
  - unfold_m. destruct p as [arr|]; try discriminate.
    destruct (index <? 0)%Z; try discriminate.
    destruct (arr !! Z.to_nat index) as [[|x]|]; try discriminate.
    now inversion 1.
Qed.

End Getters.

Lemma get_filter_unfold index w :
  get_filter index w = get_at (filters (mgr w)) (filterCount (mgr w)) index w.
Proof. reflexivity. Qed.

Lemma get_injector_unfold index w :
  get_injector index w
  = get_at (injectors (mgr w)) (injectorCount (mgr w)) index w.
Proof. reflexivity. Qed.

(** C10. [get_filter] and [get_injector] return NULL when the array
    pointer is NULL or the index is at or past the count; otherwise they
    return the pointer stored at that index; whenever they return, the
    Manager and everything around it is as it was before the call. *)
Theorem get_filter_get_injector_lookup (w : World) (index : Z) :
  ((filters (mgr w) = None \/ (filterCount (mgr w) <= index)%Z) ->
   get_filter index w = Done None w)
  /\ (forall arr f,
        filters (mgr w) = Some arr ->
        (0 <= index < filterCount (mgr w))%Z ->
        arr !! Z.to_nat index = Some (Ptr f) ->
        get_filter index w = Done f w)
  /\ (forall f w', get_filter index w = Done f w' -> w' = w)
  /\ ((injectors (mgr w) = None \/ (injectorCount (mgr w) <= index)%Z) ->
      get_injector index w = Done None w)
  /\ (forall arr i,
        injectors (mgr w) = Some arr ->
        (0 <= index < injectorCount (mgr w))%Z ->
        arr !! Z.to_nat index = Some (Ptr i) ->
        get_injector index w = Done i w)
  /\ (forall i w', get_injector index w = Done i w' -> w' = w).
Proof.
  rewrite get_filter_unfold, get_injector_unfold.
  repeat split.
  - apply get_at_null.
  - intros arr f -> Hi Hf. now apply get_at_stored.
  - intros f w'. apply get_at_pure.
  - apply get_at_null.
  - intros arr i -> Hi Hf. now apply get_at_stored.
  - intros i w'. apply get_at_pure.
Qed.

(** The two lookups in the loaded session: index 1 is the second filter,
    index 2 is past the end; index 0 is the injector. *)
Lemma get_filter_get_injector_lookup_witness :
  get_filter 1 w_loaded = Done (Some (match_all_filter 101)) w_loaded
  /\ get_filter 2 w_loaded = Done None w_loaded
  /\ get_injector 0 w_loaded = Done (Some (match_all_injector 200)) w_loaded
  /\ get_injector 1 w_loaded = Done None w_loaded.
Proof.
  split; [|split; [|split]].
  - destruct (get_filter_get_injector_lookup w_loaded 1) as (_ & H & _).
    eapply H; [vm_compute; reflexivity | vm_compute; split; congruence
              | vm_compute; reflexivity].
  - destruct (get_filter_get_injector_lookup w_loaded 2) as (H & _).
    apply H. right. vm_compute. congruence.
  - destruct (get_filter_get_injector_lookup w_loaded 0) as (_ & _ & _ & _ & H & _).
    eapply H; [vm_compute; reflexivity | vm_compute; split; congruence
              | vm_compute; reflexivity].
  - destruct (get_filter_get_injector_lookup w_loaded 1) as (_ & _ & _ & H & _).
    apply H. right. vm_compute. congruence.
Defined.

(** ** State gating of the registries *)

(** C1 (the code departs from the claim). In the demo session the Manager
    is RELAYING with two filters and one injector. Each of the four
    registry operations prints its refusal and then goes on: the counts
    and the arrays change. *)
Theorem registry_changes_while_relaying :
  status (mgr w_control) = USBM_RELAYING
  /\ filterCount (mgr w_control) = 2%Z
  /\ injectorCount (mgr w_control) = 1%Z
  /\ (exists w',
        add_filter (Some (match_all_filter 102)) w_control = Done tt w'
        /\ filterCount (mgr w') = 3%Z
        /\ filters (mgr w') = Some [Ptr (Some (match_all_filter 100));
                                    Ptr (Some (match_all_filter 101));
                                    Ptr (Some (match_all_filter 102))]
        /\ log w' = log w_control
                    ++ [EvStderr "Can't add filters unless manager is idle or reset."])
  /\ (exists w',
        remove_filter 0 false w_control = Done tt w'
        /\ filterCount (mgr w') = 1%Z
        /\ filters (mgr w') = Some [Ptr (Some (match_all_filter 101))]
        /\ log w' = log w_control
                    ++ [EvStderr "Can't remove filters unless manager is idle or reset."])
  /\ (exists w',
        add_injector (Some (match_all_injector 201)) w_control = Done tt w'
        /\ injectorCount (mgr w') = 2%Z
        /\ injectors (mgr w') = Some [Ptr (Some (match_all_injector 200));
                                      Ptr (Some (match_all_injector 201))]
        /\ log w' = log w_control
                    ++ [EvStderr "Can't add injectors unless manager is idle."])
  /\ (exists w',
        remove_injector 0 false w_control = Done tt w'
        /\ injectorCount (mgr w') = 0%Z
        /\ injectors (mgr w') = None
        /\ log w' = log w_control
                    ++ [EvStderr "Can't remove injectors unless manager is idle or reset."]).
Proof.
  split; [reflexivity|]. split; [reflexivity|]. split; [reflexivity|].
  repeat split; eexists; (split; [vm_compute; reflexivity|]);
    repeat split; reflexivity.
Qed.

(** C2 (the code departs from the claim). In the loaded session (IDLE, two
    filters, one injector) a removal at an index past the end prints
    "index out of bounds" and then goes on: [remove_filter(2)] drops the
    last filter, [remove_injector(5)] frees the injector array. On the
    freshly constructed Manager, [remove_filter(0, false)] leaves an array
    of 255 indeterminate entries and a count of 255, and
    [remove_filter(0, true)] reads through the NULL array pointer. *)
Theorem remove_out_of_range_goes_on :
  status (mgr w_loaded) = USBM_IDLE
  /\ filters (mgr w_loaded) = Some [Ptr (Some (match_all_filter 100));
                                    Ptr (Some (match_all_filter 101))]
  /\ filterCount (mgr w_loaded) = 2%Z
  /\ injectorCount (mgr w_loaded) = 1%Z
  /\ (exists w',
        remove_filter 2 false w_loaded = Done tt w'
        /\ filterCount (mgr w') = 1%Z
        /\ filters (mgr w') = Some [Ptr (Some (match_all_filter 100))]
        /\ log w' = log w_loaded ++ [EvStderr "Filter index out of bounds."])
  /\ (exists w',
        remove_injector 5 false w_loaded = Done tt w'
        /\ injectorCount (mgr w') = 0%Z
        /\ injectors (mgr w') = None
        /\ log w' = log w_loaded ++ [EvStderr "Injector index out of bounds."])
  /\ (exists w',
        remove_filter 0 false World_new = Done tt w'
        /\ filterCount (mgr w') = 255%Z
        /\ filters (mgr w') = Some (replicate 255 Indet)
        /\ log w' = [EvStderr "Filter index out of bounds."])
  /\ remove_filter 0 true World_new = Undefined "subscript on a NULL array".
Proof.
  split; [reflexivity|]. split; [reflexivity|]. split; [reflexivity|].
  split; [reflexivity|].
  repeat split; try (eexists; (split; [vm_compute; reflexivity|]);
    repeat split; reflexivity).
Qed.

(** ** [setConfig] *)

Lemma call_ok p ev w :
  proxy_ptr p (mgr w) <> None ->
  call p ev w = emit ev w.
Proof.
  intros H. unfold call. unfold_m.
  destruct (proxy_ptr p (mgr w)); [reflexivity | contradiction].
Qed.

Lemma setConfig_unfold (w : World) (d : Device) (index : Z) cfg other hs :
  device (mgr w) = Some d ->
  deviceProxy (mgr w) <> None ->
  hostProxy (mgr w) <> None ->
  (match get_device_qualifier d with
   | Some q =>
       if is_highspeed d
       then (dq_get_configuration q index, get_configuration d index, true)
       else (get_configuration d index, dq_get_configuration q index, false)
   | None => (get_configuration d index, None, is_highspeed d)
   end) = (cfg, other, hs) ->
  setConfig index w
  = start_data_relaying
      (dispatched index (set_active_configuration index d) (cfg, other, hs) w).
Proof.
  intros Hd Hdp Hhp Hargs.
  unfold setConfig, the_device, call. unfold_m. rewrite Hd. simpl.
  destruct (deviceProxy (mgr w)) as [dp|] eqn:Edp; [|contradiction].
  destruct (hostProxy (mgr w)) as [hp|] eqn:Ehp; [|contradiction].
  unfold dispatched.
  destruct (get_device_qualifier d) as [q|]; [destruct (is_highspeed d)|];
    inversion Hargs; subst; cbn; rewrite ?Edp; cbn; rewrite ?Ehp; cbn;
    rewrite <- ?app_assoc; reflexivity.
Qed.

(** C3. [setConfig(index)] first makes [index] the active configuration
    of the device model, then calls [setConfig] on the device proxy and on
    the host proxy with the same arguments, and then enters
    [start_data_relaying]. With a DeviceQualifier on a high-speed device the
    arguments are the qualifier's configuration, the device's
    configuration and true; with a DeviceQualifier otherwise the device's
    configuration, the qualifier's configuration and false; without a
    DeviceQualifier the device's configuration, NULL and
    [is_highspeed()]. *)
Theorem setConfig_dispatch (w : World) (d : Device) (index : Z) :
  device (mgr w) = Some d ->
  deviceProxy (mgr w) <> None ->
  hostProxy (mgr w) <> None ->
  let d' := set_active_configuration index d in
  active_configuration d' = index
  /\ (forall q,
        get_device_qualifier d = Some q -> is_highspeed d = true ->
        setConfig index w
        = start_data_relaying
            (dispatched index d'
               (dq_get_configuration q index, get_configuration d index, true) w))
  /\ (forall q,
        get_device_qualifier d = Some q -> is_highspeed d = false ->
        setConfig index w
        = start_data_relaying
            (dispatched index d'
               (get_configuration d index, dq_get_configuration q index, false) w))
  /\ (get_device_qualifier d = None ->
      setConfig index w
      = start_data_relaying
          (dispatched index d'
             (get_configuration d index, None, is_highspeed d) w)).
Proof.
  intros Hd Hdp Hhp d'. split; [reflexivity|].
  split; [|split].
  - intros q Hq Hs. apply setConfig_unfold; auto. now rewrite Hq, Hs.
  - intros q Hq Hs. apply setConfig_unfold; auto. now rewrite Hq, Hs.
  - intros Hq. apply setConfig_unfold; auto. now rewrite Hq.
Qed.

(** In the demo session (no DeviceQualifier, full speed) [setConfig(1)]
    passes configuration 1, NULL and false. *)
Lemma setConfig_dispatch_witness :
  setConfig 1 w_control
  = start_data_relaying
      (dispatched 1 (set_active_configuration 1 demo_device)
         (Some demo_configuration, None, false) w_control).
Proof.
  destruct (setConfig_dispatch w_control demo_device 1) as (_ & _ & _ & H).
  - reflexivity.
  - vm_compute. congruence.
  - vm_compute. congruence.
  - apply H. reflexivity.
Defined.

(** ** The connect loop of the device proxy *)

Lemma World_eq m l r dc hc nx m' l' r' dc' hc' nx' :
  m = m' -> l = l' -> r = r' -> dc = dc' -> hc = hc' -> nx = nx' ->
  {| mgr := m; log := l; reads := r; dev_connects := dc;
     host_connects := hc; next_id := nx |}
  = {| mgr := m'; log := l'; reads := r'; dev_connects := dc';
       host_connects := hc'; next_id := nx' |}.
Proof. now intros -> -> -> -> -> ->. Qed.

Lemma after_timeouts_0 p w : after_timeouts p 0 w = w.
Proof.
  destruct w; unfold after_timeouts; simpl.
  apply World_eq; auto using app_nil_r; destruct p; lia.
Qed.

(** One round: the call times out, [status] is read and is still SETUP,
    the call is made again. *)
Lemma device_connect_round {B} (e : Env) (fuel : nat) (K : Z -> M B) w :
  status (mgr w) = USBM_SETUP ->
  deviceProxy (mgr w) <> None ->
  device_connect e (dev_connects w) = ETIMEDOUT ->
  stop_requested e (reads w) = false ->
  (rc <- connect e DeviceProxy ;;
   rc' <- connect_loop e DeviceProxy (S fuel) rc ;; K rc') w
  = (rc <- connect e DeviceProxy ;;
     rc' <- connect_loop e DeviceProxy fuel rc ;; K rc')
      (after_timeouts DeviceProxy 1 w).
Proof.
  intros Hs Hp Hrc Hstop.
  unfold connect at 1. unfold bind at 1 2 3.
  rewrite (call_ok DeviceProxy _ w Hp). cbn.
  rewrite Hrc. cbn. unfold bind at 1 2. unfold read_status. cbn.
  rewrite Hstop. cbn. rewrite Hs. cbn.
  unfold after_timeouts. cbn.
  replace (reads w + 1) with (S (reads w)) by lia.
  replace (dev_connects w + 1) with (S (dev_connects w)) by lia.
  unfold bind.
  destruct (connect e DeviceProxy _); reflexivity.
Qed.

Lemma device_connect_rounds {B} (e : Env) (K : Z -> M B) (n : nat) :
  forall (fuel : nat) (w : World),
    n <= fuel ->
    status (mgr w) = USBM_SETUP ->
    deviceProxy (mgr w) <> None ->
    (forall k, k < n ->
       device_connect e (dev_connects w + k) = ETIMEDOUT
       /\ stop_requested e (reads w + k) = false) ->
    (rc <- connect e DeviceProxy ;;
     rc' <- connect_loop e DeviceProxy fuel rc ;; K rc') w
    = (rc <- connect e DeviceProxy ;;
       rc' <- connect_loop e DeviceProxy (fuel - n) rc ;; K rc')
        (after_timeouts DeviceProxy n w).
Proof.
  induction n as [|n IH]; intros fuel w Hfuel Hs Hp Ht.
  - rewrite after_timeouts_0, Nat.sub_0_r. reflexivity.
  - destruct fuel as [|fuel]; [lia|].
    destruct (Ht 0 ltac:(lia)) as [Hrc Hstop].
    rewrite Nat.add_0_r in Hrc, Hstop.
    rewrite device_connect_round by assumption.
    rewrite IH; cbn; try assumption; try lia.
    + f_equal. unfold after_timeouts. cbn.
      apply World_eq; try reflexivity; try lia.
      rewrite <- app_assoc. reflexivity.
    + intros k Hk. destruct (Ht (S k) ltac:(lia)) as [H1 H2].
      replace (dev_connects w + 1 + k) with (dev_connects w + S k) by lia.
      replace (reads w + 1 + k) with (reads w + S k) by lia.
      now split.
Qed.

Lemma log_rounds {A} (l : list A) (n : nat) (x y : A) :
  ((l ++ repeat x n) ++ [x]) ++ [y] = l ++ repeat x (S n) ++ [y].
Proof.
  rewrite <- !app_assoc. f_equal.
  change (repeat x (S n)) with (x :: repeat x n).
  rewrite repeat_cons, <- app_assoc. reflexivity.
Qed.

(** C4. [start_control_relaying] calls [DeviceProxy.connect()] again
    after each result ETIMEDOUT for which [status] is still SETUP: after
    [n] such rounds the call has been made [n + 1] times. When the last
    result is non-zero and either is not ETIMEDOUT or comes with [status]
    moved away from SETUP, no further call is made, the failure is
    reported, and the function returns with [status] IDLE and the rest of
    the Manager as it was: no relay was created and RELAYING was never
    stored. *)
Theorem device_connect_retry_then_abort
  (e : Env) (w : World) (n fuel : nat) (rc : Z) :
  deviceProxy (mgr w) <> None ->
  (forall k, k < n ->
     device_connect e (dev_connects w + k) = ETIMEDOUT
     /\ stop_requested e (reads w + k) = false) ->
  device_connect e (dev_connects w + n) = rc ->
  rc <> 0%Z ->
  (rc = ETIMEDOUT -> stop_requested e (reads w + n) = true) ->
  n <= fuel ->
  start_control_relaying e fuel w
  = Done tt
      {| mgr := set_status USBM_IDLE (mgr w);
         log := log w ++ repeat (EvConnect DeviceProxy) (S n)
                ++ [EvStderr "Unable to connect to device proxy."];
         reads := reads w + n + (if (rc =? ETIMEDOUT)%Z then 1 else 0);
         dev_connects := dev_connects w + S n;
         host_connects := host_connects w;
         next_id := next_id w |}.
Proof.
  intros Hp Ht Hrc Hnz Hstop Hfuel.
  unfold start_control_relaying.
  unfold bind at 1. cbn -[connect connect_loop bind].
  rewrite (device_connect_rounds e _ n fuel); cbn; try assumption; try reflexivity.
  unfold connect at 1. unfold bind at 1 2.
  rewrite call_ok by (cbn; assumption). cbn.
  rewrite Hrc.
  destruct (Z.eqb_spec rc ETIMEDOUT) as [Heq|Hne].
  - destruct (fuel - n); cbn; rewrite Heq; cbn;
      unfold bind at 1 2; unfold read_status; cbn;
      rewrite (Hstop Heq); cbn; unfold_m; cbn;
      (f_equal; apply World_eq; try reflexivity; try lia;
       apply log_rounds).
  - apply Z.eqb_neq in Hne.
    destruct (fuel - n); cbn; rewrite Hne; cbn;
      (destruct (Z.eqb_spec rc 0) as [|_]; [contradiction|]); unfold_m; cbn;
      (f_equal; apply World_eq; try reflexivity; try lia;
       apply log_rounds).
Qed.

(** Two rounds of time-outs, then ENODEV; and time-outs until the other
    thread asks to stop. In both sessions the Manager ends IDLE after
    three calls. *)
Lemma device_connect_retry_then_abort_witness :
  (exists w', start_control_relaying refusing_env 2 w_loaded = Done tt w'
              /\ status (mgr w') = USBM_IDLE /\ dev_connects w' = 3)
  /\ (exists w', start_control_relaying stopped_env 2 w_loaded = Done tt w'
                 /\ status (mgr w') = USBM_IDLE /\ dev_connects w' = 3).
Proof.
  split.
  - eexists. split.
    { apply (device_connect_retry_then_abort refusing_env w_loaded 2 2 19).
      - vm_compute. congruence.
      - intros k Hk. destruct k as [|[|k]]; [split; reflexivity ..|lia].
      - reflexivity.
      - lia.
      - vm_compute. congruence.
      - lia. }
    split; reflexivity.
  - eexists. split.
    { apply (device_connect_retry_then_abort stopped_env w_loaded 2 2 ETIMEDOUT).
      - vm_compute. congruence.
      - intros k Hk. destruct k as [|[|k]]; [split; reflexivity ..|lia].
      - reflexivity.
      - vm_compute. congruence.
      - reflexivity.
      - lia. }
    split; reflexivity.
Defined.

(** ** Computations that only add to the log *)

Lemma add_log_nil w : add_log [] w = w.
Proof. destruct w. unfold add_log. cbn. now rewrite app_nil_r. Qed.

Lemma add_log_app e1 e2 w : add_log e2 (add_log e1 w) = add_log (e1 ++ e2) w.
Proof. unfold add_log. cbn. now rewrite app_assoc. Qed.

Lemma queue_deletes_app l1 l2 :
  queue_deletes (l1 ++ l2) = queue_deletes l1 ++ queue_deletes l2.
Proof. apply List.filter_app. Qed.

Lemma log_only_ret P : log_only P (ret tt).
Proof. intros w _. exists []. now rewrite add_log_nil. Qed.

Lemma log_only_emit P e : is_queue_delete e = false -> log_only P (emit e).
Proof.
  intros He w _. exists [e]. split; [reflexivity|].
  unfold queue_deletes. cbn. now rewrite He.
Qed.

Lemma log_only_bind P (c1 c2 : M unit) :
  log_only P c1 -> log_only P c2 -> log_only P (c1 ;; c2).
Proof.
  intros H1 H2 w Hw.
  destruct (H1 w Hw) as (e1 & E1 & Q1).
  destruct (H2 (add_log e1 w) Hw) as (e2 & E2 & Q2).
  exists (e1 ++ e2). split.
  - unfold bind. now rewrite E1, E2, add_log_app.
  - now rewrite queue_deletes_app, Q1, Q2.
Qed.

Lemma log_only_for_each {A} P (l : list A) (body : A -> M unit) :
  (forall x, In x l -> log_only P (body x)) ->
  log_only P (for_each l body).
Proof.
  induction l as [|x l IH]; intros H; cbn [for_each].
  - apply log_only_ret.
  - apply log_only_bind; [apply H; now left|].
    apply IH. intros y Hy. apply H. now right.
Qed.

Lemma log_only_call P p ev :
  (forall m, P m -> proxy_ptr p m <> None) ->
  is_queue_delete ev = false ->
  log_only P (call p ev).
Proof.
  intros Hp He w Hw. rewrite call_ok by auto.
  now apply log_only_emit with (P := P).
Qed.

(** Reading the Manager first. *)
Lemma log_only_get P (k : Manager -> M unit) :
  (forall m, P m -> log_only (fun m' => m' = m) (k m)) ->
  log_only P (m <- get_mgr ;; k m).
Proof.
  intros H w Hw. unfold bind, get_mgr. now apply (H (mgr w) Hw w).
Qed.

Lemma log_only_weaken (P Q : Manager -> Prop) c :
  (forall m, Q m -> P m) -> log_only P c -> log_only Q c.
Proof. intros HPQ H w Hw. apply H. auto. Qed.

Lemma In_range lo hi i : In i (range lo hi) -> (lo <= i < hi)%Z.
Proof.
  unfold range. rewrite in_map_iff. intros (k & <- & Hk).
  apply in_seq in Hk. lia.
Qed.

Lemma slot_is_Some {A} (l : list A) i n :
  length l = n -> i < n -> exists x, l !! i = Some x.
Proof. intros <- H. now apply lookup_lt_is_Some_2. Qed.

(** ** Threads that have been asked to stop *)

Lemma obj_eqb_refl o : obj_eqb o o = true.
Proof. destruct o; cbn; try reflexivity; apply Nat.eqb_refl. Qed.

Lemma asked_to_stop_snoc o l e :
  asked_to_stop o (l ++ [e])
  = match e with
    | EvThreadStart o' => if obj_eqb o' o then false else asked_to_stop o l
    | EvPleaseStop o' => if obj_eqb o' o then true else asked_to_stop o l
    | _ => asked_to_stop o l
    end.
Proof. unfold asked_to_stop. now rewrite fold_left_app. Qed.

(** The calls of the teardown path start no thread: who has been asked to
    stop stays so. *)
Lemma asked_to_stop_kept o l evs :
  forallb teardown_event evs = true ->
  asked_to_stop o l = true ->
  asked_to_stop o (l ++ evs) = true.
Proof.
  induction evs as [|e evs IH] using rev_ind; intros F H.
  - now rewrite app_nil_r.
  - rewrite forallb_app in F. apply andb_prop in F as [F1 F2].
    rewrite app_assoc, asked_to_stop_snoc.
    destruct e; cbn in F2; try discriminate; auto.
    destruct (obj_eqb o0 o); auto.
Qed.

Lemma asked_to_stop_in o l evs :
  forallb teardown_event evs = true ->
  In (EvPleaseStop o) evs ->
  asked_to_stop o (l ++ evs) = true.
Proof.
  induction evs as [|e evs IH] using rev_ind; intros F H; [destruct H|].
  rewrite forallb_app in F. apply andb_prop in F as [F1 F2].
  rewrite app_assoc, asked_to_stop_snoc.
  apply in_app_or in H as [H | [-> | []]].
  - destruct e; cbn in F2; try discriminate; auto.
    destruct (obj_eqb o0 o); auto.
  - now rewrite obj_eqb_refl.
Qed.

Lemma teardown_event_queue_deletes evs :
  forallb teardown_event evs = true -> queue_deletes evs = [].
Proof.
  induction evs as [|e evs IH]; [reflexivity|]. cbn [forallb].
  intros F. apply andb_prop in F as [F1 F2]. unfold queue_deletes. cbn [List.filter].
  destruct e as [| | | | | | | | |o| | | |]; try destruct o;
    cbn in F1 |- *; try discriminate; now apply IH.
Qed.

Lemma join_asked o w :
  asked_to_stop o (log w) = true ->
  join o w = Done tt (add_log [EvThreadJoin o] w).
Proof. intros H. unfold join. now rewrite H. Qed.

(** A loop whose rounds only add to the log. *)
Lemma for_each_add_log {A} (l : list A) (body : A -> M unit)
    (ev : A -> list event) (m : Manager) :
  (forall x w, In x l -> mgr w = m -> body x w = Done tt (add_log (ev x) w)) ->
  forall w, mgr w = m ->
    for_each l body w = Done tt (add_log (flat_map ev l) w).
Proof.
  induction l as [|x l IH]; intros H w Hw; cbn [for_each flat_map].
  - now rewrite add_log_nil.
  - rewrite (bind_done _ _ _ _ _ (H x w (or_introl eq_refl) Hw)).
    rewrite (IH (fun y v Hy => H y v (or_intror Hy))) by exact Hw.
    now rewrite add_log_app.
Qed.

Lemma forallb_flat_map {A} (f : event -> bool) (ev : A -> list event) l :
  (forall x, In x l -> forallb f (ev x) = true) ->
  forallb f (flat_map ev l) = true.
Proof.
  induction l as [|x l IH]; intros H; cbn [flat_map]; [reflexivity|].
  rewrite forallb_app, (H x (or_introl eq_refl)).
  apply IH. intros y Hy. apply H. now right.
Qed.

Lemma please_stop_injector_spec i w :
  registry_ok (injectors (mgr w)) (injectorCount (mgr w)) ->
  (0 <= i < injectorCount (mgr w))%Z ->
  please_stop_injector i w = Done tt (add_log (injector_stop (mgr w) i) w).
Proof.
  intros Hreg Hi. destruct (Hreg i Hi) as (arr & x & Earr & Ex).
  unfold please_stop_injector, injector_stop, load. unfold_m. rewrite Earr.
  destruct (Z.ltb_spec i 0) as [|_]; [lia|]. rewrite Ex.
  destruct x as [inj|]; [reflexivity|]. now rewrite add_log_nil.
Qed.

Lemma injector_stop_event m i : forallb teardown_event (injector_stop m i) = true.
Proof.
  unfold injector_stop. destruct (injectors m) as [arr|]; [|reflexivity].
  destruct (arr !! Z.to_nat i) as [[|[inj|]]|]; reflexivity.
Qed.

Lemma relay_stops_event r i : forallb teardown_event (relay_stops r i) = true.
Proof.
  unfold relay_stops.
  destruct (readerThreads r !! i) as [[|]|], (readers r !! i) as [[rd|]|],
    (writerThreads r !! i) as [[|]|], (writers r !! i) as [[wr|]|]; reflexivity.
Qed.

Lemma signal_relays_spec d i w :
  i < 16 ->
  shape (relays d (mgr w)) -> threads_owned (relays d (mgr w)) ->
  signal_relays d i w = Done tt (add_log (relay_stops (relays d (mgr w)) i) w).
Proof.
  intros Hi (_ & Hr & Hw & Hrt & Hwt & _) Ho.
  destruct (slot_is_Some _ i _ Hr Hi) as [pr Epr].
  destruct (slot_is_Some _ i _ Hw Hi) as [pw Epw].
  destruct (slot_is_Some _ i _ Hrt Hi) as [jr Ejr].
  destruct (slot_is_Some _ i _ Hwt Hi) as [jw Ejw].
  destruct (Ho i) as [Hor How].
  unfold signal_relays, relay_stops, slot. unfold_m.
  rewrite Epr, Epw, Ejr, Ejw.
  destruct jr, jw, pr as [r|], pw as [x|]; cbn;
    try (now elim Hor); try (now elim How);
    unfold add_log; cbn; rewrite <- ?app_assoc, ?app_nil_r; try reflexivity;
    now destruct w.
Qed.

(** The injector threads are joined in the order of [injectorThreads]. *)
Lemma join_injector_threads ts :
  forall w,
    (forall t, In t ts -> asked_to_stop (OInjector t) (log w) = true) ->
    for_each ts (fun t => join (OInjector t)) w
    = Done tt (add_log (map (fun t => EvThreadJoin (OInjector t)) ts) w).
Proof.
  induction ts as [|t ts IH]; intros w H; cbn [for_each map].
  - now rewrite add_log_nil.
  - rewrite (bind_done _ _ _ _ _ (join_asked _ w (H t (or_introl eq_refl)))).
    rewrite IH.
    + now rewrite add_log_app.
    + intros t' Ht'. cbn [log add_log].
      apply asked_to_stop_kept; [reflexivity|]. apply H. now right.
Qed.

Lemma release_interfaces_log_only :
  log_only (fun m => (forall d, device m = Some d ->
                                get_active_configuration d <> None)
                     /\ deviceProxy m <> None)
           release_interfaces.
Proof.
  unfold release_interfaces. apply log_only_get. intros m [Hd Hp].
  destruct (device m) as [d|] eqn:Ed; [|apply log_only_ret].
  destruct (get_active_configuration d) as [cfg|] eqn:Ec;
    [|now elim (Hd d eq_refl)].
  cbn [deref].
  change (bind (ret cfg) ?k) with (k cfg). cbv beta.
  apply log_only_for_each. intros x _.
  apply log_only_call; [|reflexivity]. now intros m' ->.
Qed.

(** ** Loops with an invariant indexed by the number of rounds *)

Lemma for_each_total {A} (l : list A) (body : A -> M unit) :
  forall (I : nat -> World -> Prop),
    (forall k x w, l !! k = Some x -> I k w ->
       exists w', body x w = Done tt w' /\ I (S k) w') ->
    forall w, I 0 w ->
      exists w', for_each l body w = Done tt w' /\ I (length l) w'.
Proof.
  induction l as [|a l IH]; intros I H w H0; cbn [for_each length].
  - now exists w.
  - destruct (H 0 a w eq_refl H0) as (w1 & E1 & I1).
    destruct (IH (fun k => I (S k)) (fun k x w => H (S k) x w) w1 I1)
      as (w2 & E2 & I2).
    exists w2. split; [|assumption].
    unfold bind. now rewrite E1.
Qed.

(** ** Releasing the relay tables *)

Lemma Relays_eq e r x rt wt q e' r' x' rt' wt' q' :
  e = e' -> r = r' -> x = x' -> rt = rt' -> wt = wt' -> q = q' ->
  {| endpoints := e; readers := r; writers := x; readerThreads := rt;
     writerThreads := wt; queues := q |}
  = {| endpoints := e'; readers := r'; writers := x'; readerThreads := rt';
       writerThreads := wt'; queues := q' |}.
Proof. now intros -> -> -> -> -> ->. Qed.

Ltac same_table :=
  first [ reflexivity
        | symmetry; apply list_insert_id; assumption
        | apply list_insert_id; assumption ].

Ltac same_log :=
  first [ symmetry; apply app_nil_r
        | rewrite <- ?app_assoc; reflexivity ].

Lemma release_relays_spec d i w :
  i < 16 ->
  shape (relays d (mgr w)) ->
  threads_owned (relays d (mgr w)) ->
  threads_asked w ->
  exists evs,
    release_relays d i w
    = Done tt (add_log evs
                 (with_mgr (set_relays d (clear_slot i (relays d (mgr w))) (mgr w)) w))
    /\ forallb teardown_event evs = true.
Proof.
  intros Hi (He & Hr & Hw & Hrt & Hwt & _) Ho Ha.
  destruct (slot_is_Some _ i _ He Hi) as [ep Eep].
  destruct (slot_is_Some _ i _ Hr Hi) as [pr Epr].
  destruct (slot_is_Some _ i _ Hw Hi) as [pw Epw].
  destruct (slot_is_Some _ i _ Hrt Hi) as [jr Ejr].
  destruct (slot_is_Some _ i _ Hwt Hi) as [jw Ejw].
  destruct (Ho i) as [Hor How]. clear Ho.
  destruct (Ha d i) as [Har Haw]. clear Ha.
  assert (Har' : forall r, jr = true -> pr = Some r ->
                   asked_to_stop (OReader (rd_id r)) (log w) = true).
  { intros r -> ->. now apply Har. }
  assert (Haw' : forall x evs, forallb teardown_event evs = true ->
                   jw = true -> pw = Some x ->
                   asked_to_stop (OWriter (wr_id x)) (log w ++ evs) = true).
  { intros x evs F -> ->. apply asked_to_stop_kept; [exact F|]. now apply Haw. }
  assert (Haw0 : forall x, jw = true -> pw = Some x ->
                   asked_to_stop (OWriter (wr_id x)) (log w) = true).
  { intros x -> ->. now apply Haw. }
  clear Har Haw.
  destruct w as [m l rd dc hc nx]. cbn [mgr log] in *.
  destruct m as [st dp hp dv fs fc js jc jt ri ro]. destruct ri, ro.
  unfold release_relays, slot, join. unfold_m. cbn [mgr].
  destruct d; cbn in *; rewrite Eep, Epr, Epw; cbn;
    destruct ep as [ep|], pr as [r|], pw as [x|]; cbn;
    rewrite ?Ejr, ?Ejw; cbn;
    destruct jr, jw; cbn;
    try (now elim Hor); try (now elim How);
    rewrite ?(Har' _ eq_refl eq_refl); cbn;
    rewrite <- ?app_assoc; cbn [app];
    try (rewrite Haw' by reflexivity); try (rewrite Haw0 by reflexivity); cbn;
    (eexists; split;
     [ f_equal; unfold add_log, with_mgr, set_relays, clear_slot; cbn;
       apply World_eq;
       [ f_equal; apply Relays_eq; same_table | same_log | reflexivity .. ]
     | reflexivity ]).
Qed.

Lemma clear_slot_upto i r0 r :
  i < 16 -> released_upto i r0 r -> released_upto (S i) r0 (clear_slot i r).
Proof.
  intros Hi ((He & Hr & Hw & Hrt & Hwt & Hq) & Ho & Hq0 & Hrel).
  split; [|split; [|split]].
  - unfold shape, clear_slot; cbn. now rewrite !length_insert.
  - intros j. unfold clear_slot; cbn.
    destruct (decide (i = j)) as [<-|Hne].
    + rewrite !list_lookup_insert_eq by lia. split; discriminate.
    + rewrite !list_lookup_insert_ne by assumption. apply Ho.
  - assumption.
  - intros j Hj. unfold slot_released, clear_slot; cbn.
    destruct (decide (i = j)) as [<-|Hne].
    + now rewrite !list_lookup_insert_eq by lia.
    + rewrite !list_lookup_insert_ne by assumption. apply Hrel. lia.
Qed.

(** Releasing an entry asks nothing of the threads of the other entries. *)
Lemma threads_asked_clear d i evs w :
  i < 16 -> shape (relays d (mgr w)) ->
  threads_asked w ->
  forallb teardown_event evs = true ->
  threads_asked
    (add_log evs (with_mgr (set_relays d (clear_slot i (relays d (mgr w))) (mgr w)) w)).
Proof.
  intros Hi (_ & Hr & Hw & Hrt & Hwt & _) Ha F d' j.
  destruct (Ha d' j) as [Har Haw].
  assert (Hcase : d' <> d
                  \/ (d' = d /\ i <> j)
                  \/ (d' = d /\ i = j)).
  { destruct (decide (d' = d)); [|now left].
    destruct (decide (i = j)); [right; right|right; left]; now split. }
  cbn [log add_log with_mgr mgr].
  destruct Hcase as [Hd | [[-> Hne] | [-> <-]]].
  - replace (relays d' (set_relays d (clear_slot i (relays d (mgr w))) (mgr w)))
      with (relays d' (mgr w)) by (destruct d, d'; congruence || reflexivity).
    split; intros; apply asked_to_stop_kept; auto.
  - replace (relays d (set_relays d (clear_slot i (relays d (mgr w))) (mgr w)))
      with (clear_slot i (relays d (mgr w))) by (now destruct d).
    unfold clear_slot; cbn.
    rewrite !list_lookup_insert_ne by assumption.
    split; intros; apply asked_to_stop_kept; auto.
  - replace (relays d (set_relays d (clear_slot i (relays d (mgr w))) (mgr w)))
      with (clear_slot i (relays d (mgr w))) by (now destruct d).
    unfold clear_slot; cbn.
    rewrite !list_lookup_insert_eq by lia.
    split; intros y Hy; congruence.
Qed.

Lemma release_slot_step w0 k w :
  k < 16 ->
  release_inv w0 k w ->
  exists w', (release_relays IN k ;; release_relays OUT k) w = Done tt w'
             /\ release_inv w0 (S k) w'.
Proof.
  intros Hk (Hst & Hdv & Hit & Hpl & Hlog & Hin & Hout & Hask).
  destruct (release_relays_spec IN k w Hk) as (e1 & E1 & Q1);
    [apply Hin | apply Hin | exact Hask |].
  rewrite (bind_done _ _ _ _ _ E1).
  set (w1 := add_log e1 (with_mgr (set_relays IN (clear_slot k (relays IN (mgr w)))
                                              (mgr w)) w)).
  assert (Hask1 : threads_asked w1)
    by (apply threads_asked_clear; [exact Hk | apply Hin | exact Hask | exact Q1]).
  destruct (release_relays_spec OUT k w1 Hk) as (e2 & E2 & Q2);
    [apply Hout | apply Hout | exact Hask1 |].
  eexists. split; [exact E2|].
  unfold release_inv.
  split; [assumption|]. split; [assumption|]. split; [assumption|].
  split; [assumption|]. split; [|split; [|split]].
  - cbn. rewrite !queue_deletes_app.
    now rewrite (teardown_event_queue_deletes _ Q1),
                (teardown_event_queue_deletes _ Q2), !app_nil_r.
  - now apply clear_slot_upto.
  - now apply clear_slot_upto.
  - apply threads_asked_clear; [exact Hk | apply Hout | exact Hask1 | exact Q2].
Qed.

(** ** The teardown path of [stop_relaying] *)

Lemma bind_log_only {B} P (c : M unit) (k : unit -> M B) w :
  log_only P c -> P (mgr w) ->
  exists evs, bind c k w = k tt (add_log evs w) /\ queue_deletes evs = [].
Proof.
  intros H Hw. destruct (H w Hw) as (evs & E & Q).
  exists evs. split; [|assumption]. unfold bind. now rewrite E.
Qed.

Lemma bind_modify {B} f (k : unit -> M B) w :
  bind (modify f) k w = k tt (with_mgr (f (mgr w)) w).
Proof. reflexivity. Qed.

Lemma bind_get_mgr {B} (k : Manager -> M B) w :
  bind get_mgr k w = k (mgr w) w.
Proof. reflexivity. Qed.

Ltac log_step P evs Q :=
  match goal with
  | |- exists w', bind ?c ?k ?w1 = _ /\ _ =>
      let E := fresh "E" in
      destruct (bind_log_only P c k w1) as (evs & E & Q);
      [ | | rewrite E; clear E ]
  end.

Lemma range_In lo hi i : (lo <= i < hi)%Z -> In i (range lo hi).
Proof.
  intros H. unfold range. apply in_map_iff.
  exists (Z.to_nat (i - lo)). split; [lia|]. apply in_seq. lia.
Qed.

(** The first loop asks every injector of the registry to stop. *)
Lemma injector_stop_in m i arr inj :
  (0 <= i < injectorCount m)%Z ->
  injectors m = Some arr ->
  arr !! Z.to_nat i = Some (Ptr (Some inj)) ->
  In (EvPleaseStop (OInjector (inj_id inj)))
     (flat_map (injector_stop m) (range 0 (injectorCount m))).
Proof.
  intros Hi Harr Hx. apply in_flat_map. exists i.
  split; [now apply range_In|].
  unfold injector_stop. rewrite Harr, Hx. now left.
Qed.

(** The second loop asks every relay whose thread can be joined to
    stop. *)
Lemma relay_stops_in d m :
  shape (relays d m) ->
  forall i,
    (forall r, readerThreads (relays d m) !! i = Some true ->
               readers (relays d m) !! i = Some (Some r) ->
               In (EvPleaseStop (OReader (rd_id r)))
                  (flat_map (fun i => relay_stops (relays IN m) i
                                      ++ relay_stops (relays OUT m) i)
                            (seq 0 16)))
    /\ (forall x, writerThreads (relays d m) !! i = Some true ->
                  writers (relays d m) !! i = Some (Some x) ->
                  In (EvPleaseStop (OWriter (wr_id x)))
                     (flat_map (fun i => relay_stops (relays IN m) i
                                         ++ relay_stops (relays OUT m) i)
                               (seq 0 16))).
Proof.
  intros (_ & Hr & Hw & _) i. split.
  - intros r Hj Hp. apply in_flat_map. exists i. split.
    + apply in_seq. apply lookup_lt_Some in Hp. lia.
    + assert (H : In (EvPleaseStop (OReader (rd_id r)))
                     (relay_stops (relays d m) i)).
      { unfold relay_stops. rewrite Hj, Hp. apply in_or_app. left. now left. }
      apply in_or_app. destruct d; [now left|now right].
  - intros x Hj Hp. apply in_flat_map. exists i. split.
    + apply in_seq. apply lookup_lt_Some in Hp. lia.
    + assert (H : In (EvPleaseStop (OWriter (wr_id x)))
                     (relay_stops (relays d m) i)).
      { unfold relay_stops. rewrite Hj, Hp. apply in_or_app. right. now left. }
      apply in_or_app. destruct d; [now left|now right].
Qed.

Lemma forallb_joins ts :
  forallb teardown_event (map (fun t => EvThreadJoin (OInjector t)) ts) = true.
Proof. induction ts; [reflexivity|exact IHts]. Qed.

Lemma teardown_total w :
  stoppable (mgr w) ->
  exists w', teardown w = Done tt w' /\ torn_down w w'.
Proof.
  intros (Hsi & Hso & Hoi & Hoo & Hreg & Hdev & Hdp & Hhp & Hthr).
  unfold teardown.
  rewrite bind_modify, bind_get_mgr. cbn [mgr with_mgr injectorCount set_status
                                          injectorThreads].
  set (w1 := with_mgr (set_status USBM_STOPPING (mgr w)) w).
  (* the injectors are asked to stop *)
  set (e1 := flat_map (injector_stop (mgr w1)) (range 0 (injectorCount (mgr w)))).
  assert (E1 : for_each (range 0 (injectorCount (mgr w))) please_stop_injector w1
               = Done tt (add_log e1 w1)).
  { apply (for_each_add_log _ _ _ (mgr w1)); [|reflexivity].
    intros i v Hi Hv. rewrite <- Hv.
    apply please_stop_injector_spec; rewrite Hv; [exact Hreg|apply In_range, Hi]. }
  assert (F1 : forallb teardown_event e1 = true)
    by (apply forallb_flat_map; intros; apply injector_stop_event).
  rewrite (bind_done _ _ _ _ _ E1). clear E1.
  (* the relays are asked to stop *)
  set (e2 := flat_map (fun i => relay_stops (relays IN (mgr w1)) i
                                ++ relay_stops (relays OUT (mgr w1)) i)
                      (seq 0 16)).
  assert (E2 : for_each (seq 0 16)
                 (fun i => signal_relays IN i ;; signal_relays OUT i)
                 (add_log e1 w1)
               = Done tt (add_log e2 (add_log e1 w1))).
  { apply (for_each_add_log _ _ _ (mgr w1)); [|reflexivity].
    intros i v Hi Hv. apply in_seq in Hi.
    rewrite (bind_done _ _ _ _ _ (signal_relays_spec IN i v ltac:(lia)
               ltac:(rewrite Hv; exact Hsi) ltac:(rewrite Hv; exact Hoi))).
    rewrite (signal_relays_spec OUT i) by (lia || (cbn [mgr add_log]; rewrite Hv; assumption)).
    cbn [mgr add_log]. rewrite Hv. now rewrite add_log_app. }
  assert (F2 : forallb teardown_event e2 = true).
  { apply forallb_flat_map; intros. now rewrite forallb_app, !relay_stops_event. }
  assert (S2 : forall d i,
            (forall r, readerThreads (relays d (mgr w)) !! i = Some true ->
                       readers (relays d (mgr w)) !! i = Some (Some r) ->
                       In (EvPleaseStop (OReader (rd_id r))) e2)
            /\ (forall x, writerThreads (relays d (mgr w)) !! i = Some true ->
                          writers (relays d (mgr w)) !! i = Some (Some x) ->
                          In (EvPleaseStop (OWriter (wr_id x))) e2)).
  { intros d i. apply (relay_stops_in d (mgr w1)). destruct d; assumption. }
  rewrite (bind_done _ _ _ _ _ E2). clear E2.
  (* the injector threads are joined *)
  set (e3 := map (fun t => EvThreadJoin (OInjector t)) (injectorThreads (mgr w))).
  assert (E3 : for_each (injectorThreads (mgr w)) (fun t => join (OInjector t))
                 (add_log e2 (add_log e1 w1))
               = Done tt (add_log e3 (add_log e2 (add_log e1 w1)))).
  { apply join_injector_threads. intros t Ht.
    destruct (Hthr t Ht) as (i & arr & inj & Hi & Harr & Hx & <-).
    cbn [log add_log]. apply asked_to_stop_kept; [exact F2|].
    apply asked_to_stop_in; [exact F1|].
    now apply (injector_stop_in (mgr w1) i arr inj). }
  assert (F3 : forallb teardown_event e3 = true) by apply forallb_joins.
  rewrite (bind_done _ _ _ _ _ E3). clear E3.
  clearbody e1 e2 e3.
  rewrite bind_modify.
  (* the tables are released *)
  match goal with
  | |- exists w', bind (for_each (seq 0 16) ?body) ?k ?w5 = _ /\ _ =>
      destruct (for_each_total (seq 0 16) body (release_inv w5)) with (w := w5)
        as (w6 & E6 & I6)
  end.
  { intros k x w2 Hx Hinv. apply lookup_seq in Hx as [-> Hk].
    now apply release_slot_step. }
  { unfold release_inv, released_upto, same_plugins. cbn.
    repeat match goal with |- _ /\ _ => split end; auto; try (intros; lia).
    intros d i. destruct (S2 d i) as [Sr Sx]. split.
    - intros r Hj Hp. apply asked_to_stop_kept; [exact F3|].
      apply asked_to_stop_in; [exact F2|].
      apply Sr; destruct d; assumption.
    - intros x Hj Hp. apply asked_to_stop_kept; [exact F3|].
      apply asked_to_stop_in; [exact F2|].
      apply Sx; destruct d; assumption. }
  rewrite (bind_done _ _ _ _ _ E6). clear E6.
  rewrite length_seq in I6.
  destruct I6 as (Hst & Hdv & Hit & Hpl & Hlog & Hin & Hout & _).
  cbn in Hst, Hdv, Hit, Hpl, Hlog, Hin, Hout.
  rewrite bind_get_mgr.
  (* out_endpoints[0] has been cleared by the loop *)
  destruct Hout as (Hso' & Hoo' & Hqo & Hro).
  destruct Hin as (Hsi' & Hoi' & Hqi & Hri).
  destruct (Hro 0 ltac:(lia)) as (Hep0 & _).
  unfold slot at 1. rewrite Hep0. cbn [deref].
  change (bind (ret ?a) ?k) with (k a). cbv beta. cbn [is_null negb when].
  change (bind (ret ?a) ?k) with (k a). cbv beta.
  destruct Hpl as (Pdp & Php & Pf & Pfc & Pi & Pic).
  (* interfaces released, proxies disconnected *)
  log_step (fun m => (forall d, device m = Some d ->
                                get_active_configuration d <> None)
                     /\ deviceProxy m <> None) e7 Q7.
  { apply release_interfaces_log_only. }
  { rewrite Hdv, Pdp. auto. }
  log_step (fun m => hostProxy m <> None) e8 Q8.
  { apply (log_only_call _ HostProxy); [intros m H; exact H | reflexivity]. }
  { cbn. now rewrite Php. }
  log_step (fun m => deviceProxy m <> None) e9 Q9.
  { apply (log_only_call _ DeviceProxy); [intros m H; exact H | reflexivity]. }
  { cbn. now rewrite Pdp. }
  rewrite bind_modify. unfold modify.
  eexists. split; [reflexivity|].
  unfold torn_down, same_plugins. cbn.
  split; [reflexivity|]. split; [reflexivity|]. split; [assumption|].
  split; [now repeat split|]. split.
  - rewrite !queue_deletes_app, Q7, Q8, Q9, !app_nil_r, Hlog.
    rewrite !queue_deletes_app.
    now rewrite (teardown_event_queue_deletes _ F1),
                (teardown_event_queue_deletes _ F2),
                (teardown_event_queue_deletes _ F3), !app_nil_r.
  - intros [|]; cbn; auto.
Qed.

(** ** [stop_relaying] *)

Lemma stop_relaying_idle w :
  status (mgr w) <> USBM_SETUP ->
  status (mgr w) <> USBM_RELAYING ->
  status (mgr w) <> USBM_SETUP_ABORT ->
  stop_relaying w = Done tt w.
Proof.
  intros H1 H2 H3. unfold stop_relaying. rewrite bind_get_mgr.
  destruct (status (mgr w)); try contradiction; reflexivity.
Qed.

Lemma stop_relaying_setup w :
  status (mgr w) = USBM_SETUP ->
  stop_relaying w = Done tt (with_mgr (set_status USBM_SETUP_ABORT (mgr w)) w).
Proof.
  intros H. unfold stop_relaying. rewrite bind_get_mgr. now rewrite H.
Qed.

Lemma stop_relaying_teardown w :
  status (mgr w) = USBM_RELAYING \/ status (mgr w) = USBM_SETUP_ABORT ->
  stop_relaying w = teardown w.
Proof.
  intros H. unfold stop_relaying. rewrite bind_get_mgr.
  now destruct H as [-> | ->].
Qed.

(** C6 (as amended). [stop_relaying] returns at once, leaving everything
    as it is, unless [status] is SETUP, RELAYING or SETUP_ABORT. From
    SETUP one call only stores SETUP_ABORT. From RELAYING or SETUP_ABORT,
    on a Manager on which the teardown is defined and whose injector
    threads all run on injectors that are still in the registry (so that
    each is asked to stop before it is joined), it runs the teardown and
    ends IDLE, and a further call changes nothing. On such a Manager two
    calls in a row from any of the three states end IDLE. *)
Theorem stop_relaying_cases (w : World) :
  (status (mgr w) <> USBM_SETUP ->
   status (mgr w) <> USBM_RELAYING ->
   status (mgr w) <> USBM_SETUP_ABORT ->
   stop_relaying w = Done tt w)
  /\ (status (mgr w) = USBM_SETUP ->
      stop_relaying w
      = Done tt (with_mgr (set_status USBM_SETUP_ABORT (mgr w)) w))
  /\ (stoppable (mgr w) ->
      status (mgr w) = USBM_RELAYING \/ status (mgr w) = USBM_SETUP_ABORT ->
      exists w', stop_relaying w = Done tt w'
                 /\ status (mgr w') = USBM_IDLE
                 /\ stop_relaying w' = Done tt w')
  /\ (stoppable (mgr w) ->
      status (mgr w) = USBM_SETUP \/ status (mgr w) = USBM_RELAYING
      \/ status (mgr w) = USBM_SETUP_ABORT ->
      exists w1 w2, stop_relaying w = Done tt w1
                    /\ stop_relaying w1 = Done tt w2
                    /\ status (mgr w2) = USBM_IDLE).
Proof.
  assert (Hrun : forall v, stoppable (mgr v) ->
            status (mgr v) = USBM_RELAYING \/ status (mgr v) = USBM_SETUP_ABORT ->
            exists v', stop_relaying v = Done tt v'
                       /\ status (mgr v') = USBM_IDLE
                       /\ stop_relaying v' = Done tt v').
  { intros v Hv Hs. rewrite stop_relaying_teardown by assumption.
    destruct (teardown_total v Hv) as (v' & E & Hidle & _).
    exists v'. split; [assumption|]. split; [assumption|].
    apply stop_relaying_idle; rewrite Hidle; discriminate. }
  split; [apply stop_relaying_idle|]. split; [apply stop_relaying_setup|].
  split; [apply Hrun|].
  intros Hw [Hs | Hs].
  - destruct (Hrun (with_mgr (set_status USBM_SETUP_ABORT (mgr w)) w))
      as (w2 & E2 & Hidle & _); [exact Hw | now right |].
    exists (with_mgr (set_status USBM_SETUP_ABORT (mgr w)) w), w2.
    split; [now apply stop_relaying_setup|]. now split.
  - destruct (Hrun w Hw Hs) as (w1 & E1 & Hidle & E2).
    exists w1, w1. now repeat split.
Qed.

(** C5 (as amended). On a Manager on which the teardown is defined and
    whose injector threads all run on injectors that are still in the
    registry (so that each is asked to stop before it is joined), when
    [stop_relaying] runs the teardown it ends IDLE with every entry of the
    endpoint, reader and writer arrays NULL, no thread handle joinable and
    [injectorThreads] empty. The arrays [in_queues] and [out_queues] are
    as they were, and no PacketQueue has been deleted. *)
Theorem stop_relaying_releases_slots (w : World) :
  stoppable (mgr w) ->
  status (mgr w) = USBM_RELAYING \/ status (mgr w) = USBM_SETUP_ABORT ->
  exists w',
    stop_relaying w = Done tt w'
    /\ status (mgr w') = USBM_IDLE
    /\ injectorThreads (mgr w') = []
    /\ (forall d i, i < 16 ->
          endpoints (relays d (mgr w')) !! i = Some None
          /\ readers (relays d (mgr w')) !! i = Some None
          /\ writers (relays d (mgr w')) !! i = Some None
          /\ readerThreads (relays d (mgr w')) !! i = Some false
          /\ writerThreads (relays d (mgr w')) !! i = Some false)
    /\ (forall d, queues (relays d (mgr w')) = queues (relays d (mgr w)))
    /\ queue_deletes (log w') = queue_deletes (log w).
Proof.
  intros Hw Hs. rewrite stop_relaying_teardown by assumption.
  destruct (teardown_total w Hw) as (w' & E & Hidle & _ & Hit & _ & Hlog & Hrel).
  exists w'. split; [assumption|]. split; [assumption|]. split; [assumption|].
  split; [|split; [|assumption]].
  - intros d i Hi. now apply (Hrel d).
  - intros d. apply (Hrel d).
Qed.

(** *** The demo session under [stop_relaying] *)

Ltac absurd_or_distinct :=
  let H := fresh "H" in
  intros H; first [discriminate H | discriminate].

Ltac concrete_threads_owned :=
  let i := fresh "i" in
  intros i; cbn;
  do 16 (destruct i as [|i]; [cbn; split; absurd_or_distinct|]);
  cbn; split; absurd_or_distinct.

Ltac concrete_stoppable :=
  unfold stoppable;
  match goal with
  | |- context [mgr ?w] =>
      let m := fresh "m" in
      set (m := mgr w); vm_compute in m; subst m
  end;
  cbn;
  split; [unfold shape; cbn; repeat split|];
  split; [unfold shape; cbn; repeat split|];
  split; [concrete_threads_owned|];
  split; [concrete_threads_owned|];
  split; [ let i := fresh "i" in
           intros i ?; assert (i = 0%Z) as -> by lia;
           eexists; eexists; split; reflexivity |];
  split; [ let d := fresh "d" in let H := fresh "H" in
           intros d H; first [discriminate H | injection H as <-; discriminate] |];
  split; [discriminate|];
  split; [discriminate|];
  let t := fresh "t" in let Ht := fresh "Ht" in
  unfold threads_registered; cbn [injectorThreads injectors injectorCount];
  intros t Ht; cbn [In] in Ht;
  repeat (destruct Ht as [<- | Ht];
          [ exists 0%Z; eexists; eexists;
            split; [lia|]; split; [reflexivity|]; split; reflexivity |]);
  destruct Ht.

Lemma stoppable_w_data : stoppable (mgr w_data).
Proof. concrete_stoppable. Qed.

Lemma stoppable_w_setup : stoppable (mgr w_setup).
Proof. concrete_stoppable. Qed.

(** After [setConfig(1)] and [stop_relaying] the demo session is IDLE
    with its tables cleared and its queue arrays as they were. *)
Lemma stop_relaying_releases_slots_witness :
  stop_relaying w_data = Done tt w_stopped
  /\ status (mgr w_stopped) = USBM_IDLE
  /\ injectorThreads (mgr w_stopped) = []
  /\ (forall d i, i < 16 ->
        endpoints (relays d (mgr w_stopped)) !! i = Some None
        /\ readers (relays d (mgr w_stopped)) !! i = Some None
        /\ writers (relays d (mgr w_stopped)) !! i = Some None
        /\ readerThreads (relays d (mgr w_stopped)) !! i = Some false
        /\ writerThreads (relays d (mgr w_stopped)) !! i = Some false)
  /\ (forall d, queues (relays d (mgr w_stopped)) = queues (relays d (mgr w_data)))
  /\ queue_deletes (log w_stopped) = queue_deletes (log w_data).
Proof.
  assert (Hs : status (mgr w_data) = USBM_RELAYING
               \/ status (mgr w_data) = USBM_SETUP_ABORT)
    by (left; vm_compute; reflexivity).
  destruct (stop_relaying_releases_slots w_data stoppable_w_data Hs)
    as (w' & E & H).
  assert (W : w' = w_stopped) by (unfold w_stopped, after; now rewrite E).
  rewrite W in E, H. clear W w'.
  split; [exact E | exact H].
Defined.

(** C5 (the claim as stated fails). In the demo session
    [start_data_relaying] created PacketQueue 2 for the IN endpoint 0x81
    and PacketQueue 3 for the OUT endpoint 0x02. After [stop_relaying]
    the session is IDLE, [in_queues[1]] and [out_queues[2]] still point to
    them, and the log holds no [delete] of a PacketQueue. *)
Lemma stop_relaying_keeps_queues :
  stop_relaying w_data = Done tt w_stopped
  /\ status (mgr w_stopped) = USBM_IDLE
  /\ In (EvNew (OQueue 2)) (log w_data)
  /\ In (EvNew (OQueue 3)) (log w_data)
  /\ queues (in_relays (mgr w_stopped)) !! 1 = Some (Ptr (Some 2))
  /\ queues (out_relays (mgr w_stopped)) !! 2 = Some (Ptr (Some 3))
  /\ queue_deletes (log w_stopped) = [].
Proof.
  split; [vm_compute; reflexivity|].
  split; [vm_compute; reflexivity|].
  split; [vm_compute; tauto|].
  split; [vm_compute; tauto|].
  repeat match goal with |- _ /\ _ => split end; vm_compute; reflexivity.
Qed.

(** From SETUP, from RELAYING, and twice in a row. *)
Lemma stop_relaying_cases_witness :
  stop_relaying w_stopped = Done tt w_stopped
  /\ stop_relaying w_setup = Done tt w_abort
  /\ (exists w', stop_relaying w_data = Done tt w'
                 /\ status (mgr w') = USBM_IDLE
                 /\ stop_relaying w' = Done tt w')
  /\ (exists w1 w2, stop_relaying w_setup = Done tt w1
                    /\ stop_relaying w1 = Done tt w2
                    /\ status (mgr w2) = USBM_IDLE).
Proof.
  split; [|split; [|split]].
  - destruct (stop_relaying_cases w_stopped) as (H & _).
    apply H; vm_compute; discriminate.
  - destruct (stop_relaying_cases w_setup) as (_ & H & _).
    rewrite H; reflexivity.
  - destruct (stop_relaying_cases w_data) as (_ & _ & H & _).
    apply H; [exact stoppable_w_data | left; reflexivity].
  - destruct (stop_relaying_cases w_setup) as (_ & _ & _ & H).
    apply H; [exact stoppable_w_setup | left; reflexivity].
Defined.

(** C6 (the claim as stated fails). A session in SETUP: one call of
    [stop_relaying] acts, and leaves SETUP_ABORT, not IDLE; the next call
    changes the state again, to IDLE. *)
Lemma stop_relaying_from_setup :
  status (mgr w_setup) = USBM_SETUP
  /\ stop_relaying w_setup = Done tt w_abort
  /\ status (mgr w_abort) = USBM_SETUP_ABORT
  /\ status (mgr w_abort) <> USBM_IDLE
  /\ stop_relaying w_abort = Done tt w_abort_stopped
  /\ status (mgr w_abort_stopped) = USBM_IDLE
  /\ stop_relaying w_abort <> Done tt w_abort.
Proof.
  split; [reflexivity|]. split; [reflexivity|]. split; [reflexivity|].
  split; [discriminate|].
  assert (E : stop_relaying w_abort = Done tt w_abort_stopped)
    by (vm_compute; reflexivity).
  split; [exact E|]. split; [vm_compute; reflexivity|].
  intros H. apply (f_equal final_status) in H.
  vm_compute in H. discriminate.
Qed.

(** ** Injectors at EP0 *)

(** C8 (the code departs from the claim). In the demo session the
    injector 200 passes both predicates for EP0. [start_control_relaying]
    reaches RELAYING and starts the [listen] thread of the injector, and
    this is all it does with it: the log of the calls made holds nothing
    between the two [add_filter] calls on the EP0 writer and the start of
    the injector thread, and the EP0 writer is left as its constructor and
    the two [add_filter] calls made it. *)
Theorem ep0_injector_left_unwired :
  get_injector 0 w_loaded = Done (Some (match_all_injector 200)) w_loaded
  /\ inj_device (match_all_injector 200) demo_device = true
  /\ inj_endpoint (match_all_injector 200) demo_ep0 = true
  /\ start_control_relaying demo_env 4 w_loaded = Done tt w_control
  /\ status (mgr w_control) = USBM_RELAYING
  /\ endpoints (out_relays (mgr w_control)) !! 0 = Some (Some demo_ep0)
  /\ injectorThreads (mgr w_control) = [200]
  /\ writers (out_relays (mgr w_control)) !! 0
     = Some (Some {| wr_id := 1; wr_endpoint := demo_ep0;
                     wr_proxy := DeviceProxy; wr_manager := true;
                     wr_channel := ControlPipes;
                     wr_filters := [match_all_filter 100;
                                    match_all_filter 101] |})
  /\ log w_control
     = [EvConnect DeviceProxy; EvConnect DeviceProxy; EvConnect DeviceProxy;
        EvConnect DeviceProxy; EvConnect DeviceProxy;
        EvClaimInterface 0;
        EvNew OEndpoint0; EvNew (OReader 0); EvNew (OWriter 1);
        EvAddFilter 1 100; EvAddFilter 1 101;
        EvThreadStart (OInjector 200);
        EvConnect HostProxy;
        EvThreadStart (OReader 0); EvThreadStart (OWriter 1)].
Proof.
  repeat match goal with |- _ /\ _ => split end; vm_compute; reflexivity.
Qed.

(** ** The steps of [start_data_relaying] *)

Lemma enumerate_endpoint_iso aifc ep w :
  is_isochronous (ep_descriptor ep) = true ->
  enumerate_endpoint aifc ep w
  = Done tt (add_log [EvStderr ("Endpoint "
                                ++ dec (bEndpointAddress (ep_descriptor ep))
                                ++ " has transfer type isochronous, which is currently not supported.")]
                     w).
Proof. intros H. unfold enumerate_endpoint. now rewrite H. Qed.

Lemma enumerate_endpoint_install aifc ep w :
  is_isochronous (ep_descriptor ep) = false ->
  deviceProxy (mgr w) <> None ->
  enumerate_endpoint aifc ep w = Done tt (installed aifc ep w).
Proof.
  intros H Hp. unfold enumerate_endpoint. rewrite H.
  unfold call, installed. unfold_m. cbn.
  destruct (ep_dir (ep_descriptor ep)); cbn;
    (destruct (deviceProxy (mgr w)); [|contradiction]);
    unfold set_relays; cbn; rewrite <- app_assoc; reflexivity.
Qed.

Lemma create_relays_none d i w :
  endpoints (relays d (mgr w)) !! i = Some None ->
  create_relays d i w = Done tt w.
Proof.
  intros H. unfold create_relays, slot. unfold_m. now rewrite H.
Qed.

Lemma create_relays_some d i ep q w :
  endpoints (relays d (mgr w)) !! i = Some (Some ep) ->
  queues (relays d (mgr w)) !! i = Some (Ptr (Some q)) ->
  create_relays d i w = Done tt (created d i ep q w).
Proof.
  intros He Hq. unfold create_relays, slot. unfold_m. rewrite He, Hq. cbn.
  unfold created, new_reader, new_writer.
  destruct d; unfold set_relays; cbn; rewrite <- app_assoc; reflexivity.
Qed.

Lemma add_filter_to_writer_some d j f x w :
  writers (relays d (mgr w)) !! j = Some (Some x) ->
  add_filter_to_writer d j f w = Done tt (filtered d j f x w).
Proof.
  intros H. unfold add_filter_to_writer, slot. unfold_m. now rewrite H.
Qed.

Lemma apply_filter_none f d j w :
  endpoints (relays d (mgr w)) !! j = Some None ->
  apply_filter f d j w = Done tt w.
Proof.
  intros H. unfold apply_filter, slot. unfold_m. now rewrite H.
Qed.

Lemma apply_filter_some f d j ep x w :
  endpoints (relays d (mgr w)) !! j = Some (Some ep) ->
  writers (relays d (mgr w)) !! j = Some (Some x) ->
  apply_filter f d j w
  = Done tt (if pf_endpoint f ep && pf_interface f (ep_interface ep)
             then filtered d j f x w else w).
Proof.
  intros He Hx. unfold apply_filter, slot. unfold_m. rewrite He. cbn.
  destruct (pf_endpoint f ep && pf_interface f (ep_interface ep)).
  - now apply add_filter_to_writer_some.
  - reflexivity.
Qed.

Lemma start_threads_none d i w :
  readers (relays d (mgr w)) !! i = Some None ->
  writers (relays d (mgr w)) !! i = Some None ->
  start_threads d i w = Done tt w.
Proof.
  intros Hr Hx. unfold start_threads, slot. unfold_m. now rewrite Hr, Hx.
Qed.

Lemma start_threads_some d i r x w :
  readers (relays d (mgr w)) !! i = Some (Some r) ->
  writers (relays d (mgr w)) !! i = Some (Some x) ->
  readerThreads (relays d (mgr w)) !! i = Some false ->
  writerThreads (relays d (mgr w)) !! i = Some false ->
  start_threads d i w = Done tt (started d i r x w).
Proof.
  intros Hr Hx Hrt Hwt.
  unfold start_threads, start_reader_thread, start_writer_thread, slot.
  unfold_m. rewrite Hr, Hx. cbn. rewrite Hrt. cbn.
  unfold started.
  destruct d; unfold set_relays in *; cbn in *; rewrite Hwt; cbn;
    rewrite <- app_assoc; reflexivity.
Qed.

(** ** The frame of the loops *)

Lemma log_grows_refl w : log_grows w w.
Proof. exists []. now rewrite app_nil_r. Qed.

Lemma tables_kept_refl w : (forall d, shape (relays d (mgr w))) -> tables_kept w w.
Proof.
  intros H. split; [now repeat split|]. split; [apply log_grows_refl|].
  split; [assumption|]. now intros d.
Qed.

Ltac lookup_insert :=
  repeat first
    [ rewrite list_lookup_insert_eq by (rewrite ?length_insert; lia)
    | rewrite list_lookup_insert_ne by (assumption || lia || congruence) ].

Ltac shape_insert :=
  unfold shape in *; cbn; rewrite ?length_insert; intuition.

Lemma slot_idle_endpoint r j :
  slot_idle r j ->
  endpoints r !! j = Some None
  \/ exists ep q, endpoints r !! j = Some (Some ep)
                  /\ queues r !! j = Some (Ptr (Some q)).
Proof.
  intros (_ & _ & _ & _ & p & Hp & Hq). destruct p as [ep|]; [|now left].
  destruct Hq as [q Hq]; [discriminate|]. right. now exists ep, q.
Qed.

(** ** Loops over the data entries 1..15 *)

Lemma same_at_refl r j : same_at r r j.
Proof. now repeat split. Qed.

Lemma same_at_trans r1 r2 r3 j :
  same_at r1 r2 j -> same_at r2 r3 j -> same_at r1 r3 j.
Proof.
  intros (A1 & A2 & A3 & A4 & A5 & A6) (B1 & B2 & B3 & B4 & B5 & B6).
  unfold same_at. now rewrite B1, B2, B3, B4, B5, B6.
Qed.

Lemma slot_idle_local : local (fun _ => slot_idle).
Proof.
  intros _ r r' j (E1 & E2 & E3 & E4 & E5 & E6). unfold slot_idle.
  now rewrite E1, E2, E3, E4, E5, E6.
Qed.

Lemma slot_paired_local : local slot_paired.
Proof.
  intros d r r' j (E1 & E2 & E3 & E4 & E5 & E6). unfold slot_paired.
  now rewrite E1, E2, E3, E6.
Qed.

Lemma slot_threads_local b : local (fun _ => slot_threads b).
Proof.
  intros _ r r' j (E1 & E2 & E3 & E4 & E5 & E6). unfold slot_threads.
  now rewrite E1, E4, E5.
Qed.

Lemma slot_created_local : local slot_created.
Proof.
  intros d r r' j H [H1 H2]. split.
  - eapply slot_paired_local; eauto.
  - eapply (slot_threads_local false d); eauto.
Qed.

Lemma slot_running_local : local slot_running.
Proof.
  intros d r r' j H [H1 H2]. split.
  - eapply slot_paired_local; eauto.
  - eapply (slot_threads_local true d); eauto.
Qed.

(** One round, both directions. *)
Lemma slot_round K Pre Post step i w :
  slot_step K Pre Post step -> local Pre -> local Post ->
  1 <= i < 16 -> K w ->
  Pre IN (relays IN (mgr w)) i -> Pre OUT (relays OUT (mgr w)) i ->
  exists w',
    (step IN i ;; step OUT i) w = Done tt w' /\ K w'
    /\ Post IN (relays IN (mgr w')) i /\ Post OUT (relays OUT (mgr w')) i
    /\ forall d j, j <> i -> same_at (relays d (mgr w)) (relays d (mgr w')) j.
Proof.
  intros Hstep HPre HPost Hi HK Hin Hout.
  destruct (Hstep IN i w Hi HK Hin) as (w2 & E2 & K2 & P2 & S2).
  assert (Hout2 : Pre OUT (relays OUT (mgr w2)) i).
  { eapply HPre; [|exact Hout]. apply S2. left. discriminate. }
  destruct (Hstep OUT i w2 Hi K2 Hout2) as (w3 & E3 & K3 & P3 & S3).
  exists w3. split; [unfold bind; now rewrite E2|]. split; [assumption|].
  split; [|split; [assumption|]].
  - eapply HPost; [|exact P2]. apply S3. left. discriminate.
  - intros d j Hj. eapply same_at_trans; [apply S2 | apply S3]; now right.
Qed.

(** The loop [for (i = 1; i < 16; i++)] over both directions. *)
Lemma slots_loop K Pre Post step :
  slot_step K Pre Post step -> local Pre -> local Post ->
  forall w,
    K w ->
    (forall d j, 1 <= j < 16 -> Pre d (relays d (mgr w)) j) ->
    exists w',
      for_each (seq 1 15) (fun i => step IN i ;; step OUT i) w = Done tt w'
      /\ K w'
      /\ (forall d j, 1 <= j < 16 -> Post d (relays d (mgr w')) j)
      /\ (forall d, same_at (relays d (mgr w)) (relays d (mgr w')) 0).
Proof.
  intros Hstep HPre HPost w HK Hall.
  destruct (for_each_total (seq 1 15) (fun i => step IN i ;; step OUT i)
              (fun k v =>
                 K v
                 /\ (forall d j, 1 <= j < 16 ->
                       (j < 1 + k -> Post d (relays d (mgr v)) j)
                       /\ (1 + k <= j -> Pre d (relays d (mgr v)) j))
                 /\ (forall d, same_at (relays d (mgr w)) (relays d (mgr v)) 0)))
    with (w := w) as (w' & E & K' & Hpost & H0).
  - intros k x v Hx (Kv & Hv & H0). apply lookup_seq in Hx as [-> Hk].
    destruct (slot_round K Pre Post step (1 + k) v Hstep HPre HPost)
      as (v' & E' & Kv' & Pin & Pout & Hsame);
      [lia | assumption | apply Hv; lia | apply Hv; lia |].
    exists v'. split; [assumption|]. split; [assumption|]. split.
    + intros d j Hj. destruct (decide (j = 1 + k)) as [->|Hne].
      * split; [|lia]. intros _. now destruct d.
      * split; intros Hlt.
        -- eapply HPost; [apply Hsame; assumption|]. apply Hv; lia.
        -- eapply HPre; [apply Hsame; assumption|]. apply Hv; lia.
    + intros d. eapply same_at_trans; [apply H0|]. apply Hsame. lia.
  - split; [assumption|]. split.
    + intros d j Hj. split; [lia|]. intros _. now apply Hall.
    + intros d. apply same_at_refl.
  - exists w'. split; [assumption|]. split; [assumption|]. split; [|assumption].
    intros d j Hj. apply Hpost; [assumption|]. rewrite length_seq. lia.
Qed.

Ltac kept_after Hrest Hlog Hshape Htab d :=
  split; [|split; [|split]];
  [ destruct d; exact Hrest
  | let evs := fresh "evs" in let E := fresh "E" in
    destruct Hlog as [evs E]; unfold log_grows; cbn;
    rewrite E, <- app_assoc; now eexists
  | let d' := fresh "d'" in
    intros d'; specialize (Hshape d');
    destruct d, d'; cbn; try assumption; shape_insert
  | let d' := fresh "d'" in
    intros d'; destruct d, d'; cbn;
    first [apply (Htab IN) | apply (Htab OUT)] ].

Ltac others_same d :=
  let d' := fresh "d'" in let j := fresh "j" in let Hne := fresh "Hne" in
  intros d' j Hne; unfold same_at;
  destruct d, d'; cbn; try (now repeat split);
  (destruct Hne as [Hne|Hne]; [congruence|]); lookup_insert; now repeat split.

Lemma create_relays_slot_step w1 :
  slot_step (tables_kept w1) (fun _ => slot_idle) slot_created create_relays.
Proof.
  intros d i w Hi Hkept Hidle.
  pose proof Hkept as (Hrest & Hlog & Hshape & Htab).
  pose proof Hidle as (Hr & Hx & Hrt & Hwt & _).
  destruct (slot_idle_endpoint _ _ Hidle) as [He | (ep & q & He & Hq)].
  - exists w. split; [now apply create_relays_none|].
    split; [assumption|]. split; [|intros; apply same_at_refl].
    split; exists None; now split.
  - exists (created d i ep q w). split; [now apply create_relays_some|].
    pose proof (Hshape d) as (Le & Lr & Lx & Lrt & Lwt & Lq).
    split; [|split].
    + kept_after Hrest Hlog Hshape Htab d.
    + split; exists (Some ep).
      * destruct d; cbn in *; (split; [assumption|]);
          eexists _, _, q; lookup_insert; repeat split; assumption.
      * destruct d; cbn in *; now repeat split.
    + others_same d.
Qed.

Lemma apply_filter_slot_step w1 f :
  slot_step (tables_kept w1) slot_created slot_created (apply_filter f).
Proof.
  intros d j w Hj Hkept Hcr.
  pose proof Hkept as (Hrest & Hlog & Hshape & Htab).
  pose proof Hcr as ((p & He & Hp) & (p' & He' & Hrt & Hwt)).
  rewrite He in He'. injection He' as <-.
  destruct p as [ep|].
  - destruct Hp as (rd & wr & q & Hr & Hx & Hq & Hre & Hwe & Hrc & Hwc & Hrp & Hwp).
    rewrite (apply_filter_some f d j ep wr w He Hx).
    destruct (pf_endpoint f ep && pf_interface f (ep_interface ep)).
    + exists (filtered d j f wr w). split; [reflexivity|].
      pose proof (Hshape d) as (Le & Lr & Lx & Lrt & Lwt & Lq).
      split; [|split].
      * kept_after Hrest Hlog Hshape Htab d.
      * split; exists (Some ep).
        -- destruct d; cbn in *; (split; [assumption|]);
             exists rd, (writer_add_filter f wr), q;
             lookup_insert; repeat split; assumption.
        -- destruct d; cbn in *; now repeat split.
      * others_same d.
    + exists w. split; [reflexivity|]. split; [assumption|].
      split; [assumption|]. intros; apply same_at_refl.
  - exists w. split; [now apply apply_filter_none|]. split; [assumption|].
    split; [assumption|]. intros; apply same_at_refl.
Qed.

Lemma start_threads_slot_step w1 :
  slot_step (tables_kept w1) slot_created slot_running start_threads.
Proof.
  intros d i w Hi Hkept Hcr.
  pose proof Hkept as (Hrest & Hlog & Hshape & Htab).
  pose proof Hcr as ((p & He & Hp) & (p' & He' & Hrt & Hwt)).
  rewrite He in He'. injection He' as <-.
  destruct p as [ep|]; cbn in Hrt, Hwt.
  - destruct Hp as (rd & wr & q & Hr & Hx & Hq & Hrest').
    exists (started d i rd wr w).
    split; [now apply start_threads_some|].
    pose proof (Hshape d) as (Le & Lr & Lx & Lrt & Lwt & Lq).
    split; [|split].
    + kept_after Hrest Hlog Hshape Htab d.
    + split; exists (Some ep).
      * destruct d; cbn in *; (split; [assumption|]);
          exists rd, wr, q; repeat split; try assumption; apply Hrest'.
      * destruct d; cbn in *; lookup_insert; now repeat split.
    + others_same d.
  - destruct Hp as [Hr Hx].
    exists w. split; [now apply start_threads_none|]. split; [assumption|].
    split; [|intros; apply same_at_refl].
    split; [exact (proj1 Hcr)|]. exists None. now repeat split.
Qed.

(** ** The enumeration loop *)

Lemma total_for_each_inv {A} (l : list A) (body : A -> M unit) (I : World -> Prop) :
  (forall x, In x l -> total I (body x) I) ->
  total I (for_each l body) I.
Proof.
  induction l as [|a l IH]; intros H w Hw; cbn [for_each].
  - now exists w.
  - destruct (H a (or_introl eq_refl) w Hw) as (w1 & E1 & I1).
    destruct (IH (fun x Hx => H x (or_intror Hx)) w1 I1) as (w2 & E2 & I2).
    exists w2. split; [|assumption]. unfold bind. now rewrite E1.
Qed.


Lemma total_deref {A} why (p : option A) (a : A) (k : A -> M unit) P Q :
  p = Some a -> total P (k a) Q -> total P (x <- deref why p ;; k x) Q.
Proof. intros -> H. exact H. Qed.

Lemma alternate_count_Some cfg ifc_idx :
  cfg_valid cfg -> ifc_idx < Z.to_nat (bNumInterfaces cfg) ->
  exists alts, cfg_interfaces cfg !! ifc_idx = Some alts
               /\ get_interface_alternate_count cfg ifc_idx = Some (length alts).
Proof.
  intros Hv Hi. unfold cfg_valid in Hv.
  destruct (lookup_lt_is_Some_2 (cfg_interfaces cfg) ifc_idx) as [alts E]; [lia|].
  exists alts. split; [assumption|].
  unfold get_interface_alternate_count. now rewrite E.
Qed.

Lemma endpoint_by_idx_Some aifc ep_idx :
  ep_idx < get_endpoint_count aifc ->
  exists ep, get_endpoint_by_idx aifc ep_idx = Some ep.
Proof.
  intros H. unfold get_endpoint_by_idx.
  destruct (lookup_lt_is_Some_2 (ifc_endpoints aifc) ep_idx) as [d E]; [exact H|].
  rewrite E. now eexists.
Qed.

(** An invariant of every step is an invariant of the three nested
    loops. *)
Lemma enumerate_endpoints_inv cfg (I : World -> Prop) :
  cfg_valid cfg ->
  (forall aifc ep, cfg_has cfg aifc ep -> total I (enumerate_endpoint aifc ep) I) ->
  total I (enumerate_endpoints cfg) I.
Proof.
  intros Hv Hstep. unfold enumerate_endpoints.
  apply total_for_each_inv. intros ifc_idx Hifc. apply in_seq in Hifc.
  destruct (alternate_count_Some cfg ifc_idx Hv) as (alts & Ealts & Ecnt); [lia|].
  unfold enumerate_interface. eapply total_deref; [exact Ecnt|].
  apply total_for_each_inv. intros aifc_idx Haifc. apply in_seq in Haifc.
  destruct (lookup_lt_is_Some_2 alts aifc_idx) as [aifc Eaifc]; [lia|].
  assert (Ealt : get_interface_alternate cfg ifc_idx aifc_idx = Some aifc)
    by (unfold get_interface_alternate; now rewrite Ealts).
  unfold enumerate_alternate. eapply total_deref; [exact Ealt|].
  apply total_for_each_inv. intros ep_idx Hep. apply in_seq in Hep.
  destruct (endpoint_by_idx_Some aifc ep_idx) as [ep Eep]; [lia|].
  eapply total_deref; [exact Eep|].
  apply Hstep. exists ifc_idx, aifc_idx, ep_idx. repeat split; [lia|assumption..].
Qed.


Lemma ep_slot_lt epd : ep_slot epd < 16.
Proof.
  unfold ep_slot. change 15%Z with (Z.ones 4).
  rewrite Z.land_ones by lia.
  pose proof (Z.mod_pos_bound (bEndpointAddress epd) (2 ^ 4) ltac:(lia)). lia.
Qed.

Lemma enum_inv_add_log w0 w evs : enum_inv w0 w -> enum_inv w0 (add_log evs w).
Proof.
  intros (Hrest & [e E] & Hshape & Hidle).
  split; [exact Hrest|]. split; [|now split].
  exists (e ++ evs). cbn. now rewrite E, app_assoc.
Qed.

Lemma installed_same_at aifc ep w d j :
  ep_dir (ep_descriptor ep) <> d \/ ep_slot (ep_descriptor ep) <> j ->
  same_at (relays d (mgr w)) (relays d (mgr (installed aifc ep w))) j.
Proof.
  intros Hne. unfold installed, same_at.
  destruct (ep_dir (ep_descriptor ep)), d; cbn; try (now repeat split);
    (destruct Hne as [Hne|Hne]; [congruence|]); lookup_insert; now repeat split.
Qed.

Lemma installed_slot aifc ep w :
  shape (relays (ep_dir (ep_descriptor ep)) (mgr w)) ->
  let r := relays (ep_dir (ep_descriptor ep)) (mgr w) in
  let r' := relays (ep_dir (ep_descriptor ep)) (mgr (installed aifc ep w)) in
  let i := ep_slot (ep_descriptor ep) in
  endpoints r' !! i = Some (Some ep)
  /\ queues r' !! i = Some (Ptr (Some (next_id w)))
  /\ readers r' = readers r /\ writers r' = writers r
  /\ readerThreads r' = readerThreads r /\ writerThreads r' = writerThreads r.
Proof.
  intros (Le & _ & _ & _ & _ & Lq). pose proof (ep_slot_lt (ep_descriptor ep)).
  unfold installed.
  destruct (ep_dir (ep_descriptor ep)); cbn in *; lookup_insert; now repeat split.
Qed.

Lemma enum_inv_installed w0 aifc ep w :
  enum_inv w0 w -> enum_inv w0 (installed aifc ep w).
Proof.
  intros (Hrest & [e E] & Hshape & Hidle).
  split; [|split; [|split]].
  - unfold installed. destruct (ep_dir (ep_descriptor ep)); exact Hrest.
  - unfold log_grows, installed. cbn. rewrite E, <- app_assoc. now eexists.
  - intros d. specialize (Hshape d). unfold installed.
    destruct (ep_dir (ep_descriptor ep)), d; cbn; try assumption; shape_insert.
  - intros d j Hj.
    destruct (decide (ep_dir (ep_descriptor ep) = d)) as [Hd|Hd];
      [destruct (decide (ep_slot (ep_descriptor ep) = j)) as [Hs|Hs]|].
    + subst d j.
      destruct (installed_slot aifc ep w (Hshape _))
        as (He & Hq & Hr & Hx & Hrt & Hwt).
      destruct (Hidle (ep_dir (ep_descriptor ep)) _ Hj) as (Ir & Ix & Irt & Iwt & _).
      unfold slot_idle. rewrite Hr, Hx, Hrt, Hwt.
      repeat (split; [assumption|]).
      exists (Some ep). split; [assumption|]. intros _.
      eexists. exact Hq.
    + eapply (slot_idle_local d); [apply installed_same_at; now right|].
      now apply Hidle.
    + eapply (slot_idle_local d); [apply installed_same_at; now left|].
      now apply Hidle.
Qed.

Lemma enum_inv_proxy w0 w :
  deviceProxy (mgr w0) <> None -> enum_inv w0 w -> deviceProxy (mgr w) <> None.
Proof. intros H ((_ & -> & _) & _). exact H. Qed.

(** Every step of the enumeration keeps the data entries idle. *)
Lemma enumerate_endpoint_enum w0 aifc ep :
  deviceProxy (mgr w0) <> None ->
  total (enum_inv w0) (enumerate_endpoint aifc ep) (enum_inv w0).
Proof.
  intros Hp w Hw.
  destruct (is_isochronous (ep_descriptor ep)) eqn:Hiso.
  - eexists. split; [now apply enumerate_endpoint_iso|].
    now apply enum_inv_add_log.
  - eexists. split; [apply enumerate_endpoint_install;
                      [assumption | now apply (enum_inv_proxy w0)]|].
    now apply enum_inv_installed.
Qed.




(** ** Filters, injectors, interfaces *)

Lemma filter_at_full i w :
  registry_full (filters (mgr w)) (filterCount (mgr w)) ->
  (0 <= i < filterCount (mgr w))%Z ->
  exists f, filter_at i w = Done f w.
Proof.
  intros Hreg Hi. destruct (Hreg i Hi) as (arr & x & Earr & Ex).
  exists x. unfold filter_at, load. unfold_m. rewrite Earr.
  destruct (Z.ltb_spec i 0) as [|_]; [lia|]. now rewrite Ex.
Qed.

Lemma injector_at_full i w :
  registry_full (injectors (mgr w)) (injectorCount (mgr w)) ->
  (0 <= i < injectorCount (mgr w))%Z ->
  exists inj, injector_at i w = Done inj w.
Proof.
  intros Hreg Hi. destruct (Hreg i Hi) as (arr & x & Earr & Ex).
  exists x. unfold injector_at, load. unfold_m. rewrite Earr.
  destruct (Z.ltb_spec i 0) as [|_]; [lia|]. now rewrite Ex.
Qed.

Lemma apply_filters_created w1 dev cfg i :
  registry_full (filters (mgr w1)) (filterCount (mgr w1)) ->
  (0 <= i < filterCount (mgr w1))%Z ->
  total (created_inv w1) (apply_filters dev cfg i) (created_inv w1).
Proof.
  intros Hreg Hi w (Hkept & Hcr & H0).
  pose proof Hkept as ((_ & _ & _ & _ & Ef & Efc & _) & _).
  destruct (filter_at_full i w) as [f Ef']; [now rewrite ?Ef, ?Efc..|].
  unfold apply_filters. rewrite (bind_done _ _ _ _ _ Ef').
  destruct (pf_device f dev && pf_configuration f cfg).
  - destruct (slots_loop (tables_kept w1) slot_created slot_created
                (apply_filter f) (apply_filter_slot_step w1 f)
                slot_created_local slot_created_local w Hkept Hcr)
      as (w' & E & K' & Hpost & S0).
    exists w'. split; [assumption|]. split; [assumption|].
    split; [assumption|].
    intros d. eapply same_at_trans; [apply H0|apply S0].
  - exists w. split; [reflexivity|]. split; [assumption|]. now split.
Qed.

Lemma for_each_unchanged {A} (l : list A) (body : A -> M unit) w :
  (forall x, In x l -> body x w = Done tt w) ->
  for_each l body w = Done tt w.
Proof.
  induction l as [|a l IH]; intros H; cbn [for_each]; [reflexivity|].
  unfold bind. rewrite (H a (or_introl eq_refl)).
  apply IH. intros x Hx. apply H. now right.
Qed.

(** The injector walk changes nothing. *)
Lemma apply_injector_unchanged inj d j w :
  j < 16 -> shape (relays d (mgr w)) ->
  apply_injector inj d j w = Done tt w.
Proof.
  intros Hj (Le & _). destruct (slot_is_Some _ j _ Le Hj) as [p Ep].
  unfold apply_injector, slot. unfold_m. rewrite Ep.
  destruct p as [ep|]; [|reflexivity].
  now destruct (inj_endpoint inj ep && inj_interface inj (ep_interface ep)).
Qed.

Lemma apply_injectors_unchanged dev cfg i w :
  registry_full (injectors (mgr w)) (injectorCount (mgr w)) ->
  (0 <= i < injectorCount (mgr w))%Z ->
  (forall d, shape (relays d (mgr w))) ->
  apply_injectors dev cfg i w = Done tt w.
Proof.
  intros Hreg Hi Hshape. destruct (injector_at_full i w Hreg Hi) as [inj E].
  unfold apply_injectors. rewrite (bind_done _ _ _ _ _ E).
  destruct (inj_device inj dev && inj_configuration inj cfg); [|reflexivity].
  apply for_each_unchanged. intros j Hj. apply in_seq in Hj.
  unfold bind. rewrite (apply_injector_unchanged inj IN j w) by (auto; lia).
  apply apply_injector_unchanged; [lia | auto].
Qed.

Lemma claim_interfaces_log_only cfg :
  log_only (fun m => deviceProxy m <> None) (claim_interfaces cfg).
Proof.
  unfold claim_interfaces. apply log_only_for_each. intros i _.
  apply log_only_call; [|reflexivity]. now intros m H.
Qed.

Lemma created_inv_add_log w1 w evs :
  created_inv w1 w -> created_inv w1 (add_log evs w).
Proof.
  intros ((Hrest & [e E] & Hshape & Htab) & Hcr & H0).
  split; [|split; [exact Hcr|exact H0]].
  split; [exact Hrest|]. split; [|now split].
  exists (e ++ evs). cbn. now rewrite E, app_assoc.
Qed.

(** ** [start_data_relaying] as a whole *)

Lemma slot_released_idle r j : slot_released r j -> slot_idle r j.
Proof.
  intros (He & Hr & Hx & Hrt & Hwt). repeat (split; [assumption|]).
  exists None. split; [assumption|]. now intros [].
Qed.

Lemma same_rest_refl m : same_rest m m.
Proof. now repeat split. Qed.

Lemma enum_inv_start cfg w : data_ready cfg (mgr w) -> enum_inv w w.
Proof.
  intros (_ & _ & _ & _ & _ & Hshape & Hrel).
  split; [apply same_rest_refl|]. split; [apply log_grows_refl|].
  split; [assumption|]. intros d j Hj. now apply slot_released_idle, Hrel.
Qed.

Lemma start_data_relaying_total cfg w :
  data_ready cfg (mgr w) ->
  exists w1 w',
    enumerate_endpoints cfg w = Done tt w1
    /\ enum_inv w w1
    /\ start_data_relaying w = Done tt w'
    /\ tables_kept w1 w'
    /\ (forall d j, 1 <= j < 16 -> slot_running d (relays d (mgr w')) j)
    /\ forall d, same_at (relays d (mgr w1)) (relays d (mgr w')) 0.
Proof.
  intros Hready.
  pose proof Hready as ((dev & Hdev & Hcfg) & Hvalid & Hp & Hf & Hi & Hshape & Hrel).
  (* the enumeration *)
  destruct (enumerate_endpoints_inv cfg (enum_inv w) Hvalid
              (fun aifc ep _ => enumerate_endpoint_enum w aifc ep Hp)
              w (enum_inv_start cfg w Hready))
    as (w1 & E1 & I1).
  pose proof I1 as (Hrest1 & Hlog1 & Hshape1 & Hidle1).
  pose proof Hrest1 as (_ & Edp & _ & _ & Ef & Efc & Ei & Eic & _).
  exists w1.
  (* the relays *)
  destruct (slots_loop (tables_kept w1) (fun _ => slot_idle) slot_created
              create_relays (create_relays_slot_step w1)
              slot_idle_local slot_created_local w1
              (tables_kept_refl w1 Hshape1) Hidle1)
    as (w2 & E2 & K2 & C2 & S2).
  pose proof K2 as ((_ & _ & _ & _ & Ef2 & Efc2 & Ei2 & Eic2 & _) & _).
  (* the filters *)
  destruct (total_for_each_inv (range 0 (filterCount (mgr w2)))
              (apply_filters dev cfg) (created_inv w1)) with (w := w2)
    as (w3 & E3 & K3 & C3 & S3).
  { intros i Hin. apply In_range in Hin. rewrite Efc2 in Hin.
    apply apply_filters_created; [rewrite Ef, Efc; exact Hf | exact Hin]. }
  { split; [assumption|]. now split. }
  pose proof K3 as ((_ & Edp3 & _ & _ & _ & _ & Ei3 & Eic3 & _) & _ & Hshape3 & _).
  (* the injectors *)
  assert (E4 : for_each (range 0 (injectorCount (mgr w2)))
                 (apply_injectors dev cfg) w3 = Done tt w3).
  { apply for_each_unchanged. intros i Hin. apply In_range in Hin.
    rewrite Eic2 in Hin.
    apply apply_injectors_unchanged;
      [ rewrite Ei3, Eic3, Ei, Eic; exact Hi
      | rewrite Eic3; exact Hin
      | exact Hshape3 ]. }
  (* the interfaces *)
  destruct (claim_interfaces_log_only cfg w3) as (evs & E5 & _).
  { rewrite Edp3, Edp. assumption. }
  (* the threads *)
  assert (I5 : created_inv w1 (add_log evs w3))
    by (apply created_inv_add_log; split; [assumption|now split]).
  destruct (slots_loop (tables_kept w1) slot_created slot_running
              start_threads (start_threads_slot_step w1)
              slot_created_local slot_running_local (add_log evs w3)
              (proj1 I5) (proj1 (proj2 I5)))
    as (w6 & E6 & K6 & C6 & S6).
  exists w6. split; [assumption|]. split; [assumption|].
  split; [|split; [assumption|split; [assumption|]]];
    [|intros d; eapply same_at_trans; [apply S3|apply S6]].
  unfold start_data_relaying, the_device.
  unfold bind at 1. unfold bind at 1. unfold get_mgr at 1. rewrite Hdev.
  cbn [deref ret]. unfold bind at 1. rewrite Hcfg. cbn [deref ret].
  rewrite (bind_done _ _ _ _ _ E1), (bind_done _ _ _ _ _ E2).
  rewrite bind_get_mgr.
  rewrite (bind_done _ _ _ _ _ E3), (bind_done _ _ _ _ _ E4).
  rewrite (bind_done _ _ _ _ _ E5). exact E6.
Qed.

Lemma slot_running_populated d r j ep :
  slot_running d r j ->
  endpoints r !! j = Some (Some ep) ->
  exists rd wr q,
    readers r !! j = Some (Some rd) /\ writers r !! j = Some (Some wr)
    /\ queues r !! j = Some (Ptr (Some q))
    /\ rd_endpoint rd = ep /\ wr_endpoint wr = ep
    /\ rd_channel rd = SlotQueue q /\ wr_channel wr = SlotQueue q
    /\ rd_proxy rd = source d /\ wr_proxy wr = sink d
    /\ readerThreads r !! j = Some true /\ writerThreads r !! j = Some true.
Proof.
  intros [(p & Hp & Hpair) (p' & Hp' & Hrt & Hwt)] He.
  rewrite He in Hp, Hp'. injection Hp as <-. injection Hp' as <-.
  destruct Hpair as (rd & wr & q & H1 & H2 & H3 & H4 & H5 & H6 & H7 & H8 & H9).
  exists rd, wr, q. now repeat split.
Qed.

Lemma slot_running_empty d r j :
  slot_running d r j ->
  endpoints r !! j = Some None ->
  slot_released r j.
Proof.
  intros [(p & Hp & Hpair) (p' & Hp' & Hrt & Hwt)] He.
  rewrite He in Hp, Hp'. injection Hp as <-. injection Hp' as <-.
  destruct Hpair as [Hr Hx]. now repeat split.
Qed.

(** C9. From a Manager whose data entries are released,
    [start_data_relaying] returns, and then in every entry 1..15 of
    either direction: if the endpoint entry is non-NULL, there are a
    reader and a writer on that endpoint, both attached to the non-NULL
    queue of the entry, the IN reader on the device proxy and the IN
    writer on the host proxy, the OUT reader on the host proxy and the OUT
    writer on the device proxy; if the endpoint entry is NULL, the reader
    and writer entries are NULL. *)
Theorem start_data_relaying_pairs (cfg : Configuration) (w : World) :
  data_ready cfg (mgr w) ->
  exists w',
    start_data_relaying w = Done tt w'
    /\ forall d j, 1 <= j < 16 ->
         let r := relays d (mgr w') in
         (forall ep, endpoints r !! j = Some (Some ep) ->
            exists rd wr q,
              readers r !! j = Some (Some rd)
              /\ writers r !! j = Some (Some wr)
              /\ queues r !! j = Some (Ptr (Some q))
              /\ rd_endpoint rd = ep /\ wr_endpoint wr = ep
              /\ rd_channel rd = SlotQueue q /\ wr_channel wr = SlotQueue q
              /\ rd_proxy rd = match d with IN => DeviceProxy | OUT => HostProxy end
              /\ wr_proxy wr = match d with IN => HostProxy | OUT => DeviceProxy end)
         /\ (endpoints r !! j = Some None ->
             readers r !! j = Some None /\ writers r !! j = Some None).
Proof.
  intros Hready.
  destruct (start_data_relaying_total cfg w Hready)
    as (w1 & w' & _ & _ & E & _ & Hrun & _).
  exists w'. split; [assumption|]. intros d j Hj r. split.
  - intros ep He.
    destruct (slot_running_populated d r j ep (Hrun d j Hj) He)
      as (rd & wr & q & H1 & H2 & H3 & H4 & H5 & H6 & H7 & H8 & H9 & _).
    exists rd, wr, q. now repeat split.
  - intros He.
    destruct (slot_running_empty d r j (Hrun d j Hj) He) as (_ & Hr & Hx & _).
    now split.
Qed.

(** ** The calls a computation makes *)

Lemma bind_inv {A B} (c : M A) (k : A -> M B) w b w' :
  bind c k w = Done b w' ->
  exists a w1, c w = Done a w1 /\ k a w1 = Done b w'.
Proof.
  unfold bind. destruct (c w) as [a w1| | |]; [|discriminate..].
  intros H. now exists a, w1.
Qed.

Section Emits.
Context (ok : event -> bool).

Lemma emits_silent {A} (c : M A) :
  (forall w a w', c w = Done a w' -> log w' = log w) -> emits ok c.
Proof.
  intros H w a w' E. exists []. split; [|reflexivity].
  rewrite app_nil_r. eauto.
Qed.

Lemma emits_ret {A} (a : A) : emits ok (ret a).
Proof. apply emits_silent. intros w b w' [= _ <-]. reflexivity. Qed.

Lemma emits_undefined {A} why : emits ok (@undefined A why).
Proof. intros w a w' [=]. Qed.

Lemma emits_out_of_fuel {A} : emits ok (@out_of_fuel A).
Proof. intros w a w' [=]. Qed.

Lemma emits_get_mgr : emits ok get_mgr.
Proof. apply emits_silent. intros w b w' [= _ <-]. reflexivity. Qed.

Lemma emits_modify f : emits ok (modify f).
Proof. apply emits_silent. intros w b w' [= _ <-]. reflexivity. Qed.

Lemma emits_fresh : emits ok fresh.
Proof. apply emits_silent. intros w b w' [= _ <-]. reflexivity. Qed.

Lemma emits_emit e : ok e = true -> emits ok (emit e).
Proof.
  intros He w a w' [= _ <-]. exists [e]. split; [reflexivity|].
  cbn. now rewrite He.
Qed.

Lemma emits_bind {A B} (c : M A) (k : A -> M B) :
  emits ok c -> (forall a, emits ok (k a)) -> emits ok (bind c k).
Proof.
  intros Hc Hk w b w' E.
  apply bind_inv in E as (a & w1 & E1 & E2).
  destruct (Hc _ _ _ E1) as (e1 & L1 & F1).
  destruct (Hk a _ _ _ E2) as (e2 & L2 & F2).
  exists (e1 ++ e2). split.
  - now rewrite L2, L1, app_assoc.
  - now rewrite forallb_app, F1, F2.
Qed.

Lemma emits_deref {A} why (p : option A) : emits ok (deref why p).
Proof. destruct p; [apply emits_ret|apply emits_undefined]. Qed.

Lemma emits_slot {A} (l : list A) i : emits ok (slot l i).
Proof. apply emits_deref. Qed.

Lemma emits_value {A} (c : cell A) : emits ok (value c).
Proof. destruct c; [apply emits_undefined|apply emits_ret]. Qed.

Lemma emits_load {A} (p : option (list (cell A))) i : emits ok (load p i).
Proof.
  unfold load. apply emits_bind; [apply emits_deref|]. intros arr.
  destruct (i <? 0)%Z; [apply emits_undefined|apply emits_deref].
Qed.

Lemma emits_store {A} (p : option (list (cell A))) i c : emits ok (store p i c).
Proof.
  unfold store. apply emits_bind; [apply emits_deref|]. intros arr.
  destruct (i <? 0)%Z; [apply emits_undefined|].
  destruct (_ <? _)%nat; [apply emits_ret|apply emits_undefined].
Qed.

Lemma emits_realloc {A} (p : option (list (cell A))) n : emits ok (realloc p n).
Proof.
  unfold realloc. destruct (n =? 0)%Z; [apply emits_undefined|apply emits_ret].
Qed.

Lemma emits_shift_down {A} ixs :
  forall p : option (list (cell A)), emits ok (shift_down p ixs).
Proof.
  induction ixs as [|i ixs IH]; intros p; cbn [shift_down].
  - apply emits_ret.
  - apply emits_bind; [apply emits_load|]. intros c.
    apply emits_bind; [apply emits_store|]. intros p'. apply IH.
Qed.

Lemma emits_when b (c : M unit) : emits ok c -> emits ok (when b c).
Proof. intros H. destruct b; [exact H|apply emits_ret]. Qed.

Lemma emits_for_each {A} (l : list A) (body : A -> M unit) :
  (forall x, emits ok (body x)) -> emits ok (for_each l body).
Proof.
  intros H. induction l as [|x l IH]; cbn [for_each].
  - apply emits_ret.
  - apply emits_bind; [apply H|]. intros _. exact IH.
Qed.

Lemma emits_call p ev : ok ev = true -> emits ok (call p ev).
Proof.
  intros H. unfold call. apply emits_bind; [apply emits_get_mgr|]. intros m.
  apply emits_bind; [apply emits_deref|]. intros _. now apply emits_emit.
Qed.

Lemma emits_join o : ok (EvThreadJoin o) = true -> emits ok (join o).
Proof.
  intros H w a w' E. unfold join in E.
  destruct (asked_to_stop o (log w)); [|discriminate].
  now apply (emits_emit _ H w a w').
Qed.

Lemma emits_modify_relays d f : emits ok (modify_relays d f).
Proof. apply emits_modify. Qed.

Lemma emits_read_status e : emits ok (read_status e).
Proof. apply emits_silent. intros w b w' [= _ <-]. reflexivity. Qed.

Lemma emits_connect_result e p : emits ok (connect_result e p).
Proof.
  apply emits_silent. intros w b w'. unfold connect_result.
  destruct p; intros [= _ <-]; reflexivity.
Qed.

End Emits.

Lemma emits_weaken (ok ok' : event -> bool) {A} (c : M A) :
  (forall e, ok e = true -> ok' e = true) -> emits ok c -> emits ok' c.
Proof.
  intros H Hc w a w' E. destruct (Hc _ _ _ E) as (evs & L & F).
  exists evs. split; [exact L|].
  rewrite forallb_forall in *. auto.
Qed.

(** One step through the text of a computation. *)
Ltac emits_step :=
  lazymatch goal with
  | |- emits _ (bind _ _) => apply emits_bind; [|intros ?]
  | |- emits _ (ret _) => apply emits_ret
  | |- emits _ get_mgr => apply emits_get_mgr
  | |- emits _ (modify _) => apply emits_modify
  | |- emits _ (modify_relays _ _) => apply emits_modify_relays
  | |- emits _ fresh => apply emits_fresh
  | |- emits _ (undefined _) => apply emits_undefined
  | |- emits _ out_of_fuel => apply emits_out_of_fuel
  | |- emits _ (deref _ _) => apply emits_deref
  | |- emits _ (slot _ _) => apply emits_slot
  | |- emits _ (value _) => apply emits_value
  | |- emits _ (load _ _) => apply emits_load
  | |- emits _ (store _ _ _) => apply emits_store
  | |- emits _ (realloc _ _) => apply emits_realloc
  | |- emits _ (shift_down _ _) => apply emits_shift_down
  | |- emits _ (read_status _) => apply emits_read_status
  | |- emits _ (connect_result _ _) => apply emits_connect_result
  | |- emits _ (when _ _) => apply emits_when
  | |- emits _ (for_each _ _) => apply emits_for_each; intros ?
  | |- emits _ (emit _) => apply emits_emit; reflexivity
  | |- emits _ (stderr _) => apply emits_emit; reflexivity
  | |- emits _ (call _ _) => apply emits_call; reflexivity
  | |- emits _ (join _) => apply emits_join; reflexivity
  | |- emits _ (match ?x with _ => _ end) => destruct x
  | |- emits _ (let _ := _ in _) => cbv zeta
  end.

Ltac walk := repeat emits_step.

(** ** The enumeration loop beyond the data entries *)














(** *** The demo session under [start_data_relaying] *)

Ltac concrete_released :=
  let j := fresh "j" in let Hj := fresh "Hj" in
  intros j Hj; unfold slot_released; cbn;
  do 16 (destruct j as [|j]; [first [lia | now repeat split]|]); lia.

Lemma data_ready_w_control : data_ready demo_configuration (mgr w_control).
Proof.
  unfold data_ready.
  set (m := mgr w_control). vm_compute in m. subst m. cbn.
  split; [eexists; split; reflexivity|].
  split; [unfold cfg_valid; cbn; lia|].
  split; [discriminate|].
  split; [intros i Hi; assert (i = 0 \/ i = 1)%Z as [-> | ->] by lia;
          eexists _, _; split; reflexivity|].
  split; [intros i Hi; assert (i = 0)%Z as -> by lia;
          eexists _, _; split; reflexivity|].
  split; [intros [|]; unfold shape; cbn; now repeat split|].
  intros [|]; concrete_released.
Qed.

Lemma start_data_relaying_w_control :
  start_data_relaying w_control = Done tt w_relays.
Proof. vm_compute. reflexivity. Qed.

(** In the demo session: entry 1 IN holds the bulk endpoint 0x81 with a
    reader on the device proxy and a writer on the host proxy that share
    its queue; entry 3 IN, where the isochronous endpoint would go, has
    neither reader nor writer. *)
Lemma start_data_relaying_pairs_witness :
  start_data_relaying w_control = Done tt w_relays
  /\ (exists rd wr q,
        readers (relays IN (mgr w_relays)) !! 1 = Some (Some rd)
        /\ writers (relays IN (mgr w_relays)) !! 1 = Some (Some wr)
        /\ queues (relays IN (mgr w_relays)) !! 1 = Some (Ptr (Some q))
        /\ rd_endpoint rd = demo_ep_in /\ wr_endpoint wr = demo_ep_in
        /\ rd_channel rd = SlotQueue q /\ wr_channel wr = SlotQueue q
        /\ rd_proxy rd = DeviceProxy /\ wr_proxy wr = HostProxy)
  /\ readers (relays IN (mgr w_relays)) !! 3 = Some None
  /\ writers (relays IN (mgr w_relays)) !! 3 = Some None.
Proof.
  destruct (start_data_relaying_pairs demo_configuration w_control
              data_ready_w_control) as (w' & E & H).
  assert (W : w' = w_relays) by (unfold w_relays, after; now rewrite E).
  rewrite W in E, H. clear W w'.
  split; [exact E|]. split.
  - destruct (H IN 1 ltac:(lia)) as [Hpop _].
    assert (He : endpoints (relays IN (mgr w_relays)) !! 1
                 = Some (Some demo_ep_in))
      by (vm_compute; reflexivity).
    exact (Hpop demo_ep_in He).
  - destruct (H IN 3 ltac:(lia)) as [_ Hnone].
    assert (He : endpoints (relays IN (mgr w_relays)) !! 3 = Some None)
      by (vm_compute; reflexivity).
    exact (Hnone He).
Defined.



(** *** An endpoint numbered 0 *)



(** * Further properties *)

(** ** The registries as lists *)

Section Registry.
Context {A : Type}.

Lemma u8_small z : (0 <= z < 256)%Z -> u8 z = z.
Proof. intros H. unfold u8. now apply Z.mod_small. Qed.

Lemma range_nil lo hi : (hi <= lo)%Z -> range lo hi = [].
Proof.
  intros H. unfold range. replace (Z.to_nat (hi - lo)) with 0 by lia. reflexivity.
Qed.

Lemma range_cons lo hi : (lo < hi)%Z -> range lo hi = lo :: range (lo + 1) hi.
Proof.
  intros H. unfold range.
  replace (Z.to_nat (hi - lo)) with (S (Z.to_nat (hi - (lo + 1)))) by lia.
  cbn [seq List.map]. f_equal; [lia|].
  rewrite <- seq_shift, List.map_map. apply List.map_ext. intros k. lia.
Qed.

Lemma realloc_grow (arr : list (cell A)) w :
  length arr < 255 ->
  realloc (Some arr) (u8 (Z.of_nat (length arr) + 1)) w
  = Done (Some (arr ++ [Indet])) w.
Proof.
  intros H. rewrite u8_small by lia. unfold realloc.
  destruct (Z.eqb_spec (Z.of_nat (length arr) + 1) 0) as [|_]; [lia|].
  change (default [] (Some arr)) with arr. unfold ret.
  replace (Z.to_nat (Z.of_nat (length arr) + 1)) with (S (length arr)) by lia.
  rewrite take_ge by lia.
  replace (S (length arr) - length arr) with 1 by lia. reflexivity.
Qed.

Lemma realloc_shrink (arr : list (cell A)) (x : cell A) w :
  arr <> [] -> length arr < 256 ->
  realloc (Some (arr ++ [x])) (u8 (Z.of_nat (length (arr ++ [x])) - 1)) w
  = Done (Some arr) w.
Proof.
  intros Hne H. rewrite length_app. cbn [length].
  assert (0 < length arr) by (destruct arr; [contradiction|cbn; lia]).
  rewrite u8_small by lia. unfold realloc.
  destruct (Z.eqb_spec (Z.of_nat (length arr + 1) - 1) 0) as [|_]; [lia|].
  change (default [] (Some (arr ++ [x]))) with (arr ++ [x]). unfold ret.
  replace (Z.to_nat (Z.of_nat (length arr + 1) - 1)) with (length arr) by lia.
  rewrite take_app_length.
  rewrite length_app. cbn [length].
  replace (length arr - (length arr + 1)) with 0 by lia.
  cbn. now rewrite app_nil_r.
Qed.

Lemma store_last (arr : list (cell A)) (x c : cell A) w :
  store (Some (arr ++ [x])) (Z.of_nat (length arr)) c w
  = Done (Some (arr ++ [c])) w.
Proof.
  unfold store. unfold_m.
  destruct (Z.ltb_spec (Z.of_nat (length arr)) 0) as [|_]; [lia|].
  rewrite Nat2Z.id, length_app. cbn [length].
  destruct (Nat.ltb_spec (length arr) (length arr + 1)) as [_|]; [|lia].
  do 2 f_equal.
  replace (length arr) with (length arr + 0) at 1 by lia.
  now rewrite insert_app_r.
Qed.

Lemma load_cells (l : list (option A)) (i : Z) x w :
  (0 <= i)%Z -> l !! Z.to_nat i = Some x ->
  load (Some (map Ptr l)) i w = Done (Ptr x) w.
Proof.
  intros Hi Hx. unfold load. unfold_m.
  destruct (Z.ltb_spec i 0) as [|_]; [lia|].
  change (map Ptr l) with (Ptr <$> l).
  now rewrite list_lookup_fmap, Hx.
Qed.

(** The loop of the two removers moves every later entry one place down;
    the last place keeps some entry. *)
Lemma shift_down_spec (rest pre : list (cell A)) (x : cell A) w :
  exists z,
    shift_down (Some (pre ++ x :: rest))
               (range (Z.of_nat (length pre) + 1)
                      (Z.of_nat (length pre) + 1 + Z.of_nat (length rest))) w
    = Done (Some ((pre ++ rest) ++ [z])) w.
Proof.
  revert pre x. induction rest as [|y rest IH]; intros pre x.
  - exists x. rewrite range_nil by (cbn; lia). now rewrite app_nil_r.
  - rewrite range_cons by (cbn [length]; lia).
    cbn [shift_down]. unfold bind at 1.
    assert (Hload : load (Some (pre ++ x :: y :: rest))
                         (Z.of_nat (length pre) + 1) w = Done y w).
    { unfold load. unfold_m.
      destruct (Z.ltb_spec (Z.of_nat (length pre) + 1) 0) as [|_]; [lia|].
      replace (Z.to_nat (Z.of_nat (length pre) + 1)) with (length pre + 1) by lia.
      rewrite lookup_app_r by lia.
      replace (length pre + 1 - length pre) with 1 by lia. reflexivity. }
    rewrite Hload. unfold bind at 1.
    assert (Hstore : store (Some (pre ++ x :: y :: rest))
                           (Z.of_nat (length pre) + 1 - 1) y w
                     = Done (Some ((pre ++ [y]) ++ y :: rest)) w).
    { unfold store. unfold_m.
      destruct (Z.ltb_spec (Z.of_nat (length pre) + 1 - 1) 0) as [|_]; [lia|].
      replace (Z.to_nat (Z.of_nat (length pre) + 1 - 1)) with (length pre + 0) by lia.
      rewrite length_app. cbn [length].
      destruct (Nat.ltb_spec (length pre + 0) (length pre + S (S (length rest))))
        as [_|]; [|lia].
      rewrite insert_app_r. cbn. now rewrite <- app_assoc. }
    rewrite Hstore.
    destruct (IH (pre ++ [y]) y) as [z Hz]. exists z.
    rewrite length_app in Hz. cbn [length] in Hz.
    replace (Z.of_nat (length pre) + 1 + 1)%Z
      with (Z.of_nat (length pre + 1) + 1)%Z by lia.
    replace (Z.of_nat (length pre) + 1 + Z.of_nat (length (y :: rest)))%Z
      with (Z.of_nat (length pre + 1) + 1 + Z.of_nat (length rest))%Z
      by (cbn [length]; lia).
    rewrite Hz. now rewrite <- !app_assoc.
Qed.

End Registry.

Lemma bind_assoc {A B C} (c : M A) (k1 : A -> M B) (k2 : B -> M C) w :
  bind (bind c k1) k2 w = bind c (fun a => bind (k1 a) k2) w.
Proof. unfold bind. now destruct (c w). Qed.

Lemma when_stderr {B} (b : bool) msg (k : unit -> M B) w :
  bind (when b (stderr msg)) k w = k tt (add_log (refusal b msg) w).
Proof.
  destruct b; [reflexivity|]. cbn [when refusal]. now rewrite add_log_nil.
Qed.

Lemma holds_nil {A} (p : option (list (cell A))) count :
  holds p count [] <-> p = None /\ count = 0%Z.
Proof.
  unfold holds. cbn. intuition lia.
Qed.

Lemma holds_length {A} (p : option (list (cell A))) count l :
  holds p count l -> count = Z.of_nat (length l).
Proof. now intros (H & _). Qed.

(** The getters read the list. *)
Lemma get_at_holds {A} (p : option (list (cell A))) count l index w :
  holds p count l -> (0 <= index)%Z ->
  get_at p count index w = Done (default None (l !! Z.to_nat index)) w.
Proof.
  intros (Hc & Hlen & Hp) Hi. subst count.
  destruct (l !! Z.to_nat index) as [x|] eqn:Hx.
  - assert (Hlt : Z.to_nat index < length l) by (now apply lookup_lt_Some in Hx).
    destruct l as [|a l']; [discriminate|]. subst p. cbn [cells].
    unfold get_at. cbn [is_null orb].
    destruct (Z.leb_spec (Z.of_nat (length (a :: l'))) index) as [|_]; [lia|].
    rewrite (bind_done _ _ _ _ _ (load_cells (a :: l') index x w Hi Hx)).
    reflexivity.
  - apply get_at_null. apply lookup_ge_None in Hx. right. lia.
Qed.

(** The result of the allocation and the store of the two adders. *)
Lemma holds_snoc {A} (l : list (option A)) (x : option A) :
  length l < 255 ->
  holds (Some (map Ptr (l ++ [x]))) (Z.of_nat (length l) + 1) (l ++ [x]).
Proof.
  intros H. unfold holds. rewrite length_app. cbn [length].
  split; [lia|]. split; [lia|]. now destruct l.
Qed.

Lemma add_filter_world f l w :
  filters_are l (mgr w) -> length l < 255 ->
  add_filter f w
  = Done tt
      (with_mgr (set_filters (Some (map Ptr (l ++ [f])))
                             (Z.of_nat (length l) + 1) (mgr w))
         (add_log (refusal (not_idle_or_reset (status (mgr w)))
                           "Can't add filters unless manager is idle or reset.")
                  w)).
Proof.
  intros (Hc & _ & Hp) Hlen.
  unfold add_filter. rewrite bind_get_mgr, when_stderr.
  set (w1 := add_log _ w).
  assert (Hm : mgr w1 = mgr w) by reflexivity.
  destruct l as [|a l'].
  - rewrite Hp. cbn [cells]. rewrite bind_modify, bind_get_mgr. cbn.
    unfold store. unfold_m. reflexivity.
  - rewrite Hp. cbn [cells]. cbv zeta. rewrite Hc.
    replace (Z.of_nat (length (a :: l')))
      with (Z.of_nat (length (map Ptr (a :: l')))) by (now rewrite length_map).
    rewrite bind_assoc.
    rewrite (bind_done _ _ _ _ _ (realloc_grow (map Ptr (a :: l')) w1
                                    ltac:(rewrite length_map; lia))).
    rewrite bind_modify, bind_get_mgr.
    cbn [mgr with_mgr filters filterCount set_filters].
    rewrite u8_small by (rewrite length_map; cbn [length] in *; lia).
    replace (Z.of_nat (length (map Ptr (a :: l'))) + 1 - 1)%Z
      with (Z.of_nat (length (map Ptr (a :: l')))) by lia.
    rewrite (bind_done _ _ _ _ _ (store_last (map Ptr (a :: l')) Indet (Ptr f) _)).
    unfold modify, with_mgr. cbn. rewrite length_map, map_app. reflexivity.
Qed.

Lemma add_injector_world i l w :
  injectors_are l (mgr w) -> length l < 255 ->
  add_injector i w
  = Done tt
      (with_mgr (set_injectors (Some (map Ptr (l ++ [i])))
                               (Z.of_nat (length l) + 1) (mgr w))
         (add_log (refusal (negb (status_eqb (status (mgr w)) USBM_IDLE))
                           "Can't add injectors unless manager is idle.")
                  w)).
Proof.
  intros (Hc & _ & Hp) Hlen.
  unfold add_injector. rewrite bind_get_mgr, when_stderr.
  set (w1 := add_log _ w).
  destruct l as [|a l'].
  - rewrite Hp. cbn [cells]. rewrite bind_modify, bind_get_mgr. cbn.
    unfold store. unfold_m. reflexivity.
  - rewrite Hp. cbn [cells]. cbv zeta. rewrite Hc.
    replace (Z.of_nat (length (a :: l')))
      with (Z.of_nat (length (map Ptr (a :: l')))) by (now rewrite length_map).
    rewrite bind_assoc.
    rewrite (bind_done _ _ _ _ _ (realloc_grow (map Ptr (a :: l')) w1
                                    ltac:(rewrite length_map; lia))).
    rewrite bind_modify, bind_get_mgr.
    cbn [mgr with_mgr injectors injectorCount set_injectors].
    rewrite u8_small by (rewrite length_map; cbn [length] in *; lia).
    replace (Z.of_nat (length (map Ptr (a :: l'))) + 1 - 1)%Z
      with (Z.of_nat (length (map Ptr (a :: l')))) by lia.
    rewrite (bind_done _ _ _ _ _ (store_last (map Ptr (a :: l')) Indet (Ptr i) _)).
    unfold modify, with_mgr. cbn. rewrite length_map, map_app. reflexivity.
Qed.

Lemma remove_cells {A B} (l : list (option A)) i x (k : option (list (cell A)) -> M B) w :
  l !! i = Some x -> 2 <= length l <= 255 ->
  bind (shift_down (Some (map Ptr l))
          (range (Z.of_nat i + 1) (Z.of_nat (length l))))
       (fun p => bind (realloc p (u8 (Z.of_nat (length l) - 1))) k) w
  = k (Some (map Ptr (delete i l))) w.
Proof.
  intros Hx Hlen.
  assert (Hi : i < length l) by (now apply lookup_lt_Some in Hx).
  pose proof (take_drop_middle l i x Hx) as Hl.
  set (pre := take i l) in *. set (rest := drop (S i) l) in *.
  assert (Hpre : length pre = i) by (subst pre; rewrite length_take; lia).
  assert (Hd : delete i l = pre ++ rest) by apply delete_take_drop.
  rewrite Hd. rewrite <- Hl at 1. rewrite map_app. cbn [map].
  assert (Hll : length l = length pre + S (length rest))
    by (rewrite <- Hl at 1; rewrite length_app; reflexivity).
  destruct (shift_down_spec (map Ptr rest) (map Ptr pre) (Ptr x) w) as (z & Hs).
  rewrite !length_map in Hs.
  replace (Z.of_nat i + 1)%Z with (Z.of_nat (length pre) + 1)%Z by lia.
  replace (Z.of_nat (length l))
    with (Z.of_nat (length pre) + 1 + Z.of_nat (length rest))%Z by lia.
  rewrite (bind_done _ _ _ _ _ Hs).
  assert (Hne : map Ptr pre ++ map Ptr rest <> @nil (cell A)).
  { intros E. apply (f_equal (@length _)) in E.
    rewrite length_app, !length_map in E. cbn in E. lia. }
  pose proof (realloc_shrink (map Ptr pre ++ map Ptr rest) z w Hne
                ltac:(rewrite length_app, !length_map; lia)) as Hr.
  replace (Z.of_nat (length ((map Ptr pre ++ map Ptr rest) ++ [z])) - 1)%Z
    with (Z.of_nat (length pre) + 1 + Z.of_nat (length rest) - 1)%Z in Hr
    by (rewrite !length_app, !length_map; cbn [length]; lia).
  rewrite (bind_done _ _ _ _ _ Hr). now rewrite map_app.
Qed.

Lemma holds_delete {A} (l : list (option A)) i x :
  l !! i = Some x -> length l <= 255 ->
  holds (cells (delete i l))
        (Z.of_nat (length l) - 1) (delete i l).
Proof.
  intros Hx Hlen.
  assert (Hi : i < length l) by (now apply lookup_lt_Some in Hx).
  pose proof (length_delete l i (ex_intro _ x Hx)) as Hd.
  unfold holds. split; [lia|]. split; [lia|]. now destruct (delete i l).
Qed.

Lemma remove_filter_world index freeMemory l x w :
  filters_are l (mgr w) -> (0 <= index)%Z -> l !! Z.to_nat index = Some x ->
  remove_filter index freeMemory w
  = Done tt
      (with_mgr (set_filters
                   (cells (delete (Z.to_nat index) l))
                   (Z.of_nat (length l) - 1) (mgr w))
         (add_log (refusal (not_idle_or_reset (status (mgr w)))
                           "Can't remove filters unless manager is idle or reset."
                   ++ (if freeMemory then delete_filter x else []))
                  w)).
Proof.
  intros (Hc & Hlen & Hp) Hi Hx.
  assert (Hlt : Z.to_nat index < length l) by (now apply lookup_lt_Some in Hx).
  assert (Hsome : filters (mgr w) = Some (map Ptr l)) by (now destruct l).
  unfold remove_filter. rewrite bind_get_mgr, when_stderr.
  rewrite Hsome, Hc. cbn [is_null orb].
  destruct (Z.leb_spec (Z.of_nat (length l)) index) as [|_]; [lia|].
  rewrite when_stderr. cbn [refusal]. rewrite add_log_nil.
  set (w1 := add_log _ w).
  assert (Hfree :
    forall (k : unit -> M unit),
      bind (if freeMemory then
              c <- load (Some (map Ptr l)) index ;;
              p <- value c ;;
              match p with
              | Some f => emit (EvDelete (OFilter (pf_id f)))
              | None => ret tt
              end
            else ret tt) k w1
      = k tt (add_log (if freeMemory then delete_filter x else []) w1)).
  { intros k. destruct freeMemory.
    - rewrite bind_assoc.
      rewrite (bind_done _ _ _ _ _ (load_cells l index x w1 Hi Hx)).
      cbn [value]. destruct x as [f|]; cbn [delete_filter].
      + reflexivity.
      + unfold bind, ret. now rewrite add_log_nil.
    - unfold bind, ret. now rewrite add_log_nil. }
  rewrite Hfree. subst w1. rewrite add_log_app.
  set (w2 := add_log _ w).
  destruct (Z.eqb_spec (Z.of_nat (length l)) 1) as [H1|H1].
  - destruct l as [|a [|b l']]; cbn [length] in *; try lia.
    assert (Z.to_nat index = 0) as -> by lia. reflexivity.
  - replace (index + 1)%Z with (Z.of_nat (Z.to_nat index) + 1)%Z by lia.
    rewrite (remove_cells l (Z.to_nat index) x) by (exact Hx || lia).
    pose proof (length_delete l _ (ex_intro _ x Hx)) as Hd.
    rewrite u8_small by lia.
    destruct (delete (Z.to_nat index) l) eqn:E; [cbn in Hd; lia|].
    reflexivity.
Qed.

Lemma remove_injector_world index freeMemory l x w :
  injectors_are l (mgr w) -> (0 <= index)%Z -> l !! Z.to_nat index = Some x ->
  remove_injector index freeMemory w
  = Done tt
      (with_mgr (set_injectors
                   (cells (delete (Z.to_nat index) l))
                   (Z.of_nat (length l) - 1) (mgr w))
         (add_log (refusal (not_idle_or_reset (status (mgr w)))
                           "Can't remove injectors unless manager is idle or reset."
                   ++ (if freeMemory then delete_injector x else []))
                  w)).
Proof.
  intros (Hc & Hlen & Hp) Hi Hx.
  assert (Hlt : Z.to_nat index < length l) by (now apply lookup_lt_Some in Hx).
  assert (Hsome : injectors (mgr w) = Some (map Ptr l)) by (now destruct l).
  unfold remove_injector. rewrite bind_get_mgr, when_stderr.
  rewrite Hsome, Hc. cbn [is_null orb].
  destruct (Z.leb_spec (Z.of_nat (length l)) index) as [|_]; [lia|].
  rewrite when_stderr. cbn [refusal]. rewrite add_log_nil.
  set (w1 := add_log _ w).
  assert (Hfree :
    forall (k : unit -> M unit),
      bind (if freeMemory then
              c <- load (Some (map Ptr l)) index ;;
              p <- value c ;;
              match p with
              | Some i => emit (EvDelete (OInjector (inj_id i)))
              | None => ret tt
              end
            else ret tt) k w1
      = k tt (add_log (if freeMemory then delete_injector x else []) w1)).
  { intros k. destruct freeMemory.
    - rewrite bind_assoc.
      rewrite (bind_done _ _ _ _ _ (load_cells l index x w1 Hi Hx)).
      cbn [value]. destruct x as [f|]; cbn [delete_injector].
      + reflexivity.
      + unfold bind, ret. now rewrite add_log_nil.
    - unfold bind, ret. now rewrite add_log_nil. }
  rewrite Hfree. subst w1. rewrite add_log_app.
  set (w2 := add_log _ w).
  destruct (Z.eqb_spec (Z.of_nat (length l)) 1) as [H1|H1].
  - destruct l as [|a [|b l']]; cbn [length] in *; try lia.
    assert (Z.to_nat index = 0) as -> by lia. reflexivity.
  - replace (index + 1)%Z with (Z.of_nat (Z.to_nat index) + 1)%Z by lia.
    rewrite (remove_cells l (Z.to_nat index) x) by (exact Hx || lia).
    pose proof (length_delete l _ (ex_intro _ x Hx)) as Hd.
    rewrite u8_small by lia.
    destruct (delete (Z.to_nat index) l) eqn:E; [cbn in Hd; lia|].
    reflexivity.
Qed.

Lemma get_filter_holds l index w :
  filters_are l (mgr w) -> (0 <= index)%Z ->
  get_filter index w = Done (default None (l !! Z.to_nat index)) w.
Proof. intros H Hi. exact (get_at_holds _ _ l index w H Hi). Qed.

Lemma get_injector_holds l index w :
  injectors_are l (mgr w) -> (0 <= index)%Z ->
  get_injector index w = Done (default None (l !! Z.to_nat index)) w.
Proof. intros H Hi. exact (get_at_holds _ _ l index w H Hi). Qed.

Lemma lookup_delete_below {A} (l : list A) i j :
  j < i -> delete i l !! j = l !! j.
Proof. intros H. now apply list_lookup_delete_lt. Qed.

Lemma lookup_delete_above {A} (l : list A) i j :
  i <= j -> delete i l !! j = l !! S j.
Proof. intros H. now apply list_lookup_delete_ge. Qed.

(** ** Adding and removing plugins *)

(** X1. On a filter registry that holds [l] with room for one more,
    [add_filter(f)] returns and the registry holds [l] followed by [f]: the
    count is one more, [get_filter] at the old count returns [f], and every
    earlier index returns what it did. Nothing else of the Manager changes;
    the log gets the refusal message when the state is neither IDLE nor
    RESET, and the filter is added all the same. *)
Theorem add_filter_appends (f : option PacketFilter) l w :
  filters_are l (mgr w) -> length l < 255 ->
  let w' :=
    with_mgr (set_filters (Some (map Ptr (l ++ [f])))
                          (Z.of_nat (length l) + 1) (mgr w))
      (add_log (refusal (not_idle_or_reset (status (mgr w)))
                        "Can't add filters unless manager is idle or reset.")
               w) in
  add_filter f w = Done tt w'
  /\ filters_are (l ++ [f]) (mgr w')
  /\ get_filter_count w' = Done (Z.of_nat (length l) + 1)%Z w'
  /\ get_filter (Z.of_nat (length l)) w' = Done f w'
  /\ forall index x, l !! index = Some x ->
       get_filter (Z.of_nat index) w' = Done x w'.
Proof.
  intros H Hlen w'.
  assert (H' : filters_are (l ++ [f]) (mgr w')) by (apply holds_snoc, Hlen).
  split; [now apply add_filter_world|]. split; [exact H'|].
  split; [reflexivity|]. split.
  - rewrite (get_filter_holds _ _ _ H') by lia.
    rewrite Nat2Z.id, lookup_app_r, Nat.sub_diag by lia. reflexivity.
  - intros index x Hx.
    rewrite (get_filter_holds _ _ _ H') by lia.
    rewrite Nat2Z.id, lookup_app_l by (now apply lookup_lt_Some in Hx).
    now rewrite Hx.
Qed.

(** X2. [add_injector(i)] appends in the same way; its message is printed
    in every state but IDLE. *)
Theorem add_injector_appends (i : option Injector) l w :
  injectors_are l (mgr w) -> length l < 255 ->
  let w' :=
    with_mgr (set_injectors (Some (map Ptr (l ++ [i])))
                            (Z.of_nat (length l) + 1) (mgr w))
      (add_log (refusal (negb (status_eqb (status (mgr w)) USBM_IDLE))
                        "Can't add injectors unless manager is idle.")
               w) in
  add_injector i w = Done tt w'
  /\ injectors_are (l ++ [i]) (mgr w')
  /\ get_injector_count w' = Done (Z.of_nat (length l) + 1)%Z w'
  /\ get_injector (Z.of_nat (length l)) w' = Done i w'
  /\ forall index x, l !! index = Some x ->
       get_injector (Z.of_nat index) w' = Done x w'.
Proof.
  intros H Hlen w'.
  assert (H' : injectors_are (l ++ [i]) (mgr w')) by (apply holds_snoc, Hlen).
  split; [now apply add_injector_world|]. split; [exact H'|].
  split; [reflexivity|]. split.
  - rewrite (get_injector_holds _ _ _ H') by lia.
    rewrite Nat2Z.id, lookup_app_r, Nat.sub_diag by lia. reflexivity.
  - intros index x Hx.
    rewrite (get_injector_holds _ _ _ H') by lia.
    rewrite Nat2Z.id, lookup_app_l by (now apply lookup_lt_Some in Hx).
    now rewrite Hx.
Qed.

(** X3. [remove_filter(index, freeMemory)] with [index] below the count
    returns; the registry then holds [l] without entry [index], the later
    entries moved down by one, and the array is freed when the last entry
    goes. The object is deleted exactly when [freeMemory] is set and the
    entry is not NULL. *)
Theorem remove_filter_deletes (index : Z) (freeMemory : bool) l x w :
  filters_are l (mgr w) -> (0 <= index)%Z -> l !! Z.to_nat index = Some x ->
  let w' :=
    with_mgr (set_filters
                (cells (delete (Z.to_nat index) l))
                (Z.of_nat (length l) - 1) (mgr w))
      (add_log (refusal (not_idle_or_reset (status (mgr w)))
                        "Can't remove filters unless manager is idle or reset."
                ++ (if freeMemory then delete_filter x else []))
               w) in
  remove_filter index freeMemory w = Done tt w'
  /\ filters_are (delete (Z.to_nat index) l) (mgr w')
  /\ get_filter_count w' = Done (Z.of_nat (length l) - 1)%Z w'
  /\ (forall j y, l !! j = Some y -> (Z.of_nat j < index)%Z ->
        get_filter (Z.of_nat j) w' = Done y w')
  /\ (forall j y, l !! S j = Some y -> (index <= Z.of_nat j)%Z ->
        get_filter (Z.of_nat j) w' = Done y w').
Proof.
  intros H Hi Hx w'.
  assert (H' : filters_are (delete (Z.to_nat index) l) (mgr w')).
  { apply (holds_delete l _ x Hx). apply H. }
  split; [now apply remove_filter_world|]. split; [exact H'|].
  split; [reflexivity|]. split.
  - intros j y Hy Hj. rewrite (get_filter_holds _ _ _ H') by lia.
    rewrite Nat2Z.id, lookup_delete_below, Hy by lia. reflexivity.
  - intros j y Hy Hj. rewrite (get_filter_holds _ _ _ H') by lia.
    rewrite Nat2Z.id, lookup_delete_above, Hy by lia. reflexivity.
Qed.

(** X4. [remove_injector(index, freeMemory)] with [index] below the
    count: the same for the injector registry. *)
Theorem remove_injector_deletes (index : Z) (freeMemory : bool) l x w :
  injectors_are l (mgr w) -> (0 <= index)%Z -> l !! Z.to_nat index = Some x ->
  let w' :=
    with_mgr (set_injectors
                (cells (delete (Z.to_nat index) l))
                (Z.of_nat (length l) - 1) (mgr w))
      (add_log (refusal (not_idle_or_reset (status (mgr w)))
                        "Can't remove injectors unless manager is idle or reset."
                ++ (if freeMemory then delete_injector x else []))
               w) in
  remove_injector index freeMemory w = Done tt w'
  /\ injectors_are (delete (Z.to_nat index) l) (mgr w')
  /\ get_injector_count w' = Done (Z.of_nat (length l) - 1)%Z w'
  /\ (forall j y, l !! j = Some y -> (Z.of_nat j < index)%Z ->
        get_injector (Z.of_nat j) w' = Done y w')
  /\ (forall j y, l !! S j = Some y -> (index <= Z.of_nat j)%Z ->
        get_injector (Z.of_nat j) w' = Done y w').
Proof.
  intros H Hi Hx w'.
  assert (H' : injectors_are (delete (Z.to_nat index) l) (mgr w')).
  { apply (holds_delete l _ x Hx). apply H. }
  split; [now apply remove_injector_world|]. split; [exact H'|].
  split; [reflexivity|]. split.
  - intros j y Hy Hj. rewrite (get_injector_holds _ _ _ H') by lia.
    rewrite Nat2Z.id, lookup_delete_below, Hy by lia. reflexivity.
  - intros j y Hy Hj. rewrite (get_injector_holds _ _ _ H') by lia.
    rewrite Nat2Z.id, lookup_delete_above, Hy by lia. reflexivity.
Qed.

(** ** Sequences of registry operations *)

Lemma set_filters_same m : set_filters (filters m) (filterCount m) m = m.
Proof. now destruct m. Qed.

Lemma set_injectors_same m : set_injectors (injectors m) (injectorCount m) m = m.
Proof. now destruct m. Qed.

Lemma with_mgr_same w : with_mgr (mgr w) w = w.
Proof. now destruct w. Qed.

Lemma with_mgr_twice m1 e1 m2 e2 w :
  with_mgr m2 (add_log e2 (with_mgr m1 (add_log e1 w)))
  = with_mgr m2 (add_log (e1 ++ e2) w).
Proof. unfold with_mgr, add_log. cbn. now rewrite app_assoc. Qed.

Lemma refusals_S b msg n : refusal b msg ++ refusals b msg n = refusals b msg (S n).
Proof. now destruct b. Qed.

Lemma for_each_add_filter (fs : list PacketFilter) :
  forall l w,
    filters_are l (mgr w) -> length l + length fs <= 255 ->
    for_each fs (fun f => add_filter (Some f)) w
    = Done tt
        (with_mgr (set_filters (cells (l ++ map Some fs))
                               (Z.of_nat (length l + length fs)) (mgr w))
           (add_log (refusals (not_idle_or_reset (status (mgr w)))
                              "Can't add filters unless manager is idle or reset."
                              (length fs))
                    w)).
Proof.
  induction fs as [|f fs IH]; intros l w H Hlen.
  - destruct H as (Hc & _ & Hp). cbn [for_each map length].
    rewrite app_nil_r, Nat.add_0_r, <- Hc, <- Hp, set_filters_same.
    destruct (not_idle_or_reset _); cbn [refusals repeat];
      now rewrite add_log_nil, with_mgr_same.
  - cbn [for_each map length] in *.
    rewrite (bind_done _ _ _ _ _ (add_filter_world (Some f) l w H ltac:(lia))).
    rewrite (IH (l ++ [Some f])).
    + cbn [mgr with_mgr status set_filters]. rewrite with_mgr_twice.
      rewrite refusals_S, <- app_assoc, length_app. cbn [app length].
      replace (length l + 1 + length fs) with (length l + S (length fs)) by lia.
      reflexivity.
    + apply holds_snoc. lia.
    + rewrite length_app. cbn [length]. lia.
Qed.

Lemma for_each_add_injector (js : list Injector) :
  forall l w,
    injectors_are l (mgr w) -> length l + length js <= 255 ->
    for_each js (fun i => add_injector (Some i)) w
    = Done tt
        (with_mgr (set_injectors (cells (l ++ map Some js))
                                 (Z.of_nat (length l + length js)) (mgr w))
           (add_log (refusals (negb (status_eqb (status (mgr w)) USBM_IDLE))
                              "Can't add injectors unless manager is idle."
                              (length js))
                    w)).
Proof.
  induction js as [|j js IH]; intros l w H Hlen.
  - destruct H as (Hc & _ & Hp). cbn [for_each map length].
    rewrite app_nil_r, Nat.add_0_r, <- Hc, <- Hp, set_injectors_same.
    destruct (negb _); cbn [refusals repeat];
      now rewrite add_log_nil, with_mgr_same.
  - cbn [for_each map length] in *.
    rewrite (bind_done _ _ _ _ _ (add_injector_world (Some j) l w H ltac:(lia))).
    rewrite (IH (l ++ [Some j])).
    + cbn [mgr with_mgr status set_injectors]. rewrite with_mgr_twice.
      rewrite refusals_S, <- app_assoc, length_app. cbn [app length].
      replace (length l + 1 + length js) with (length l + S (length js)) by lia.
      reflexivity.
    + apply holds_snoc. lia.
    + rewrite length_app. cbn [length]. lia.
Qed.

(** X5. [load_plugins] stores the two proxies and appends the filters and
    the injectors of the configuration to the registries, each list in its
    order; as long as neither registry grows past 255 entries it returns.
    One refusal message is printed per plugin when the state does not
    allow the addition. *)
Theorem load_plugins_installs (b : bundle) lf li w :
  filters_are lf (mgr w) -> injectors_are li (mgr w) ->
  length lf + length (plugin_filters b) <= 255 ->
  length li + length (plugin_injectors b) <= 255 ->
  let m' :=
    set_injectors (cells (li ++ map Some (plugin_injectors b)))
                  (Z.of_nat (length li + length (plugin_injectors b)))
      (set_filters (cells (lf ++ map Some (plugin_filters b)))
                   (Z.of_nat (length lf + length (plugin_filters b)))
         (set_proxies (device_proxy b) (host_proxy b) (mgr w))) in
  load_plugins b w
  = Done tt
      (with_mgr m'
         (add_log
            (refusals (not_idle_or_reset (status (mgr w)))
                      "Can't add filters unless manager is idle or reset."
                      (length (plugin_filters b))
             ++ refusals (negb (status_eqb (status (mgr w)) USBM_IDLE))
                         "Can't add injectors unless manager is idle."
                         (length (plugin_injectors b)))
            w))
  /\ filters_are (lf ++ map Some (plugin_filters b)) m'
  /\ injectors_are (li ++ map Some (plugin_injectors b)) m'.
Proof.
  intros Hf Hi Hlf Hli m'.
  split; [|split].
  - unfold load_plugins. rewrite bind_modify.
    set (w1 := with_mgr _ w).
    rewrite (bind_done _ _ _ _ _ (for_each_add_filter _ lf w1 Hf Hlf)).
    rewrite (for_each_add_injector _ li) by (exact Hi || exact Hli).
    cbn [mgr with_mgr status set_filters]. rewrite with_mgr_twice.
    reflexivity.
  - unfold filters_are, holds. cbn. rewrite length_app, length_map.
    split; [lia|]. split; [lia|reflexivity].
  - unfold injectors_are, holds. cbn. rewrite length_app, length_map.
    split; [lia|]. split; [lia|reflexivity].
Qed.












(** X7. The counts are 8-bit: with 255 entries in a registry, the
    increment in [add_filter] or [add_injector] wraps to 0 and the array is
    [realloc]ed to size zero; the call has no defined result. *)
Theorem add_past_255 (w : World) :
  (forall f arr,
     filters (mgr w) = Some arr -> filterCount (mgr w) = 255%Z ->
     add_filter f w = Undefined "realloc to size zero")
  /\ (forall i arr,
        injectors (mgr w) = Some arr -> injectorCount (mgr w) = 255%Z ->
        add_injector i w = Undefined "realloc to size zero").
Proof.
  split; intros x arr Hp Hc.
  - unfold add_filter. rewrite bind_get_mgr, when_stderr.
    rewrite Hp. cbv zeta. rewrite Hc. reflexivity.
  - unfold add_injector. rewrite bind_get_mgr, when_stderr.
    rewrite Hp. cbv zeta. rewrite Hc. reflexivity.
Qed.

(** The registries of the loaded demo session. *)
Lemma filters_w_loaded :
  filters_are [Some (match_all_filter 100); Some (match_all_filter 101)]
              (mgr w_loaded).
Proof.
  split; [vm_compute; reflexivity|]. split; [cbn; lia|vm_compute; reflexivity].
Qed.

Lemma injectors_w_loaded :
  injectors_are [Some (match_all_injector 200)] (mgr w_loaded).
Proof.
  split; [vm_compute; reflexivity|]. split; [cbn; lia|vm_compute; reflexivity].
Qed.

Lemma add_filter_appends_witness :
  exists w',
    add_filter (Some (match_all_filter 102)) w_loaded = Done tt w'
    /\ get_filter_count w' = Done 3%Z w'
    /\ get_filter 2 w' = Done (Some (match_all_filter 102)) w'
    /\ get_filter 1 w' = Done (Some (match_all_filter 101)) w'.
Proof.
  destruct (add_filter_appends (Some (match_all_filter 102)) _ w_loaded
              filters_w_loaded ltac:(cbn; lia)) as (H1 & _ & H3 & H4 & H5).
  eexists. split; [exact H1|]. split; [exact H3|]. split; [exact H4|].
  exact (H5 1 _ eq_refl).
Defined.

Lemma add_injector_appends_witness :
  exists w',
    add_injector (Some (match_all_injector 201)) w_loaded = Done tt w'
    /\ get_injector_count w' = Done 2%Z w'
    /\ get_injector 1 w' = Done (Some (match_all_injector 201)) w'
    /\ get_injector 0 w' = Done (Some (match_all_injector 200)) w'.
Proof.
  destruct (add_injector_appends (Some (match_all_injector 201)) _ w_loaded
              injectors_w_loaded ltac:(cbn; lia)) as (H1 & _ & H3 & H4 & H5).
  eexists. split; [exact H1|]. split; [exact H3|]. split; [exact H4|].
  exact (H5 0 _ eq_refl).
Defined.

Lemma remove_filter_deletes_witness :
  exists w',
    remove_filter 0 true w_loaded = Done tt w'
    /\ get_filter_count w' = Done 1%Z w'
    /\ get_filter 0 w' = Done (Some (match_all_filter 101)) w'
    /\ log w' = log w_loaded ++ [EvDelete (OFilter 100)].
Proof.
  destruct (remove_filter_deletes 0 true _ (Some (match_all_filter 100)) w_loaded
              filters_w_loaded ltac:(lia) eq_refl) as (H1 & _ & H3 & _ & H5).
  eexists. split; [exact H1|]. split; [exact H3|].
  split; [exact (H5 0 _ eq_refl ltac:(lia))|]. reflexivity.
Defined.

Lemma remove_injector_deletes_witness :
  exists w',
    remove_injector 0 true w_loaded = Done tt w'
    /\ get_injector_count w' = Done 0%Z w'
    /\ injectors (mgr w') = None
    /\ log w' = log w_loaded ++ [EvDelete (OInjector 200)].
Proof.
  destruct (remove_injector_deletes 0 true _ (Some (match_all_injector 200))
              w_loaded injectors_w_loaded ltac:(lia) eq_refl)
    as (H1 & _ & H3 & _).
  eexists. split; [exact H1|]. split; [exact H3|]. split; reflexivity.
Defined.

(** A filter registry with 255 entries. *)
Lemma add_past_255_witness :
  add_filter (Some (match_all_filter 0))
    (with_mgr (set_filters (Some (replicate 255 (Ptr None))) 255 Manager_new)
              World_new)
  = Undefined "realloc to size zero".
Proof.
  apply (proj1 (add_past_255 _) _ (replicate 255 (Ptr None))); reflexivity.
Defined.

Lemma load_plugins_installs_witness :
  exists w',
    load_plugins demo_bundle World_new = Done tt w'
    /\ filters_are [Some (match_all_filter 100); Some (match_all_filter 101)]
                   (mgr w')
    /\ injectors_are [Some (match_all_injector 200)] (mgr w')
    /\ log w' = [].
Proof.
  destruct (load_plugins_installs demo_bundle [] [] World_new) as (H1 & H2 & H3).
  - split; [reflexivity|]. split; [cbn; lia|reflexivity].
  - split; [reflexivity|]. split; [cbn; lia|reflexivity].
  - cbn; lia.
  - cbn; lia.
  - eexists. split; [exact H1|]. split; [exact H2|]. split; [exact H3|].
    reflexivity.
Defined.


(** * A thread whose injector has left the registry *)

Lemma asked_to_stop_others o l evs :
  forallb teardown_event evs = true ->
  (forall o', In (EvPleaseStop o') evs -> obj_eqb o' o = false) ->
  asked_to_stop o (l ++ evs) = asked_to_stop o l.
Proof.
  induction evs as [|e evs IH] using rev_ind; intros F H.
  - now rewrite app_nil_r.
  - rewrite forallb_app in F. apply andb_prop in F as [F1 F2].
    rewrite app_assoc, asked_to_stop_snoc.
    assert (IH' : asked_to_stop o (l ++ evs) = asked_to_stop o l).
    { apply IH; [exact F1|]. intros o' Ho'. apply H, in_or_app. now left. }
    destruct e; cbn in F2; try discriminate; try exact IH'.
    rewrite (H o0); [exact IH'|]. apply in_or_app. right. now left.
Qed.

Lemma injector_stop_inv m i e :
  In e (injector_stop m i) ->
  exists arr inj,
    injectors m = Some arr /\ arr !! Z.to_nat i = Some (Ptr (Some inj))
    /\ e = EvPleaseStop (OInjector (inj_id inj)).
Proof.
  unfold injector_stop. intros H.
  destruct (injectors m) as [arr|]; [|destruct H].
  destruct (arr !! Z.to_nat i) as [[|[inj|]]|] eqn:E; try (destruct H; fail).
  destruct H as [<-|[]]. now exists arr, inj.
Qed.

Lemma relay_stops_inv r i e :
  In e (relay_stops r i) ->
  (exists rd, e = EvPleaseStop (OReader (rd_id rd)))
  \/ (exists wr, e = EvPleaseStop (OWriter (wr_id wr))).
Proof.
  unfold relay_stops. intros H. apply in_app_or in H as [H|H].
  - destruct (readerThreads r !! i) as [[|]|], (readers r !! i) as [[rd|]|];
      try (destruct H; fail).
    destruct H as [<-|[]]. left. now exists rd.
  - destruct (writerThreads r !! i) as [[|]|], (writers r !! i) as [[wr|]|];
      try (destruct H; fail).
    destruct H as [<-|[]]. right. now exists wr.
Qed.

Lemma bind_blocked {A B} (c : M A) (k : A -> M B) w why :
  c w = Blocked why -> bind c k w = Blocked why.
Proof. intros H. unfold bind. now rewrite H. Qed.

(** The loop that joins the injector threads does not get past a thread
    that has not been asked to stop. *)
Lemma join_injector_threads_blocked ts :
  forall w t,
    In t ts -> asked_to_stop (OInjector t) (log w) = false ->
    for_each ts (fun t => join (OInjector t)) w
    = Blocked "join of a thread that has not been asked to stop".
Proof.
  induction ts as [|t0 ts IH]; intros w t Hin Ht; [destruct Hin|].
  cbn [for_each]. unfold bind.
  destruct (asked_to_stop (OInjector t0) (log w)) eqn:E0.
  - rewrite (join_asked _ _ E0).
    destruct Hin as [->|Hin]; [congruence|].
    apply (IH _ t Hin). cbn [log add_log].
    rewrite asked_to_stop_snoc. exact Ht.
  - unfold join. now rewrite E0.
Qed.

(** X8. In RELAYING or SETUP_ABORT, when a thread of [injectorThreads]
    runs on an injector that is no longer in the registry and has not been
    asked to stop, [stop_relaying] does not return: the first loop asks
    the injectors of the registry to stop, and the join of that thread
    waits for an injector nobody has asked to stop. [remove_injector] puts
    a RELAYING Manager into this state, since it does not refuse the
    removal. *)
Theorem stop_relaying_blocks (w : World) (t : nat) :
  status (mgr w) = USBM_RELAYING \/ status (mgr w) = USBM_SETUP_ABORT ->
  shape (in_relays (mgr w)) -> shape (out_relays (mgr w)) ->
  threads_owned (in_relays (mgr w)) -> threads_owned (out_relays (mgr w)) ->
  registry_ok (injectors (mgr w)) (injectorCount (mgr w)) ->
  In t (injectorThreads (mgr w)) ->
  asked_to_stop (OInjector t) (log w) = false ->
  (forall i arr inj,
     (0 <= i < injectorCount (mgr w))%Z -> injectors (mgr w) = Some arr ->
     arr !! Z.to_nat i = Some (Ptr (Some inj)) -> inj_id inj <> t) ->
  stop_relaying w = Blocked "join of a thread that has not been asked to stop".
Proof.
  intros Hst Hsi Hso Hoi Hoo Hreg Ht Hask Hout.
  rewrite stop_relaying_teardown by exact Hst.
  unfold teardown.
  rewrite bind_modify, bind_get_mgr. cbn [mgr with_mgr injectorCount set_status
                                          injectorThreads].
  set (w1 := with_mgr (set_status USBM_STOPPING (mgr w)) w).
  set (e1 := flat_map (injector_stop (mgr w1)) (range 0 (injectorCount (mgr w)))).
  assert (E1 : for_each (range 0 (injectorCount (mgr w))) please_stop_injector w1
               = Done tt (add_log e1 w1)).
  { apply (for_each_add_log _ _ _ (mgr w1)); [|reflexivity].
    intros i v Hi Hv. rewrite <- Hv.
    apply please_stop_injector_spec; rewrite Hv; [exact Hreg|apply In_range, Hi]. }
  assert (F1 : forallb teardown_event e1 = true)
    by (apply forallb_flat_map; intros; apply injector_stop_event).
  assert (N1 : forall o', In (EvPleaseStop o') e1 -> obj_eqb o' (OInjector t) = false).
  { intros o' Ho'. apply in_flat_map in Ho' as (i & Hi & Hin).
    apply In_range in Hi.
    apply injector_stop_inv in Hin as (arr & inj & Harr & Hx & [= ->]).
    cbn. apply Nat.eqb_neq. now apply (Hout i arr inj). }
  rewrite (bind_done _ _ _ _ _ E1). clear E1.
  set (e2 := flat_map (fun i => relay_stops (relays IN (mgr w1)) i
                                ++ relay_stops (relays OUT (mgr w1)) i)
                      (seq 0 16)).
  assert (E2 : for_each (seq 0 16)
                 (fun i => signal_relays IN i ;; signal_relays OUT i)
                 (add_log e1 w1)
               = Done tt (add_log e2 (add_log e1 w1))).
  { apply (for_each_add_log _ _ _ (mgr w1)); [|reflexivity].
    intros i v Hi Hv. apply in_seq in Hi.
    rewrite (bind_done _ _ _ _ _ (signal_relays_spec IN i v ltac:(lia)
               ltac:(rewrite Hv; exact Hsi) ltac:(rewrite Hv; exact Hoi))).
    rewrite (signal_relays_spec OUT i) by (lia || (cbn [mgr add_log]; rewrite Hv; assumption)).
    cbn [mgr add_log]. rewrite Hv. now rewrite add_log_app. }
  assert (F2 : forallb teardown_event e2 = true).
  { apply forallb_flat_map; intros. now rewrite forallb_app, !relay_stops_event. }
  assert (N2 : forall o', In (EvPleaseStop o') e2 -> obj_eqb o' (OInjector t) = false).
  { intros o' Ho'. apply in_flat_map in Ho' as (i & _ & Hin).
    apply in_app_or in Hin as [Hin|Hin];
      apply relay_stops_inv in Hin as [[x [= ->]]|[x [= ->]]]; reflexivity. }
  rewrite (bind_done _ _ _ _ _ E2). clear E2.
  clearbody e1 e2.
  apply bind_blocked. apply (join_injector_threads_blocked _ _ t Ht).
  cbn [log add_log].
  rewrite asked_to_stop_others by assumption.
  rewrite asked_to_stop_others by assumption. exact Hask.
Qed.

(** The demo session after [remove_injector(0, false)] in RELAYING: the
    registry is empty, the thread of injector 200 runs. *)
Lemma stop_relaying_blocks_witness :
  stop_relaying w_unregistered
  = Blocked "join of a thread that has not been asked to stop".
Proof.
  apply (stop_relaying_blocks w_unregistered 200).
  - left. vm_compute. reflexivity.
  - set (m := mgr w_unregistered). vm_compute in m. subst m.
    unfold shape; cbn; repeat split.
  - set (m := mgr w_unregistered). vm_compute in m. subst m.
    unfold shape; cbn; repeat split.
  - set (m := mgr w_unregistered). vm_compute in m. subst m.
    cbn. concrete_threads_owned.
  - set (m := mgr w_unregistered). vm_compute in m. subst m.
    cbn. concrete_threads_owned.
  - intros i Hi. exfalso. revert Hi.
    set (m := mgr w_unregistered). vm_compute in m. subst m. cbn. lia.
  - set (m := mgr w_unregistered). vm_compute in m. subst m. cbn. now left.
  - vm_compute. reflexivity.
  - intros i arr inj Hi. exfalso. revert Hi.
    set (m := mgr w_unregistered). vm_compute in m. subst m. cbn. lia.
Defined.

(** * What the member functions add to the log *)

Lemma emits_signal_relays d i : emits teardown_event (signal_relays d i).
Proof. unfold signal_relays. walk. Qed.

Lemma emits_release_relays d i : emits teardown_event (release_relays d i).
Proof. unfold release_relays. walk. Qed.

Lemma emits_please_stop_injector i : emits teardown_event (please_stop_injector i).
Proof. unfold please_stop_injector. walk. Qed.

Lemma emits_release_interfaces : emits teardown_event release_interfaces.
Proof. unfold release_interfaces. walk. Qed.

(** ** What a computation leaves alone *)

Section Fixes.
Context {B : Type} (g : Manager -> B).

Lemma fixes_same {A} (c : M A) :
  (forall w a w', c w = Done a w' -> mgr w' = mgr w) -> fixes g c.
Proof. intros H w a w' E. now rewrite (H _ _ _ E). Qed.

Lemma fixes_ret {A} (a : A) : fixes g (ret a).
Proof. apply fixes_same. intros w b w' [= _ <-]. reflexivity. Qed.

Lemma fixes_undefined {A} why : fixes g (@undefined A why).
Proof. intros w a w' [=]. Qed.

Lemma fixes_out_of_fuel {A} : fixes g (@out_of_fuel A).
Proof. intros w a w' [=]. Qed.

Lemma fixes_get_mgr : fixes g get_mgr.
Proof. apply fixes_same. intros w b w' [= _ <-]. reflexivity. Qed.

Lemma fixes_fresh : fixes g fresh.
Proof. apply fixes_same. intros w b w' [= _ <-]. reflexivity. Qed.

Lemma fixes_emit e : fixes g (emit e).
Proof. apply fixes_same. intros w b w' [= _ <-]. reflexivity. Qed.

Lemma fixes_join o : fixes g (join o).
Proof.
  intros w a w' E. unfold join in E.
  destruct (asked_to_stop o (log w)); [|discriminate].
  exact (fixes_emit _ _ _ _ E).
Qed.

Lemma fixes_modify f : (forall m, g (f m) = g m) -> fixes g (modify f).
Proof. intros H w a w' [= _ <-]. apply H. Qed.

Lemma fixes_bind {A C} (c : M A) (k : A -> M C) :
  fixes g c -> (forall a, fixes g (k a)) -> fixes g (bind c k).
Proof.
  intros Hc Hk w b w' E.
  apply bind_inv in E as (a & w1 & E1 & E2).
  now rewrite (Hk a _ _ _ E2), (Hc _ _ _ E1).
Qed.

Lemma fixes_deref {A} why (p : option A) : fixes g (deref why p).
Proof. destruct p; [apply fixes_ret|apply fixes_undefined]. Qed.

Lemma fixes_slot {A} (l : list A) i : fixes g (slot l i).
Proof. apply fixes_deref. Qed.

Lemma fixes_value {A} (c : cell A) : fixes g (value c).
Proof. destruct c; [apply fixes_undefined|apply fixes_ret]. Qed.

Lemma fixes_load {A} (p : option (list (cell A))) i : fixes g (load p i).
Proof.
  unfold load. apply fixes_bind; [apply fixes_deref|]. intros arr.
  destruct (i <? 0)%Z; [apply fixes_undefined|apply fixes_deref].
Qed.

Lemma fixes_when b (c : M unit) : fixes g c -> fixes g (when b c).
Proof. intros H. destruct b; [exact H|apply fixes_ret]. Qed.

Lemma fixes_for_each {A} (l : list A) (body : A -> M unit) :
  (forall x, fixes g (body x)) -> fixes g (for_each l body).
Proof.
  intros H. induction l as [|x l IH]; cbn [for_each].
  - apply fixes_ret.
  - apply fixes_bind; [apply H|]. intros _. exact IH.
Qed.

Lemma fixes_call p ev : fixes g (call p ev).
Proof.
  unfold call. apply fixes_bind; [apply fixes_get_mgr|]. intros m.
  apply fixes_bind; [apply fixes_deref|]. intros _. apply fixes_emit.
Qed.

Lemma fixes_connect_result e p : fixes g (connect_result e p).
Proof.
  apply fixes_same. intros w b w'. unfold connect_result.
  destruct p; intros [= _ <-]; reflexivity.
Qed.

End Fixes.

Ltac fixes_step :=
  lazymatch goal with
  | |- fixes _ (bind _ _) => apply fixes_bind; [|intros ?]
  | |- fixes _ (ret _) => apply fixes_ret
  | |- fixes _ get_mgr => apply fixes_get_mgr
  | |- fixes _ (modify_relays _ _) => apply fixes_modify; intros ?; try reflexivity
  | |- fixes _ (modify _) => apply fixes_modify; intros ?; try reflexivity
  | |- fixes _ fresh => apply fixes_fresh
  | |- fixes _ (undefined _) => apply fixes_undefined
  | |- fixes _ out_of_fuel => apply fixes_out_of_fuel
  | |- fixes _ (deref _ _) => apply fixes_deref
  | |- fixes _ (slot _ _) => apply fixes_slot
  | |- fixes _ (value _) => apply fixes_value
  | |- fixes _ (load _ _) => apply fixes_load
  | |- fixes _ (connect_result _ _) => apply fixes_connect_result
  | |- fixes _ (when _ _) => apply fixes_when
  | |- fixes _ (for_each _ _) => apply fixes_for_each; intros ?
  | |- fixes _ (emit _) => apply fixes_emit
  | |- fixes _ (stderr _) => apply fixes_emit
  | |- fixes _ (call _ _) => apply fixes_call
  | |- fixes _ (join _) => apply fixes_join
  | |- fixes _ (match ?x with _ => _ end) => destruct x
  | |- fixes _ (let _ := _ in _) => cbv zeta
  end.

Ltac keep := repeat fixes_step.

(** ** Partial correctness *)

Lemma partial_for_each {A} (I : World -> Prop) (l : list A) (body : A -> M unit) :
  (forall x, In x l -> partial I (body x) (fun _ => I)) ->
  partial I (for_each l body) (fun _ => I).
Proof.
  induction l as [|x l IH]; intros H w a w' Hw E; cbn [for_each] in E.
  - now injection E as _ <-.
  - apply bind_inv in E as (u & w1 & E1 & E2).
    apply (IH (fun y Hy => H y (or_intror Hy)) w1 a w'); [|exact E2].
    exact (H x (or_introl eq_refl) w u w1 Hw E1).
Qed.

(** ** The EP0 Endpoint object *)

(** The release loop of [stop_relaying] leaves NULL in every endpoint entry
    it visits, and touches no other. *)
Lemma release_relays_endpoints d i w a w' :
  release_relays d i w = Done a w' ->
  i < length (endpoints (relays d (mgr w)))
  /\ forall d',
       endpoints (relays d' (mgr w'))
       = if decide (d' = d) then <[i := None]> (endpoints (relays d' (mgr w)))
         else endpoints (relays d' (mgr w)).
Proof.
  unfold release_relays. intros E. rewrite bind_get_mgr in E.
  apply bind_inv in E as (ep & w1 & E1 & E).
  assert (Hep : endpoints (relays d (mgr w)) !! i = Some ep /\ w1 = w).
  { unfold slot in E1. destruct (_ !! i); [|discriminate].
    now injection E1 as -> ->. }
  destruct Hep as [Hep ->].
  split; [now apply lookup_lt_Some in Hep|]. intros d'.
  apply bind_inv in E as ([] & w2 & E2 & E).
  assert (Hrest : endpoints (relays d' (mgr w')) = endpoints (relays d' (mgr w2))).
  { revert E. generalize w2 a w'.
    change (fixes (fun m => endpoints (relays d' m))
              (p <- slot (readers (relays d (mgr w))) i ;;
               match p with
               | Some r =>
                   j <- slot (readerThreads (relays d (mgr w))) i ;;
                   when j (join (OReader (rd_id r)) ;;
                           modify_relays d (set_readerThread i false)) ;;
                   emit (EvDelete (OReader (rd_id r))) ;;
                   modify_relays d (set_reader i None)
               | None => ret tt
               end ;;
               p <- slot (writers (relays d (mgr w))) i ;;
               match p with
               | Some x =>
                   j <- slot (writerThreads (relays d (mgr w))) i ;;
                   when j (join (OWriter (wr_id x)) ;;
                           modify_relays d (set_writerThread i false)) ;;
                   emit (EvDelete (OWriter (wr_id x))) ;;
                   modify_relays d (set_writer i None)
               | None => ret tt
               end)).
    keep; destruct d, d'; reflexivity. }
  rewrite Hrest. clear Hrest E.
  destruct ep as [ep|]; cbn [is_null negb when] in E2.
  - injection E2 as <-. destruct d, d'; cbn; try reflexivity.
  - injection E2 as <-.
    destruct (decide (d' = d)) as [->|]; [|reflexivity].
    symmetry. now apply list_insert_id.
Qed.

Lemma release_relays_keeps_ep0 d i :
  partial (fun w => endpoints (out_relays (mgr w)) !! 0 = Some None)
          (release_relays d i)
          (fun _ w => endpoints (out_relays (mgr w)) !! 0 = Some None).
Proof.
  intros w a w' H0 E.
  destruct (release_relays_endpoints _ _ _ _ _ E) as [_ H].
  specialize (H OUT). cbn [relays] in H. rewrite H.
  destruct (decide (OUT = d)) as [_|_]; [|exact H0].
  destruct (decide (i = 0)) as [->|Hi].
  - apply list_lookup_insert_eq. now apply lookup_lt_Some in H0.
  - now rewrite list_lookup_insert_ne.
Qed.

Lemma release_loop_ep0 w a w' :
  for_each (seq 0 16) (fun i => release_relays IN i ;; release_relays OUT i) w
  = Done a w' ->
  endpoints (out_relays (mgr w')) !! 0 = Some None.
Proof.
  change (seq 0 16) with (0 :: seq 1 15). cbn [for_each]. intros E.
  apply bind_inv in E as (u & w1 & E1 & E).
  apply bind_inv in E1 as (u' & wa & Ea & Eb).
  assert (H1 : endpoints (out_relays (mgr w1)) !! 0 = Some None).
  { destruct (release_relays_endpoints _ _ _ _ _ Eb) as [Hlen H].
    specialize (H OUT). cbn [relays] in *. rewrite H.
    destruct (decide (OUT = OUT)) as [_|]; [|congruence].
    now apply list_lookup_insert_eq. }
  refine (partial_for_each
            (fun w => endpoints (out_relays (mgr w)) !! 0 = Some None)
            _ _ _ w1 a w' H1 E).
  intros i _ w2 u2 w3 H2 E2.
  apply bind_inv in E2 as (u3 & w4 & E3 & E4).
  eapply release_relays_keeps_ep0; [|exact E4].
  eapply release_relays_keeps_ep0; [exact H2|exact E3].
Qed.

(** Peeling the first step off a computation that has returned. *)
Lemma emits_bind_at ok (Q : list event -> Prop) {A B} (c : M A) (k : A -> M B)
    w b w' :
  bind c k w = Done b w' ->
  emits ok c ->
  (forall e1 e2, forallb ok e1 = true -> Q e2 -> Q (e1 ++ e2)) ->
  (forall a w1,
     c w = Done a w1 -> k a w1 = Done b w' ->
     exists evs, log w' = log w1 ++ evs /\ Q evs) ->
  exists evs, log w' = log w ++ evs /\ Q evs.
Proof.
  intros E Hc HQ Hk.
  apply bind_inv in E as (a & w1 & E1 & E2).
  destruct (Hc _ _ _ E1) as (e1 & L1 & F1).
  destruct (Hk a w1 E1 E2) as (e2 & L2 & Q2).
  exists (e1 ++ e2). split; [now rewrite L2, L1, app_assoc|auto].
Qed.

Lemma call_log p ev w a w' : call p ev w = Done a w' -> log w' = log w ++ [ev].
Proof.
  unfold call. rewrite bind_get_mgr. destruct (proxy_ptr p (mgr w)); [|discriminate].
  cbn. now intros [= _ <-].
Qed.

Lemma modify_log f w a w' : modify f w = Done a w' -> log w' = log w.
Proof. now intros [= _ <-]. Qed.

(** Whenever the teardown path returns, it has made teardown calls only,
    and the last two are the disconnect of the host proxy and then of the
    device proxy. *)
Lemma teardown_log w a w' :
  teardown w = Done a w' ->
  exists evs,
    log w' = log w ++ evs
    /\ exists evs0,
         evs = evs0 ++ [EvDisconnect HostProxy; EvDisconnect DeviceProxy]
         /\ forallb teardown_event evs0 = true.
Proof.
  assert (HQ : forall e1 e2,
             forallb teardown_event e1 = true ->
             (exists evs0,
                e2 = evs0 ++ [EvDisconnect HostProxy; EvDisconnect DeviceProxy]
                /\ forallb teardown_event evs0 = true) ->
             exists evs0,
               e1 ++ e2 = evs0 ++ [EvDisconnect HostProxy; EvDisconnect DeviceProxy]
               /\ forallb teardown_event evs0 = true).
  { intros e1 e2 F1 (e0 & -> & F0). exists (e1 ++ e0).
    split; [now rewrite app_assoc|now rewrite forallb_app, F1, F0]. }
  intros E. unfold teardown in E.
  eapply (emits_bind_at teardown_event); [exact E|walk|exact HQ|]. clear E. intros [] w1 _ E.
  rewrite bind_get_mgr in E.
  eapply (emits_bind_at teardown_event);
    [exact E|walk; apply emits_please_stop_injector|exact HQ|].
  clear E. intros [] w2 _ E.
  eapply (emits_bind_at teardown_event);
    [exact E|walk; [apply emits_signal_relays|apply emits_signal_relays]|exact HQ|].
  clear E. intros [] w3 _ E.
  eapply (emits_bind_at teardown_event); [exact E|walk|exact HQ|]. clear E. intros [] w4 _ E.
  eapply (emits_bind_at teardown_event); [exact E|walk|exact HQ|]. clear E. intros [] w5 _ E.
  eapply (emits_bind_at teardown_event);
    [exact E|walk; [apply emits_release_relays|apply emits_release_relays]|exact HQ|].
  clear E. intros [] w6 E6 E.
  apply release_loop_ep0 in E6.
  rewrite bind_get_mgr in E. unfold slot in E at 1. rewrite E6 in E.
  cbn [deref] in E. change (bind (ret None) ?k) with (k (@None Endpoint)) in E.
  cbn [is_null negb when] in E.
  change (bind (ret tt) ?k w6) with (k tt w6) in E. cbv beta in E.
  eapply (emits_bind_at teardown_event); [exact E|apply emits_release_interfaces|exact HQ|].
  clear E. intros [] w7 _ E.
  apply bind_inv in E as ([] & w8 & E8 & E).
  apply bind_inv in E as ([] & w9 & E9 & E).
  exists [EvDisconnect HostProxy; EvDisconnect DeviceProxy].
  split; [|exists []; now split].
  apply call_log in E8, E9.
  apply bind_inv in E as ([] & w10 & E10 & E).
  apply modify_log in E10, E.
  rewrite E, E10, E9, E8, <- app_assoc. reflexivity.
Qed.

Lemma forallb_teardown_disconnects evs0 :
  forallb teardown_event evs0 = true ->
  forallb teardown_event
    (evs0 ++ [EvDisconnect HostProxy; EvDisconnect DeviceProxy]) = true.
Proof. intros H. now rewrite forallb_app, H. Qed.

(** X9. On a Manager on which the teardown is defined, [stop_relaying]
    returns and everything it has done to its collaborators is a teardown
    call: a stop request, a join, the [delete] of a relay reader or writer,
    the release of an interface, a disconnect. It prints no diagnostic,
    creates nothing, and deletes no filter, no injector, no PacketQueue and
    no Endpoint: the [delete] of the EP0 Endpoint after the release loop is
    never reached, because the loop has stored NULL in [out_endpoints[0]].
    From RELAYING or SETUP_ABORT the last two calls are the disconnect of
    the host proxy and then the disconnect of the device proxy; from any
    other state the log is unchanged. *)
Theorem stop_relaying_events (w : World) :
  stoppable (mgr w) ->
  exists w' evs,
    stop_relaying w = Done tt w'
    /\ log w' = log w ++ evs
    /\ forallb teardown_event evs = true
    /\ (status (mgr w) = USBM_RELAYING \/ status (mgr w) = USBM_SETUP_ABORT ->
        exists evs0,
          evs = evs0 ++ [EvDisconnect HostProxy; EvDisconnect DeviceProxy])
    /\ (status (mgr w) <> USBM_RELAYING -> status (mgr w) <> USBM_SETUP_ABORT ->
        evs = []).
Proof.
  intros Hs.
  destruct (status (mgr w)) eqn:Est.
  1, 2, 4, 6:
    exists (if status_eqb (status (mgr w)) USBM_SETUP
            then with_mgr (set_status USBM_SETUP_ABORT (mgr w)) w else w), [];
    unfold stop_relaying; rewrite bind_get_mgr, Est; cbn;
    (split; [reflexivity|]); (split; [now rewrite app_nil_r|]);
    (split; [reflexivity|]); (split; [intros [|]; discriminate|reflexivity]).
  all: destruct (teardown_total w Hs) as (w' & E & _);
    destruct (teardown_log _ _ _ E) as (evs & L & evs0 & -> & F);
    exists w', (evs0 ++ [EvDisconnect HostProxy; EvDisconnect DeviceProxy]);
    unfold stop_relaying; rewrite bind_get_mgr, Est; cbn;
    (split; [exact E|]); (split; [exact L|]);
    (split; [now apply forallb_teardown_disconnects|]);
    (split; [intros _; now exists evs0|intros; congruence]).
Qed.

(** The demo session after [setConfig(1)]. *)
Lemma stop_relaying_events_witness :
  exists w' evs,
    stop_relaying w_data = Done tt w'
    /\ log w' = log w_data ++ evs
    /\ forallb teardown_event evs = true.
Proof.
  destruct (stop_relaying_events w_data stoppable_w_data)
    as (w' & evs & E & L & F & _).
  exists w', evs. split; [exact E|]. split; [exact L|exact F].
Defined.
